(** * EC2 rightsizing report: the multi-source recommendation pipeline

    A shallow embedding of [lambda_function.py] (src/ec2-rightsizing.py):
    the savings aggregators, the two paginated fetchers, the liveness probe,
    the date-seeded synthetic generator and the fallback orchestrator
    [lambda_handler], followed by the properties the specification states
    about them.

    Python values are an inductive type of JSON-like data, Python floats are
    IEEE-754 binary64 numbers ([spec_float] at precision 53), exceptions are
    an error type, and the calls to AWS, the clock and the [random] module
    are explicit: AWS answers are fields of a [World], the generator state is
    threaded through a state-and-error monad. *)

From Stdlib Require Import ZArith List String Ascii Bool Lia DecimalString.
From Stdlib Require Import Floats.SpecFloat.
From Stdlib Require DecimalFacts DecimalPos DecimalN.
Import ListNotations.

Local Open Scope string_scope.
Local Open Scope Z_scope.

(** ** Binary64 floating point (Python [float]) *)

Module F64.

Definition prec : Z := 53.
Definition emax : Z := 1024.

Definition add : spec_float -> spec_float -> spec_float := SFadd prec emax.
Definition sub : spec_float -> spec_float -> spec_float := SFsub prec emax.
Definition mul : spec_float -> spec_float -> spec_float := SFmul prec emax.
Definition div : spec_float -> spec_float -> spec_float := SFdiv prec emax.
Definition ltb : spec_float -> spec_float -> bool := SFltb.
Definition leb : spec_float -> spec_float -> bool := SFleb.

(** [m * 2^e] rounded to nearest even; exact when [m] fits in 53 bits. *)
Definition of_scaled (m e : Z) : spec_float := binary_normalize prec emax m e false.

(** Conversion of a Python [int]. *)
Definition of_Z (n : Z) : spec_float := of_scaled n 0.

(** The float a decimal literal [n / 10^d] denotes: the correctly rounded
    quotient of two exactly represented integers. *)
Definition decimal (n : Z) (d : nat) : spec_float :=
  div (of_Z n) (of_Z (10 ^ Z.of_nat d)).

Definition zero : spec_float := S754_zero false.

Definition is_finite (x : spec_float) : bool :=
  match x with S754_zero _ | S754_finite _ _ _ => true | _ => false end.


End F64.

Definition float : Type := spec_float.

(** ** Python values, exceptions and results *)

#[local] Set Warnings "-register-all".

Inductive pyval : Type :=
| PNone
| PBool (b : bool)
| PInt (n : Z)
| PFloat (x : float)
| PStr (s : string)
| PList (l : list pyval)
| PDict (d : list (string * pyval)).

(** The exceptions the program can meet; all of them derive from
    [Exception], so [except Exception] catches every one.  [ClientError]
    is botocore's error for a request the service rejected;
    [BotoCoreError] stands for botocore's other failures (no endpoint, no
    credentials, time-outs), which are not [ClientError]s. *)
Inductive exn : Type :=
| ClientError (code : string)
| BotoCoreError (name : string)
| RuntimeError (msg : string)
| AttributeError
| TypeError
| ValueError
| IndexError
| OverflowError.

Inductive result (A : Type) : Type :=
| Ok (a : A)
| Raise (e : exn).
Arguments Ok {A} a.
Arguments Raise {A} e.

Definition rbind {A B} (r : result A) (k : A -> result B) : result B :=
  match r with
  | Ok a => k a
  | Raise e => Raise e
  end.

Declare Scope res_scope.
Delimit Scope res_scope with res.
Notation "x <- r ;; k" := (rbind r (fun x => k))
  (at level 61, r at next level, right associativity) : res_scope.

Definition is_ClientError (e : exn) : bool :=
  match e with ClientError _ => true | _ => false end.

Definition is_ValueError (e : exn) : bool :=
  match e with ValueError => true | _ => false end.

(** Truth value of an object ([if x], [not x], [x or y]). *)
Definition truthy (v : pyval) : bool :=
  match v with
  | PNone => false
  | PBool b => b
  | PInt n => negb (n =? 0)
  | PFloat x => match x with S754_zero _ => false | _ => true end
  | PStr s => negb (String.eqb s "")
  | PList l => match l with [] => false | _ => true end
  | PDict d => match d with [] => false | _ => true end
  end.

Definition is_None (v : pyval) : bool :=
  match v with PNone => true | _ => false end.

Fixpoint assoc (k : string) (d : list (string * pyval)) : option pyval :=
  match d with
  | [] => None
  | (k', v) :: d' => if String.eqb k k' then Some v else assoc k d'
  end.

(** [o.get(k, default)]: only a dict has [get]. *)
Definition py_get (o : pyval) (k : string) (default : pyval) : result pyval :=
  match o with
  | PDict d => Ok (match assoc k d with Some v => v | None => default end)
  | _ => Raise AttributeError
  end.

Fixpoint chars (s : string) : list pyval :=
  match s with
  | EmptyString => []
  | String c s' => PStr (String c EmptyString) :: chars s'
  end.

(** The items a [for] loop or [list.extend] draws from an object. *)
Definition py_iter (v : pyval) : result (list pyval) :=
  match v with
  | PList l => Ok l
  | PStr s => Ok (chars s)
  | PDict d => Ok (map (fun kv => PStr (fst kv)) d)
  | _ => Raise TypeError
  end.

(** A [for] loop whose body may raise: the loop state is threaded through
    the items in order and the first exception ends the loop. *)
Fixpoint for_each {S : Type} (body : S -> pyval -> result S)
         (items : list pyval) (s : S) : result S :=
  match items with
  | [] => Ok s
  | x :: rest => rbind (body s x) (for_each body rest)
  end.

(** ** The Python runtime the program calls into

    Library functions whose algorithms are not part of the program are
    taken as an interface.  The laws are the library's documented
    contracts: a SHA-256 hex digest is 64 hexadecimal digits, [random()]
    is [k * 2**-53] for a 53-bit integer [k], and [_randbelow(n)] lies in
    [range(n)]. *)

Definition is_hex_digit (c : ascii) : bool :=
  let n := Z.of_nat (nat_of_ascii c) in
  ((48 <=? n) && (n <=? 57)) || ((97 <=? n) && (n <=? 102)).

Fixpoint all_chars (p : ascii -> bool) (s : string) : bool :=
  match s with
  | EmptyString => true
  | String c s' => p c && all_chars p s'
  end.

Class PyBuiltins : Type := {
  (** [float(s)] on a [str]; [None] when it raises [ValueError]. *)
  float_of_str : string -> option float;
  (** [str(x)] on a [float]. *)
  str_of_float : float -> string;
  (** [json.dumps(obj, separators=(",", ":"), ensure_ascii=False)]. *)
  json_dumps : pyval -> result string;
  (** [hashlib.sha256(s.encode("utf-8")).hexdigest()]. *)
  sha256_hexdigest : string -> string;
  sha256_hexdigest_length : forall s, String.length (sha256_hexdigest s) = 64%nat;
  sha256_hexdigest_hex : forall s, all_chars is_hex_digit (sha256_hexdigest s) = true
}.

Class PyRandom : Type := {
  (** State of the module-level generator of [random]. *)
  rng : Type;
  (** [random.seed(a)] with an [int]: the state depends on [a] alone. *)
  rng_seed : Z -> rng;
  (** The 53-bit integer behind one call of [random.random()]. *)
  rng_bits53 : rng -> Z * rng;
  (** [Random._randbelow(n)]. *)
  rng_randbelow : Z -> rng -> Z * rng;
  rng_bits53_range : forall g, 0 <= fst (rng_bits53 g) < 2 ^ 53;
  rng_randbelow_range : forall n g, 0 < n -> 0 <= fst (rng_randbelow n g) < n
}.

(** ** Savings Aggregator (lines 36-58) *)

Section Aggregator.
Context {B : PyBuiltins}.

(** The builtin [float(v)]. *)
Definition py_float (v : pyval) : result float :=
  match v with
  | PFloat x => Ok x
  | PInt n =>
      let x := F64.of_Z n in
      if F64.is_finite x then Ok x else Raise OverflowError
  | PBool b => Ok (F64.of_Z (if b then 1 else 0))
  | PStr s =>
      match float_of_str s with
      | Some x => Ok x
      | None => Raise ValueError
      end
  | PNone | PList _ | PDict _ => Raise TypeError
  end.

(** Lines 43-46 and 54-57:
    [try: total += float(amt) if amt is not None else 0.0]
    [except Exception: pass]. *)
Definition add_amount (total : float) (amt : pyval) : float :=
  match (if is_None amt then Ok F64.zero else py_float amt) with
  | Ok x => F64.add total x
  | Raise _ => total
  end.

(** Lines 40-42: the [Amount] of a cost-explorer record. *)
Definition ce_amount (r : pyval) : result pyval :=
  (m <- py_get r "ModifyRecommendationDetail" PNone ;;
   detail <- (if truthy m then Ok m
              else t <- py_get r "TerminateRecommendationDetail" PNone ;;
                   Ok (if truthy t then t else PDict [])) ;;
   savings <- py_get detail "EstimatedMonthlySavings" (PDict []) ;;
   py_get savings "Amount" PNone)%res.

Definition _sum_ce_savings (recs : list pyval) : result float :=
  for_each (fun total r => (amt <- ce_amount r ;; Ok (add_amount total amt))%res)
           recs F64.zero.

(** Lines 52-53: the [value] of a compute-optimizer record. *)
Definition co_amount (r : pyval) : result pyval :=
  (opp <- py_get r "savingsOpportunity" (PDict []) ;;
   savings <- py_get opp "estimatedMonthlySavings" (PDict []) ;;
   py_get savings "value" PNone)%res.

Definition _sum_co_savings (recs : list pyval) : result float :=
  for_each (fun total r => (amt <- co_amount r ;; Ok (add_amount total amt))%res)
           recs F64.zero.

End Aggregator.

(** ** Strings, lists and dates as the program uses them *)

(** [s.split(sep)] for a one-character separator: every occurrence cuts,
    so the result is never empty. *)
Fixpoint split_on (sep : ascii) (s : string) : list string :=
  match s with
  | EmptyString => [EmptyString]
  | String c s' =>
      if Ascii.eqb c sep then EmptyString :: split_on sep s'
      else match split_on sep s' with
           | [] => [String c EmptyString]
           | p :: ps => String c p :: ps
           end
  end.

(** [a, b = parts]: unpacking anything but two items raises [ValueError]. *)
Definition unpack2 (parts : list string) : result (string * string) :=
  match parts with
  | [a; b] => Ok (a, b)
  | _ => Raise ValueError
  end.

(** [l.index(x)]: position of the first occurrence, [ValueError] if none. *)
Fixpoint list_index (x : string) (l : list string) : result Z :=
  match l with
  | [] => Raise ValueError
  | y :: l' =>
      if String.eqb y x then Ok 0
      else match list_index x l' with
           | Ok i => Ok (i + 1)
           | Raise e => Raise e
           end
  end.

(** [l[i]]: a negative index counts from the end, an index out of range
    raises [IndexError]. *)
Definition list_item {A : Type} (l : list A) (i : Z) : result A :=
  let n := Z.of_nat (List.length l) in
  let j := if i <? 0 then i + n else i in
  if (0 <=? j) && (j <? n) then
    match nth_error l (Z.to_nat j) with
    | Some x => Ok x
    | None => Raise IndexError
    end
  else Raise IndexError.

Fixpoint chars_of (s : string) : list string :=
  match s with
  | EmptyString => []
  | String c s' => String c EmptyString :: chars_of s'
  end.

(** [try: body except E: handler], [E] given by the test [catches]. *)
Definition try_except {A : Type} (body : result A) (catches : exn -> bool)
           (handler : result A) : result A :=
  match body with
  | Ok a => Ok a
  | Raise e => if catches e then handler else Raise e
  end.

(** Decimal digits of a natural number, and the same padded with zeros on
    the left to a width. *)
Definition dec (n : Z) : string :=
  NilZero.string_of_uint (N.to_uint (Z.to_N n)).

Fixpoint zeros (k : nat) : string :=
  match k with
  | O => EmptyString
  | S k' => String "0" (zeros k')
  end.

Definition pad (width : nat) (n : Z) : string :=
  let d := dec n in
  zeros (width - String.length d) ++ d.

(** A reading of [datetime.datetime.utcnow()]. *)
Record datetime : Type := {
  year : Z; month : Z; day : Z;
  hour : Z; minute : Z; second : Z; microsecond : Z
}.

(** [dt.strftime("%Y-%m-%d")]. *)
Definition strftime_Ymd (dt : datetime) : string :=
  pad 4 (year dt) ++ "-" ++ pad 2 (month dt) ++ "-" ++ pad 2 (day dt).

(** [dt.replace(tzinfo=datetime.timezone.utc).isoformat()]: the fraction
    is printed only when it is not zero. *)
Definition isoformat_utc (dt : datetime) : string :=
  strftime_Ymd dt ++ "T" ++ pad 2 (hour dt) ++ ":" ++ pad 2 (minute dt)
    ++ ":" ++ pad 2 (second dt)
    ++ (if microsecond dt =? 0 then "" else "." ++ pad 6 (microsecond dt))
    ++ "+00:00".

(** [_iso_now()] (lines 23-24), on the reading [now] of the clock. *)
Definition _iso_now (now : datetime) : string := isoformat_utc now.

Definition hex_value (c : ascii) : option Z :=
  let n := Z.of_nat (nat_of_ascii c) in
  if (48 <=? n) && (n <=? 57) then Some (n - 48)
  else if (97 <=? n) && (n <=? 102) then Some (n - 87)
  else if (65 <=? n) && (n <=? 70) then Some (n - 55)
  else None.

Fixpoint hex_digits (s : string) (acc : Z) : option Z :=
  match s with
  | EmptyString => Some acc
  | String c s' =>
      match hex_value c with
      | Some d => hex_digits s' (16 * acc + d)
      | None => None
      end
  end.

(** [int(s, 16)] on a string of hexadecimal digits; the empty string and
    any other character raise [ValueError].  (Signs, blanks, underscores
    and a [0x] prefix, which [int] also accepts, do not occur in a hex
    digest.) *)
Definition int_base16 (s : string) : result Z :=
  match s with
  | EmptyString => Raise ValueError
  | _ => match hex_digits s 0 with
         | Some n => Ok n
         | None => Raise ValueError
         end
  end.

(** ** Rounding and printing floats to two decimals *)

(** The integer nearest to [n / d], ties to the even one ([d > 0]). *)
Definition div_half_even (n d : Z) : Z :=
  let q := n / d in
  let r := n mod d in
  match 2 * r ?= d with
  | Lt => q
  | Gt => q + 1
  | Eq => if Z.even q then q else q + 1
  end.

(** The integer nearest to [100 * m * 2^e], ties to even: the hundredths
    the decimal conversion of CPython keeps of a finite float. *)
Definition cents (m : positive) (e : Z) : Z :=
  if 0 <=? e then 100 * Zpos m * 2 ^ e
  else div_half_even (100 * Zpos m) (2 ^ (- e)).

(** The float nearest to [c / 100], with sign [s]. *)
Definition of_cents (s : bool) (c : Z) : float :=
  match c with
  | Zpos p => F64.div (S754_finite s p 0) (F64.of_Z 100)
  | _ => S754_zero s
  end.

(** [round(x, 2)]: the float is rounded correctly to a decimal with two
    places and the decimal is converted back, correctly rounded.  NaN,
    infinities and zeros round to themselves, and so does every float
    with a non-negative exponent, being an integer. *)
Definition round2 (x : float) : float :=
  match x with
  | S754_finite s m e => if 0 <=? e then x else of_cents s (cents m e)
  | _ => x
  end.

(** [f"{x:.2f}"]. *)
Definition format_2f (x : float) : string :=
  match x with
  | S754_nan => "nan"
  | S754_infinity s => if s then "-inf" else "inf"
  | S754_zero s => if s then "-0.00" else "0.00"
  | S754_finite s m e =>
      let c := cents m e in
      (if s then "-" else "") ++ dec (c / 100) ++ "." ++ pad 2 (c mod 100)
  end.

(** [math.floor(x)]; NaN raises [ValueError], an infinity [OverflowError]. *)
Definition py_floor (x : float) : result Z :=
  match x with
  | S754_nan => Raise ValueError
  | S754_infinity _ => Raise OverflowError
  | S754_zero _ => Ok 0
  | S754_finite s m e =>
      let v := if s then Zneg m else Zpos m in
      Ok (if 0 <=? e then v * 2 ^ e else v / 2 ^ (- e))
  end.

(** ** Configuration (lines 7-14) *)

Definition BUCKET : string := "mario-cloud-portfolio".
Definition PREFIX : string := "projects/ec2-rightsizing".
Definition CF_DIST_ID : string := "EUJMCTXUE2NVA".
Definition RECOMMENDATION_TARGET : string := "CROSS_INSTANCE_FAMILY".
Definition BENEFITS_CONSIDERED : bool := true.
Definition MIN_SAVINGS : float := F64.decimal 1 2.

(** ** The [random] module over the generator state *)

Section Random.
Context {R : PyRandom}.

(** Computations that draw from the generator and may raise. *)
Definition Rand (A : Type) : Type := rng -> result (A * rng).

Definition ret {A} (a : A) : Rand A := fun g => Ok (a, g).

Definition bind {A C} (m : Rand A) (k : A -> Rand C) : Rand C :=
  fun g => match m g with
           | Ok (a, g') => k a g'
           | Raise e => Raise e
           end.

Definition raise {A} (e : exn) : Rand A := fun _ => Raise e.

Definition lift {A} (r : result A) : Rand A :=
  fun g => match r with
           | Ok a => Ok (a, g)
           | Raise e => Raise e
           end.

(** [random.random()]: [k * 2**-53], exactly representable. *)
Definition random : Rand float :=
  fun g => let (k, g') := rng_bits53 g in Ok (F64.of_scaled k (-53), g').

Definition randbelow (n : Z) : Rand Z :=
  fun g => let (i, g') := rng_randbelow n g in Ok (i, g').

(** [random.randint(a, b)] is [randrange(a, b + 1)]. *)
Definition randint (a b : Z) : Rand Z :=
  let width := b + 1 - a in
  if 0 <? width then bind (randbelow width) (fun i => ret (a + i))
  else raise ValueError.

(** [random.choice(seq)]: [seq[_randbelow(len(seq))]]. *)
Definition choice {A} (seq : list A) : Rand A :=
  match seq with
  | [] => raise IndexError
  | _ => bind (randbelow (Z.of_nat (List.length seq)))
              (fun i => lift (list_item seq i))
  end.

(** [random.uniform(a, b)]: [a + (b - a) * random()]. *)
Definition uniform (a b : float) : Rand float :=
  bind random (fun r => ret (F64.add a (F64.mul (F64.sub b a) r))).

(** [random.choices(population, k=k)] without weights:
    [[population[floor(random() * n)] for i in range(k)]]. *)
Fixpoint choices (population : list string) (k : nat) : Rand (list string) :=
  match k with
  | O => ret []
  | S k' =>
      bind random (fun r =>
      bind (lift (py_floor (F64.mul r (F64.of_Z (Z.of_nat (List.length population))))))
           (fun i =>
      bind (lift (list_item population i)) (fun c =>
      bind (choices population k') (fun rest => ret (c :: rest)))))
  end.

End Random.

Declare Scope rand_scope.
Delimit Scope rand_scope with rand.
Notation "x <~ m ;; k" := (bind m (fun x => k))
  (at level 61, m at next level, right associativity) : rand_scope.
Notation "' p <~ m ;; k" := (bind m (fun x => match x with p => k end))
  (at level 61, p pattern, m at next level, right associativity) : rand_scope.

(** ** Synthetic generator (lines 117-206) *)

Definition FAMILIES : list (string * list string) :=
  [ ("t3", ["micro"; "small"; "medium"; "large"; "xlarge"; "2xlarge"]);
    ("t4g", ["small"; "medium"; "large"; "xlarge"; "2xlarge"]);
    ("m6i", ["large"; "xlarge"; "2xlarge"]);
    ("m7i", ["large"; "xlarge"; "2xlarge"]);
    ("c7g", ["large"; "xlarge"; "2xlarge"]);
    ("r6i", ["large"; "xlarge"; "2xlarge"]) ].

(** The size ladder of [_smaller_type]. *)
Definition order : list string :=
  ["micro"; "small"; "medium"; "large"; "xlarge"; "2xlarge"; "4xlarge"; "8xlarge"].

Section Generator.
Context {B : PyBuiltins} {R : PyRandom}.

(** [now] is the reading of [utcnow()] the call makes. *)
Definition _daily_seed (now : datetime) : result Z :=
  let today := strftime_Ymd now in
  let h := sha256_hexdigest today in
  int_base16 (substring 0 16 h).

Definition _pick_instance_type : Rand string :=
  ('(fam, sizes) <~ choice FAMILIES ;;
   size <~ choice sizes ;;
   ret (fam ++ "." ++ size))%rand.

(** Lines 140-141, the body of the [try]. *)
Definition ladder_step (size : string) : result string :=
  (idx0 <- list_index size order ;;
   let idx := Z.max idx0 1 in
   list_item order (idx - 1))%res.

Definition _smaller_type (of_type : string) : Rand string :=
  ('(fam, size) <~ lift (unpack2 (split_on "." of_type)) ;;
   new_size <~ lift (try_except (ladder_step size) is_ValueError (Ok "small")) ;;
   fam <~ (if String.prefix "m6i" fam
           then r <~ random ;; ret (if F64.ltb r (F64.of_scaled 1 (-1)) then "m7g" else fam)
           else ret fam) ;;
   fam <~ (if String.prefix "t3" fam
           then r <~ random ;; ret (if F64.ltb r (F64.of_scaled 1 (-1)) then "t4g" else fam)
           else ret fam) ;;
   ret (fam ++ "." ++ new_size))%rand.

Definition _rand_instance_id : Rand string :=
  (cs <~ choices (chars_of "0123456789abcdef") 17 ;;
   ret ("i-" ++ String.concat "" cs))%rand.

Definition money (s : float) : pyval :=
  PDict [("Amount", PStr (format_2f s)); ("Unit", PStr "USD")].

Definition instance_details (t : string) : pyval :=
  PDict [("EC2ResourceDetails", PDict [("InstanceType", PStr t)])].

(** One turn of the loop at lines 159-199 over [(recs, total)]. *)
Definition synthetic_rec (st : list pyval * float) : Rand (list pyval * float) :=
  let '(recs, total) := st in
  (current_type <~ _pick_instance_type ;;
   target_type <~ _smaller_type current_type ;;
   r <~ random ;;
   let rightsizing_type :=
     if F64.ltb (F64.of_scaled 1 (-2)) r then "Modify" else "Terminate" in
   u <~ uniform (F64.of_Z 3) (F64.of_Z 120) ;;
   let monthly_savings := round2 u in
   let total := F64.add total monthly_savings in
   if String.eqb rightsizing_type "Modify" then
     id <~ _rand_instance_id ;;
     k <~ randint 10 99 ;;
     ret ((recs ++ [PDict [
         ("AccountId", PStr "913979368763");
         ("CurrentInstance", PDict [
            ("ResourceId", PStr id);
            ("InstanceName", PStr ("app-" ++ dec k));
            ("ResourceDetails", instance_details current_type)]);
         ("RightsizingType", PStr "Modify");
         ("ModifyRecommendationDetail", PDict [
            ("TargetInstances", PList [PDict [
               ("EstimatedMonthlySavings", money monthly_savings);
               ("ResourceDetails", instance_details target_type);
               ("ExpectedCost", PDict [("Amount", PStr "—"); ("Unit", PStr "USD")])]]);
            ("EstimatedMonthlySavings", money monthly_savings)])]])%list,
          total)
   else
     id <~ _rand_instance_id ;;
     k <~ randint 10 99 ;;
     ret ((recs ++ [PDict [
         ("AccountId", PStr "913979368763");
         ("CurrentInstance", PDict [
            ("ResourceId", PStr id);
            ("InstanceName", PStr ("batch-" ++ dec k));
            ("ResourceDetails", instance_details current_type)]);
         ("RightsizingType", PStr "Terminate");
         ("TerminateRecommendationDetail", PDict [
            ("EstimatedMonthlySavings", money monthly_savings)])]])%list,
          total))%rand.

(** [for _ in range(n)]. *)
Fixpoint repeat_rec (n : nat) (st : list pyval * float) : Rand (list pyval * float) :=
  match n with
  | O => ret st
  | S n' => (st' <~ synthetic_rec st ;; repeat_rec n' st')%rand
  end.

Definition _gen_synthetic_recs (now : datetime) : Rand (pyval * list pyval) :=
  fun _ =>
    match _daily_seed now with
    | Raise e => Raise e
    | Ok seed =>
        (n <~ randint 2 5 ;;
         '(recs, total) <~ repeat_rec (Z.to_nat n) ([], F64.zero) ;;
         p <~ uniform (F64.of_Z 5) (F64.of_Z 55) ;;
         let summary := PDict [
           ("TotalEstimatedMonthlySavingsAmount", PStr (format_2f total));
           ("TotalEstimatedMonthlySavingsCurrency", PStr "USD");
           ("EstimatedSavingsPercentage", PStr (str_of_float (round2 p)))] in
         ret (summary, recs))%rand (rng_seed seed)
    end.

End Generator.

(** ** The world outside the function

    What AWS, the clock and [uuid] answer during one invocation.  A
    request is answered by [Ok response] or by [Raise e]; a response is the
    dict boto3 hands back. *)

Record World : Type := {
  (** [ce.get_rightsizing_recommendation] on the keyword arguments [args]. *)
  ce_get_rightsizing_recommendation : pyval -> result pyval;
  (** [co.get_ec2_instance_recommendations] on the keyword arguments [args]. *)
  co_get_ec2_instance_recommendations : pyval -> result pyval;
  (** [co.get_enrollment_status()]. *)
  co_get_enrollment_status : result pyval;
  (** [ec2.describe_instances(Filters=[...])]. *)
  ec2_describe_instances : result pyval;
  (** [s3.put_object(Key=key, Body=body, ...)]: the exception raised, if any. *)
  s3_put_object : string -> string -> option exn;
  (** [cf.create_invalidation(...)] for a path and a caller reference. *)
  cf_create_invalidation : string -> string -> option exn;
  (** The readings of [utcnow()] in [_daily_seed], in [_iso_now] and for
      the keys. *)
  now_seed : datetime;
  now_generated_at : datetime;
  now_keys : datetime;
  (** [str(uuid.uuid4())]. *)
  uuid4 : string
}.

(** The calls that write, uploads and invalidations, that went through,
    in order; the requests that only read (recommendations, enrollment
    status, instances) are not recorded.  An upload names its key and its
    body; bucket, content type and cache control are the same constants in
    every upload. *)
Inductive event : Type :=
| S3Put (key body : string)
| CFInvalidate (path caller_reference : string).

(** ** Source fetchers and liveness probe (lines 61-114)

    The pagination loops are [while True] loops that end when a response
    carries no continuation token; [fuel] bounds the number of requests
    and [None] means it ran out. *)

Section Fetchers.
Variable w : World.

Definition ce_args (next_token : pyval) : pyval :=
  PDict ([("Service", PStr "AmazonEC2");
          ("Configuration", PDict [
             ("RecommendationTarget", PStr RECOMMENDATION_TARGET);
             ("BenefitsConsidered", PBool BENEFITS_CONSIDERED)]);
          ("PageSize", PInt 20)]
         ++ (if truthy next_token then [("NextPageToken", next_token)] else []))%list.

Fixpoint ce_pages (fuel : nat) (next_token : pyval) (recs : list pyval)
         (summary : pyval) : option (result (pyval * list pyval)) :=
  match fuel with
  | O => None
  | S fuel' =>
      match (resp <- ce_get_rightsizing_recommendation w (ce_args next_token) ;;
             page <- py_get resp "RightsizingRecommendations" (PList []) ;;
             items <- py_iter page ;;
             summary' <- py_get resp "Summary" summary ;;
             next_token' <- py_get resp "NextPageToken" PNone ;;
             Ok (items, summary', next_token'))%res with
      | Raise e => Some (Raise e)
      | Ok (items, summary', next_token') =>
          if negb (truthy next_token') then Some (Ok (summary', recs ++ items)%list)
          else ce_pages fuel' next_token' (recs ++ items)%list summary'
      end
  end.

Definition _fetch_ce_rightsizing (fuel : nat) : option (result (pyval * list pyval)) :=
  ce_pages fuel PNone [] (PDict []).

Definition co_args (next_token : pyval) : pyval :=
  PDict ([("maxResults", PInt 100)]
         ++ (if truthy next_token then [("nextToken", next_token)] else []))%list.

Fixpoint co_pages (fuel : nat) (next_token : pyval) (recs : list pyval)
  : option (result (list pyval)) :=
  match fuel with
  | O => None
  | S fuel' =>
      match (resp <- co_get_ec2_instance_recommendations w (co_args next_token) ;;
             page <- py_get resp "instanceRecommendations" (PList []) ;;
             items <- py_iter page ;;
             next_token' <- py_get resp "nextToken" PNone ;;
             Ok (items, next_token'))%res with
      | Raise e => Some (Raise e)
      | Ok (items, next_token') =>
          if negb (truthy next_token') then Some (Ok (recs ++ items)%list)
          else co_pages fuel' next_token' (recs ++ items)%list
      end
  end.

(** Lines 96-102: the status call and its [except ClientError]. *)
Definition co_status : result pyval :=
  try_except
    (resp <- co_get_enrollment_status w ;; py_get resp "status" (PStr "Unknown"))%res
    is_ClientError
    (Ok (PStr "Unknown")).

Definition _fetch_co_rightsizing (fuel : nat) : option (result (pyval * list pyval)) :=
  match co_pages fuel PNone [] with
  | None => None
  | Some (Raise e) => Some (Raise e)
  | Some (Ok recs) =>
      Some (status <- co_status ;;
            Ok (PDict [("compute_optimizer_enrollment_status", status)], recs))%res
  end.

(** The loop of lines 109-111: [True] at the first reservation whose
    [Instances] is truthy. *)
Fixpoint any_instances (reservations : list pyval) : result bool :=
  match reservations with
  | [] => Ok false
  | res :: rest =>
      (i <- py_get res "Instances" PNone ;;
       if truthy i then Ok true else any_instances rest)%res
  end.

Definition _any_running_instances : result bool :=
  try_except
    (resp <- ec2_describe_instances w ;;
     rs <- py_get resp "Reservations" (PList []) ;;
     items <- py_iter rs ;;
     any_instances items)%res
    is_ClientError
    (Ok false).

End Fetchers.

(** ** Fallback orchestrator and report (lines 209-262) *)

Section Handler.
Context {B : PyBuiltins} {R : PyRandom}.
Variable w : World.

(** A fetch followed by the savings gate: the body of a [try] of lines
    215-219 or 222-226, with the values it leaves in [summary, recs]. *)
Definition gated (fetched : result (pyval * list pyval))
           (aggregate : list pyval -> result float) (msg : string)
  : result (pyval * list pyval) :=
  (sr <- fetched ;;
   total <- aggregate (snd sr) ;;
   if F64.ltb total MIN_SAVINGS then Raise (RuntimeError msg) else Ok sr)%res.

(** Lines 228-235: both branches of the test on the probe synthesize. *)
Definition synthesize (g : rng) : result (string * pyval * list pyval) :=
  (running <- _any_running_instances w ;;
   if negb running then
     match _gen_synthetic_recs (now_seed w) g with
     | Ok (summary, recs, _) => Ok ("synthetic", summary, recs)
     | Raise e => Raise e
     end
   else
     match _gen_synthetic_recs (now_seed w) g with
     | Ok (summary, recs, _) => Ok ("synthetic", summary, recs)
     | Raise e => Raise e
     end)%res.

(** Lines 214-235: the chosen [(source, summary, recs)]. *)
Definition choose_source (fuel : nat) (g : rng)
  : option (result (string * pyval * list pyval)) :=
  match _fetch_ce_rightsizing w fuel with
  | None => None
  | Some ce =>
      match gated ce _sum_ce_savings "CE savings below threshold" with
      | Ok (summary, recs) => Some (Ok ("cost-explorer", summary, recs))
      | Raise _ =>
          match _fetch_co_rightsizing w fuel with
          | None => None
          | Some co =>
              match gated co _sum_co_savings "CO savings below threshold" with
              | Ok (summary, recs) => Some (Ok ("compute-optimizer", summary, recs))
              | Raise _ => Some (synthesize g)
              end
          end
      end
  end.

(** Lines 237-245. *)
Definition make_payload (source : string) (summary : pyval) (recs : list pyval) : pyval :=
  PDict [
    ("generated_at", PStr (_iso_now (now_generated_at w)));
    ("source", PStr source);
    ("recommendation_target",
       if String.eqb source "cost-explorer" then PStr RECOMMENDATION_TARGET else PNone);
    ("benefits_considered",
       if String.eqb source "cost-explorer" then PBool BENEFITS_CONSIDERED else PNone);
    ("summary", summary);
    ("count", PInt (Z.of_nat (List.length recs)));
    ("recommendations", PList recs)].

(** The report envelope of the invocation. *)
Definition payload_of (fuel : nat) (g : rng) : option (result pyval) :=
  match choose_source fuel g with
  | None => None
  | Some (Raise e) => Some (Raise e)
  | Some (Ok (source, summary, recs)) => Some (Ok (make_payload source summary recs))
  end.

(** [_put_json(obj, key)] (lines 26-34), after the calls in [log]. *)
Definition _put_json (obj : pyval) (key : string) (log : list event)
  : list event * result unit :=
  match json_dumps obj with
  | Raise e => (log, Raise e)
  | Ok body =>
      match s3_put_object w key body with
      | Some e => (log, Raise e)
      | None => ((log ++ [S3Put key body])%list, Ok tt)
      end
  end.

(** Lines 247-249. *)
Definition dated_key : string :=
  let today := strftime_Ymd (now_keys w) in
  PREFIX ++ "/" ++ today ++ ".json".

Definition latest_key : string := PREFIX ++ "/latest.json".

(** Lines 251-262: both uploads, the invalidation and the return value. *)
Definition publish (source : string) (payload : pyval) (items : nat)
  : list event * result pyval :=
  match _put_json payload dated_key [] with
  | (log, Raise e) => (log, Raise e)
  | (log, Ok _) =>
      match _put_json payload latest_key log with
      | (log, Raise e) => (log, Raise e)
      | (log, Ok _) =>
          let path := "/" ++ latest_key in
          let ref := "rightsizing-" ++ uuid4 w in
          match cf_create_invalidation w path ref with
          | Some e => (log, Raise e)
          | None =>
              ((log ++ [CFInvalidate path ref])%list,
               Ok (PDict [("status", PStr "ok");
                          ("source", PStr source);
                          ("dated_key", PStr dated_key);
                          ("latest_key", PStr latest_key);
                          ("items", PInt (Z.of_nat items))]))
          end
      end
  end.

Definition lambda_handler (fuel : nat) (g : rng)
  : option (list event * result pyval) :=
  match choose_source fuel g with
  | None => None
  | Some (Raise e) => Some ([], Raise e)
  | Some (Ok (source, summary, recs)) =>
      Some (publish source (make_payload source summary recs) (List.length recs))
  end.

End Handler.


(** ** A small runtime to evaluate the model on

    A linear congruential generator for [random], and plain text functions
    for the builtins: decimal literals for [float], two decimals without
    trailing zero for [str], compact JSON for [json.dumps] and a
    polynomial checksum printed as 64 hexadecimal digits for the digest.
    They implement the interfaces; they are not the algorithms of CPython. *)

Definition quote : string := String (ascii_of_nat 34) EmptyString.

Definition lcg_next (g : Z) : Z :=
  (6364136223846793005 * g + 1442695040888963407) mod 2 ^ 64.

Definition lcg_bits53 (g : Z) : Z * Z := ((lcg_next g / 2 ^ 11) mod 2 ^ 53, lcg_next g).

Definition lcg_randbelow (n g : Z) : Z * Z := ((lcg_next g / 2 ^ 16) mod n, lcg_next g).

Definition digit_value (c : ascii) : option Z :=
  let n := Z.of_nat (nat_of_ascii c) in
  if (48 <=? n) && (n <=? 57) then Some (n - 48) else None.

(** Reads [digits] or [digits.digits] as [(n, d)], meaning [n / 10^d]. *)
Fixpoint read_decimal (s : string) (seen_point : bool) (n : Z) (d : nat)
  : option (Z * nat) :=
  match s with
  | EmptyString => Some (n, d)
  | String c s' =>
      if Ascii.eqb c "." then
        if seen_point then None else read_decimal s' true n d
      else match digit_value c with
           | Some v => read_decimal s' seen_point (10 * n + v)
                                    (if seen_point then S d else d)
           | None => None
           end
  end.

Definition simple_float_of_str (s : string) : option float :=
  match s with
  | EmptyString => None
  | String c s' =>
      if Ascii.eqb c "-" then
        match s' with
        | EmptyString => None
        | _ => match read_decimal s' false 0 0 with
               | Some (n, d) => Some (SFopp (F64.decimal n d))
               | None => None
               end
        end
      else match read_decimal s false 0 0 with
           | Some (n, d) => Some (F64.decimal n d)
           | None => None
           end
  end.

Definition simple_str_of_float (x : float) : string :=
  match x with
  | S754_finite s m e =>
      let c := cents m e in
      (if s then "-" else "") ++ dec (c / 100) ++ "."
        ++ (if c mod 10 =? 0 then dec ((c mod 100) / 10) else pad 2 (c mod 100))
  | _ => format_2f x
  end.

Fixpoint simple_json (v : pyval) : string :=
  match v with
  | PNone => "null"
  | PBool b => if b then "true" else "false"
  | PInt n => if n <? 0 then "-" ++ dec (- n) else dec n
  | PFloat x => simple_str_of_float x
  | PStr s => quote ++ s ++ quote
  | PList l =>
      "[" ++ String.concat "," (map simple_json l) ++ "]"
  | PDict d =>
      "{" ++ String.concat ","
               (map (fun kv => quote ++ fst kv ++ quote ++ ":" ++ simple_json (snd kv)) d)
          ++ "}"
  end.

Definition hex_char (n : Z) : ascii :=
  ascii_of_nat (Z.to_nat (if n mod 16 <? 10 then 48 + n mod 16 else 87 + n mod 16)).

Fixpoint hex_string (k : nat) (n : Z) : string :=
  match k with
  | O => EmptyString
  | S k' => String (hex_char (n / 16 ^ Z.of_nat k')) (hex_string k' n)
  end.

Fixpoint checksum (s : string) (acc : Z) : Z :=
  match s with
  | EmptyString => acc
  | String c s' =>
      checksum s' ((acc * 1099511628211 + Z.of_nat (nat_of_ascii c) + 1) mod 2 ^ 256)
  end.

Definition simple_digest (s : string) : string :=
  hex_string 64 (checksum s 14695981039346656037).

Definition simple_builtins : PyBuiltins.
Proof.
  refine {| float_of_str := simple_float_of_str;
            str_of_float := simple_str_of_float;
            json_dumps := fun v => Ok (simple_json v);
            sha256_hexdigest := simple_digest |}.
  - intros s. unfold simple_digest. generalize (checksum s 14695981039346656037).
    generalize 64%nat. intros k n. induction k; simpl; congruence.
  - intros s. unfold simple_digest. generalize (checksum s 14695981039346656037).
    generalize 64%nat. intros k n. induction k as [|k IH]; simpl; [reflexivity|].
    rewrite IH, andb_true_r. unfold is_hex_digit, hex_char.
    pose proof (Z.mod_pos_bound (n / 16 ^ Z.of_nat k) 16 ltac:(lia)) as Hr.
    destruct (_ mod 16 <? 10) eqn:Hlt;
      [apply Z.ltb_lt in Hlt|apply Z.ltb_ge in Hlt];
      rewrite nat_ascii_embedding by lia; rewrite Z2Nat.id by lia;
      apply orb_true_iff; [left|right];
      apply andb_true_iff; split; apply Z.leb_le; lia.
Defined.

Definition lcg_random : PyRandom.
Proof.
  refine {| rng := Z;
            rng_seed := fun a => a;
            rng_bits53 := lcg_bits53;
            rng_randbelow := lcg_randbelow |}.
  - intros g. unfold lcg_bits53; simpl fst. apply Z.mod_pos_bound. lia.
  - intros n g Hn. unfold lcg_randbelow; simpl fst. now apply Z.mod_pos_bound.
Defined.

(** ** Worlds to evaluate the handler on *)

Definition with_ce (w : World) (f : pyval -> result pyval) : World :=
  {| ce_get_rightsizing_recommendation := f;
     co_get_ec2_instance_recommendations := co_get_ec2_instance_recommendations w;
     co_get_enrollment_status := co_get_enrollment_status w;
     ec2_describe_instances := ec2_describe_instances w;
     s3_put_object := s3_put_object w;
     cf_create_invalidation := cf_create_invalidation w;
     now_seed := now_seed w;
     now_generated_at := now_generated_at w;
     now_keys := now_keys w;
     uuid4 := uuid4 w |}.

Definition with_enrollment (w : World) (r : result pyval) : World :=
  {| ce_get_rightsizing_recommendation := ce_get_rightsizing_recommendation w;
     co_get_ec2_instance_recommendations := co_get_ec2_instance_recommendations w;
     co_get_enrollment_status := r;
     ec2_describe_instances := ec2_describe_instances w;
     s3_put_object := s3_put_object w;
     cf_create_invalidation := cf_create_invalidation w;
     now_seed := now_seed w;
     now_generated_at := now_generated_at w;
     now_keys := now_keys w;
     uuid4 := uuid4 w |}.

Definition with_ec2 (w : World) (r : result pyval) : World :=
  {| ce_get_rightsizing_recommendation := ce_get_rightsizing_recommendation w;
     co_get_ec2_instance_recommendations := co_get_ec2_instance_recommendations w;
     co_get_enrollment_status := co_get_enrollment_status w;
     ec2_describe_instances := r;
     s3_put_object := s3_put_object w;
     cf_create_invalidation := cf_create_invalidation w;
     now_seed := now_seed w;
     now_generated_at := now_generated_at w;
     now_keys := now_keys w;
     uuid4 := uuid4 w |}.

Definition noon : datetime :=
  {| year := 2024; month := 3; day := 7;
     hour := 12; minute := 0; second := 0; microsecond := 0 |}.

(** An account with nothing to report: no recommendation from either
    provider, no running instance, storage and CDN accept every call. *)
Definition quiet_world : World :=
  {| ce_get_rightsizing_recommendation :=
       fun _ => Ok (PDict [("RightsizingRecommendations", PList [])]);
     co_get_ec2_instance_recommendations :=
       fun _ => Ok (PDict [("instanceRecommendations", PList [])]);
     co_get_enrollment_status := Ok (PDict [("status", PStr "Active")]);
     ec2_describe_instances := Ok (PDict [("Reservations", PList [])]);
     s3_put_object := fun _ _ => None;
     cf_create_invalidation := fun _ _ => None;
     now_seed := noon;
     now_generated_at := noon;
     now_keys := noon;
     uuid4 := "3f2b8c1e-5d47-4a90-9c3e-7b1a2d4f6e80" |}.

(** A cost-explorer record with one detail block, and a compute-optimizer
    record, around a savings amount. *)
Definition ce_record (kind : string) (amount : pyval) : pyval :=
  PDict [(kind, PDict [("EstimatedMonthlySavings",
                        PDict [("Amount", amount); ("Unit", PStr "USD")])])].


(** Cost Explorer reports one recommendation worth exactly the threshold. *)
Definition boundary_world : World :=
  with_ce quiet_world
    (fun _ => Ok (PDict [("RightsizingRecommendations",
                          PList [ce_record "ModifyRecommendationDetail" (PStr "0.01")]);
                         ("Summary", PDict [("TotalRecommendationCount", PStr "1")])])).

Definition busy_reservations : pyval :=
  PDict [("Reservations",
          PList [PDict [("Instances", PList [PDict [("InstanceId", PStr "i-0abc")]])]])].

(** The same world with other answers from Compute Optimizer's
    recommendations, or from CloudFront. *)
Definition with_co (w : World) (f : pyval -> result pyval) : World :=
  {| ce_get_rightsizing_recommendation := ce_get_rightsizing_recommendation w;
     co_get_ec2_instance_recommendations := f;
     co_get_enrollment_status := co_get_enrollment_status w;
     ec2_describe_instances := ec2_describe_instances w;
     s3_put_object := s3_put_object w;
     cf_create_invalidation := cf_create_invalidation w;
     now_seed := now_seed w;
     now_generated_at := now_generated_at w;
     now_keys := now_keys w;
     uuid4 := uuid4 w |}.

Definition with_s3 (w : World) (put : string -> string -> option exn) : World :=
  {| ce_get_rightsizing_recommendation := ce_get_rightsizing_recommendation w;
     co_get_ec2_instance_recommendations := co_get_ec2_instance_recommendations w;
     co_get_enrollment_status := co_get_enrollment_status w;
     ec2_describe_instances := ec2_describe_instances w;
     s3_put_object := put;
     cf_create_invalidation := cf_create_invalidation w;
     now_seed := now_seed w;
     now_generated_at := now_generated_at w;
     now_keys := now_keys w;
     uuid4 := uuid4 w |}.

(** The quiet account with a storage that refuses to overwrite the latest
    object and accepts every other upload. *)
Definition latest_refused : World :=
  with_s3 quiet_world
    (fun key _ => if String.eqb key latest_key
                  then Some (ClientError "AccessDenied") else None).

Definition with_cdn (w : World) (cf : string -> string -> option exn) : World :=
  {| ce_get_rightsizing_recommendation := ce_get_rightsizing_recommendation w;
     co_get_ec2_instance_recommendations := co_get_ec2_instance_recommendations w;
     co_get_enrollment_status := co_get_enrollment_status w;
     ec2_describe_instances := ec2_describe_instances w;
     s3_put_object := s3_put_object w;
     cf_create_invalidation := cf;
     now_seed := now_seed w;
     now_generated_at := now_generated_at w;
     now_keys := now_keys w;
     uuid4 := uuid4 w |}.

(** Cost Explorer reports a NaN amount beside an ordinary one. *)
Definition nan_world : World :=
  with_ce quiet_world
    (fun _ => Ok (PDict [("RightsizingRecommendations",
                          PList [ce_record "ModifyRecommendationDetail" (PFloat S754_nan);
                                 ce_record "TerminateRecommendationDetail" (PStr "7.25")])])).

(** Cost Explorer answers in two pages, the second under the token [p2]. *)
Definition first_page : pyval :=
  PDict [("RightsizingRecommendations",
          PList [ce_record "ModifyRecommendationDetail" (PStr "12.50")]);
         ("Summary", PDict [("TotalRecommendationCount", PStr "1")]);
         ("NextPageToken", PStr "p2")].

Definition second_page : pyval :=
  PDict [("RightsizingRecommendations",
          PList [ce_record "TerminateRecommendationDetail" (PStr "7.25")])].

Definition two_pages (args : pyval) : result pyval :=
  match py_get args "NextPageToken" PNone with
  | Ok PNone => Ok first_page
  | Ok (PStr "p2") => Ok second_page
  | _ => Raise (ClientError "ValidationException")
  end.

(** A service that answers every request with one more token. *)
Definition endless (key : string) (args : pyval) : result pyval :=
  Ok (PDict [(key, PStr "more")]).

(** ** Vocabulary of the properties *)

Definition is_Ok {A : Type} (r : result A) : bool :=
  match r with Ok _ => true | Raise _ => false end.

Definition no_dot (s : string) : bool :=
  all_chars (fun c => negb (Ascii.eqb c ".")) s.

(** Position on the size ladder of the size of an instance type. *)
Definition size_rank (t : string) : result Z :=
  (fs <- unpack2 (split_on "." t) ;; list_index (snd fs) order)%res.

(** What the catalog promises of one of its (family, size) pairs. *)
Definition catalog_entry_ok (fam size : string) : bool :=
  no_dot fam && no_dot size && is_Ok (list_index size order) && is_Ok (ladder_step size).



(** What [k] right shifts keep of [M]: the quotient, and flags that are
    set only when bits were lost. *)
Definition shr_inv (M k : Z) (mrs : shr_record) : Prop :=
  shr_m mrs = M / 2 ^ k
  /\ (orb (shr_r mrs) (shr_s mrs) = true -> M mod 2 ^ k <> 0).

(** A positive float with negative exponent whose value lies between two
    integers. *)
Definition between (lo hi : Z) (x : float) : Prop :=
  exists m e, x = S754_finite false m e /\ e < 0
              /\ lo * 2 ^ (- e) <= Zpos m <= hi * 2 ^ (- e).

(** The numeral with two decimals of a whole number of cents. *)
Definition cents_numeral (c : Z) : string :=
  dec (c / 100) ++ "." ++ pad 2 (c mod 100).

(** The float nearest to [c / 100] keeps [c] as its hundredths, compares
    within [3.0, 120.0] and prints with two decimals as [c / 100]. *)
Definition cents_checked (c : Z) : bool :=
  let s := of_cents false c in
  match s with
  | S754_finite false m e => (e <? 0) && (cents m e =? c)
  | _ => false
  end
  && F64.leb (F64.of_Z 3) s && F64.leb s (F64.of_Z 120)
  && String.eqb (format_2f s) (cents_numeral c).

Fixpoint all_from (f : Z -> bool) (lo : Z) (n : nat) : bool :=
  match n with
  | O => true
  | S n' => f lo && all_from f (lo + 1) n'
  end.

(** A record whose monthly savings are the float [s]: [s] is [round(u, 2)]
    of a float [u] between 3.0 and 120.0, it is the float nearest to
    [c / 100] for a whole number of cents [c] between 3.00 and 120.00,
    rounding it to two decimals again leaves it as it is, and the record,
    as the aggregator reads it, prints it with exactly two decimals. *)
Definition rounded_amount (r : pyval) (s : float) : Prop :=
  exists (u : float) (c : Z),
    between 3 120 u /\ s = round2 u
    /\ 300 <= c <= 12000 /\ s = of_cents false c
    /\ round2 s = s
    /\ F64.leb (F64.of_Z 3) s = true /\ F64.leb s (F64.of_Z 120) = true
    /\ ce_amount r = Ok (PStr (format_2f s))
    /\ format_2f s = cents_numeral c.

(** Total correctness of a drawing computation: from every generator
    state it returns, with a result satisfying [P]. *)
Definition succeeds {R : PyRandom} {A : Type} (m : Rand A) (P : A -> Prop) : Prop :=
  forall g, exists a g', m g = Ok (a, g') /\ P a.

(** A fetch attempt fails: the fetch raises, or the aggregator raises on
    what it returned, or the aggregate is below the threshold. *)
Definition attempt_fails (fetched : result (pyval * list pyval))
           (aggregate : list pyval -> result float) : Prop :=
  (exists e, fetched = Raise e)
  \/ (exists summary recs e,
        fetched = Ok (summary, recs) /\ aggregate recs = Raise e)
  \/ (exists summary recs total,
        fetched = Ok (summary, recs)
        /\ aggregate recs = Ok total
        /\ F64.ltb total MIN_SAVINGS = true).

(** Number of occurrences of a character in a string. *)
Fixpoint occurrences (c : ascii) (s : string) : nat :=
  match s with
  | EmptyString => O
  | String a s' => ((if Ascii.eqb a c then 1 else 0) + occurrences c s')%nat
  end.

Definition is_dict (v : pyval) : bool :=
  match v with PDict _ => true | _ => false end.

(** A reservation that lists at least one instance. *)
Definition has_instances (res : pyval) : bool :=
  match py_get res "Instances" PNone with
  | Ok i => truthy i
  | Raise _ => false
  end.


(** A fetch attempt passes its gate: the fetch and the aggregator return
    and the total is not below the threshold. *)
Definition sufficient (fetched : result (pyval * list pyval))
           (aggregate : list pyval -> result float) : bool :=
  match fetched with
  | Ok (_, recs) =>
      match aggregate recs with
      | Ok total => negb (F64.ltb total MIN_SAVINGS)
      | Raise _ => false
      end
  | Raise _ => false
  end.

(** The items a response contributes under [key]. *)
Definition page_items (key : string) (resp : pyval) : result (list pyval) :=
  (page <- py_get resp key (PList []) ;; py_iter page)%res.

(** The summary kept after a response: its own, or the one held so far. *)
Definition kept_summary (summary resp : pyval) : pyval :=
  match py_get resp "Summary" summary with
  | Ok s => s
  | Raise _ => summary
  end.

(** A paginated conversation with a service, from the request that sends
    [token]: every response but the last carries a truthy continuation
    token under [key], which the next request sends.  The conversation
    ends with a response without token (outcome [None]) or with a request
    that raises (outcome [Some e]). *)
Inductive conversation (request : pyval -> result pyval) (args : pyval -> pyval)
          (key : string) : pyval -> list pyval -> option exn -> Prop :=
| conversation_ends (token resp next : pyval) :
    request (args token) = Ok resp ->
    py_get resp key PNone = Ok next -> truthy next = false ->
    conversation request args key token [resp] None
| conversation_goes_on (token resp next : pyval) (rest : list pyval)
                       (outcome : option exn) :
    request (args token) = Ok resp ->
    py_get resp key PNone = Ok next -> truthy next = true ->
    conversation request args key next rest outcome ->
    conversation request args key token (resp :: rest) outcome
| conversation_fails (token : pyval) (e : exn) :
    request (args token) = Raise e ->
    conversation request args key token [] (Some e).

(** A reading of the clock with a four-digit year, as every clock since
    the year 1000 gives it. *)
Definition clock_reading (dt : datetime) : bool :=
  (1000 <=? year dt) && (year dt <=? 9999)
  && (1 <=? month dt) && (month dt <=? 12)
  && (1 <=? day dt) && (day dt <=? 31)
  && (0 <=? hour dt) && (hour dt <=? 23)
  && (0 <=? minute dt) && (minute dt <=? 59)
  && (0 <=? second dt) && (second dt <=? 59)
  && (0 <=? microsecond dt) && (microsecond dt <=? 999999).

(** A normal positive float between [L * 2^-43] and [H * 2^-43]; below
    1024 every multiple of [2^-43] is a float. *)
Definition within (L H : Z) (x : float) : Prop :=
  exists m e,
    x = S754_finite false m e
    /\ 2 ^ 52 <= Zpos m < 2 ^ 53 /\ -51 <= e <= -43
    /\ L * 2 ^ (- 43 - e) <= Zpos m <= H * 2 ^ (- 43 - e).

(** The float nearest to [c / 100] is normal and lies within one unit of
    [2^-43] of [c / 100]. *)
Definition cents_tight (c : Z) : bool :=
  match of_cents false c with
  | S754_finite false m e =>
      (2 ^ 52 <=? Zpos m) && (Zpos m <? 2 ^ 53)
      && (-51 <=? e) && (e <=? -43)
      && (c * 2 ^ 43 / 100 * 2 ^ (- 43 - e) <=? Zpos m)
      && (Zpos m <=? (c * 2 ^ 43 / 100 + 1) * 2 ^ (- 43 - e))
  | _ => false
  end.

(** The running total after [k] amounts that add up to [C] cents: a float
    within [k * 2^-43] of [C / 100]. *)
Definition near (C k : Z) (t : float) : Prop :=
  exists L H,
    within L H t
    /\ C * 2 ^ 43 - 100 * k <= 100 * L /\ 100 * H <= C * 2 ^ 43 + 100 * k.

(** The sum of a list of amounts in cents. *)
Definition sum_cents (cs : list Z) : Z := fold_right Z.add 0 cs.

(** Lookup along a path of keys; a missing key gives [None]. *)
Fixpoint py_path (v : pyval) (keys : list string) : result pyval :=
  match keys with
  | [] => Ok v
  | k :: rest => (x <- py_get v k PNone ;; py_path x rest)%res
  end.

(** An amount of [c] cents in US dollars, as a record carries it. *)
Definition usd (c : Z) : pyval :=
  PDict [("Amount", PStr (cents_numeral c)); ("Unit", PStr "USD")].

(** The target offered for the type [fam.size]: one step down the ladder,
    in the same family or in its Graviton counterpart. *)
Definition target_of (fam size target : string) : Prop :=
  exists fam' size' i,
    target = fam' ++ "." ++ size'
    /\ (fam' = fam \/ fam' = "m7g" \/ fam' = "t4g")
    /\ list_index size order = Ok i
    /\ list_index size' order = Ok (Z.max i 1 - 1).

(** A well-formed synthetic recommendation worth [c] cents. *)
Definition synthetic_record (r : pyval) (c : Z) : Prop :=
  exists (modify : bool) (id : string) (k : Z) (fam size : string) (sizes : list string)
         (target : string),
    py_path r ["AccountId"] = Ok (PStr "913979368763")
    /\ py_path r ["RightsizingType"] = Ok (PStr (if modify then "Modify" else "Terminate"))
    /\ py_path r ["CurrentInstance"; "ResourceId"] = Ok (PStr ("i-" ++ id))
    /\ String.length id = 17%nat /\ all_chars is_hex_digit id = true
    /\ py_path r ["CurrentInstance"; "InstanceName"]
       = Ok (PStr ((if modify then "app-" else "batch-") ++ dec k))
    /\ 10 <= k <= 99
    /\ py_path r ["CurrentInstance"; "ResourceDetails"; "EC2ResourceDetails"; "InstanceType"]
       = Ok (PStr (fam ++ "." ++ size))
    /\ In (fam, sizes) FAMILIES /\ In size sizes
    /\ if modify then
         target_of fam size target
         /\ py_path r ["ModifyRecommendationDetail"; "EstimatedMonthlySavings"] = Ok (usd c)
         /\ py_path r ["ModifyRecommendationDetail"; "TargetInstances"]
            = Ok (PList [PDict [
                   ("EstimatedMonthlySavings", usd c);
                   ("ResourceDetails", instance_details target);
                   ("ExpectedCost", PDict [("Amount", PStr "—"); ("Unit", PStr "USD")])]])
         /\ py_path r ["TerminateRecommendationDetail"] = Ok PNone
       else
         py_path r ["TerminateRecommendationDetail"; "EstimatedMonthlySavings"] = Ok (usd c)
         /\ py_path r ["ModifyRecommendationDetail"] = Ok PNone.

(** Structural equality of floats. *)
Definition same_float (x y : float) : bool :=
  match x, y with
  | S754_nan, S754_nan => true
  | S754_zero s, S754_zero s' | S754_infinity s, S754_infinity s' => Bool.eqb s s'
  | S754_finite s m e, S754_finite s' m' e' => Bool.eqb s s' && Pos.eqb m m' && Z.eqb e e'
  | _, _ => false
  end.

(** The small [float] reads the numeral of [c] cents as the float nearest
    to [c / 100]. *)
Definition parse_checked (c : Z) : bool :=
  match simple_float_of_str (cents_numeral c) with
  | Some x => same_float x (of_cents false c)
  | None => false
  end.

(** * Properties *)

(** ** Splitting instance types and walking the ladder *)

Lemma split_on_no_dot (s : string) :
  no_dot s = true -> split_on "." s = [s].
Proof.
  induction s as [|c s IH]; simpl; [reflexivity|].
  intros H. apply andb_true_iff in H as [Hc Hs].
  apply negb_true_iff in Hc. rewrite Hc, (IH Hs). reflexivity.
Qed.

Lemma split_on_join (a b : string) :
  no_dot a = true -> no_dot b = true -> split_on "." (a ++ "." ++ b) = [a; b].
Proof.
  intros Ha Hb. induction a as [|c a IH]; simpl in *.
  - now rewrite split_on_no_dot.
  - apply andb_true_iff in Ha as [Hc Ha].
    apply negb_true_iff in Hc. rewrite Hc, (IH Ha). reflexivity.
Qed.

Lemma list_index_Raise (x : string) (l : list string) (e : exn) :
  list_index x l = Raise e -> e = ValueError.
Proof.
  revert e. induction l as [|y l IH]; simpl; intros e H.
  - congruence.
  - destruct (String.eqb y x); [discriminate|].
    destruct (list_index x l) eqn:E; [discriminate|].
    injection H as <-. now apply IH.
Qed.

Lemma list_index_Ok (x : string) (l : list string) (i : Z) :
  list_index x l = Ok i ->
  0 <= i < Z.of_nat (List.length l) /\ nth_error l (Z.to_nat i) = Some x.
Proof.
  revert i. induction l as [|y l IH]; simpl; intros i H; [discriminate|].
  destruct (String.eqb y x) eqn:E.
  - injection H as <-. apply String.eqb_eq in E. subst. split; [lia|reflexivity].
  - destruct (list_index x l) as [j|] eqn:Ej; [|discriminate].
    injection H as <-. destruct (IH j eq_refl) as [Hj Hn].
    split; [lia|].
    replace (Z.to_nat (j + 1)) with (S (Z.to_nat j)) by lia. exact Hn.
Qed.

Lemma list_item_In {A : Type} (l : list A) (i : Z) :
  0 <= i < Z.of_nat (List.length l) ->
  exists x, list_item l i = Ok x /\ In x l.
Proof.
  intros Hi. unfold list_item.
  replace (i <? 0) with false by (symmetry; apply Z.ltb_ge; lia).
  replace ((0 <=? i) && (i <? Z.of_nat (List.length l)))%bool with true
    by (symmetry; apply andb_true_iff; split; [apply Z.leb_le|apply Z.ltb_lt]; lia).
  destruct (nth_error l (Z.to_nat i)) as [x|] eqn:E.
  - exists x. split; [reflexivity|]. eapply nth_error_In; eauto.
  - apply nth_error_None in E. lia.
Qed.

(** The [try] of [_smaller_type] never leaves its [except] with an
    exception: a size on the ladder steps to [max(i, 1) - 1], any other
    size gives ["small"]. *)
Lemma ladder_try (size : string) :
  exists new_size,
    try_except (ladder_step size) is_ValueError (Ok "small") = Ok new_size
    /\ match list_index size order with
       | Ok i => ladder_step size = Ok new_size
                 /\ list_index new_size order = Ok (Z.max i 1 - 1)
       | Raise _ => new_size = "small"
       end.
Proof.
  unfold ladder_step.
  destruct (list_index size order) as [i|e] eqn:E; simpl.
  - destruct (list_index_Ok _ _ _ E) as [Hi _]. simpl in Hi.
    assert (Hc : i = 0 \/ i = 1 \/ i = 2 \/ i = 3 \/ i = 4 \/ i = 5 \/ i = 6 \/ i = 7) by lia.
    destruct Hc as [->|[->|[->|[->|[->|[->|[->| ->]]]]]]];
      eexists; repeat split; reflexivity.
  - rewrite (list_index_Raise _ _ _ E). exists "small". now split.
Qed.

Section SmallerType.
Context {R : PyRandom}.

Lemma choice_In {A : Type} (seq : list A) (g : rng) :
  seq <> [] -> exists x g', choice seq g = Ok (x, g') /\ In x seq.
Proof.
  intros Hne. unfold choice. destruct seq as [|a seq]; [congruence|].
  unfold bind, randbelow.
  pose proof (rng_randbelow_range (Z.of_nat (List.length (a :: seq))) g) as Hr.
  destruct (rng_randbelow _ g) as [i g']. simpl fst in Hr.
  destruct (list_item_In (a :: seq) i) as (x & Hx & Hin).
  { apply Hr. simpl. lia. }
  unfold lift. rewrite Hx. eauto.
Qed.

(** One of the two architecture swaps of lines 145-148. *)
Lemma graviton_swap (fam prefix swap : string) (g : rng) :
  exists fam' g',
    (if String.prefix prefix fam
     then bind random (fun r => ret (if F64.ltb r (F64.of_scaled 1 (-1)) then swap else fam))
     else ret fam) g = Ok (fam', g')
    /\ (fam' = fam \/ fam' = swap).
Proof.
  destruct (String.prefix prefix fam).
  - unfold bind, random, ret. destruct (rng_bits53 g) as [k g'].
    destruct (F64.ltb _ _); eauto.
  - unfold ret. eauto.
Qed.

Lemma smaller_type_run (fam size new_size : string) (g : rng) :
  no_dot fam = true -> no_dot size = true ->
  try_except (ladder_step size) is_ValueError (Ok "small") = Ok new_size ->
  exists fam' g',
    _smaller_type (fam ++ "." ++ size) g = Ok (fam' ++ "." ++ new_size, g')
    /\ (fam' = fam \/ fam' = "m7g" \/ fam' = "t4g").
Proof.
  intros Hf Hs Hn. unfold _smaller_type.
  unfold bind at 1. rewrite (split_on_join _ _ Hf Hs). simpl lift at 1. cbv beta iota.
  unfold bind at 1. rewrite Hn. simpl lift. cbv beta iota.
  destruct (graviton_swap fam "m6i" "m7g" g) as (fam1 & g1 & E1 & H1).
  unfold bind at 1. rewrite E1.
  destruct (graviton_swap fam1 "t3" "t4g" g1) as (fam2 & g2 & E2 & H2).
  unfold bind at 1. rewrite E2.
  exists fam2, g2. split; [reflexivity|].
  destruct H2 as [->| ->]; [destruct H1 as [->| ->]|]; auto.
Qed.

(** C1 (amended): for a current type [fam.size], the size-step function
    returns [fam'.size'] where [size'] is one position down the ladder
    and never below position 0, [micro]: a size at position [i] steps to
    position [max(i, 1) - 1], so [micro] and [small] both give [micro];
    a size that is not on the ladder gives [small]. *)
Theorem smaller_type_steps_down_to_micro (fam size : string) (g : rng) :
  no_dot fam = true -> no_dot size = true ->
  exists fam' size' g',
    _smaller_type (fam ++ "." ++ size) g = Ok (fam' ++ "." ++ size', g')
    /\ (fam' = fam \/ fam' = "m7g" \/ fam' = "t4g")
    /\ match list_index size order with
       | Ok i => list_index size' order = Ok (Z.max i 1 - 1) /\ 0 <= Z.max i 1 - 1
       | Raise _ => size' = "small"
       end.
Proof.
  intros Hf Hs.
  destruct (ladder_try size) as (size' & Htry & Hrank).
  destruct (smaller_type_run fam size size' g Hf Hs Htry) as (fam' & g' & E & Hfam).
  exists fam', size', g'. split; [exact E|]. split; [exact Hfam|].
  destruct (list_index size order) as [i|e]; [|exact Hrank].
  split; [apply Hrank|lia].
Qed.

Lemma catalog_ok :
  forallb (fun fs => forallb (catalog_entry_ok (fst fs)) (snd fs)
                     && negb (match snd fs with [] => true | _ => false end)) FAMILIES
  = true.
Proof. reflexivity. Qed.

Lemma pick_in_catalog (g : rng) :
  exists fam sizes size g',
    _pick_instance_type g = Ok (fam ++ "." ++ size, g')
    /\ In (fam, sizes) FAMILIES /\ In size sizes
    /\ catalog_entry_ok fam size = true.
Proof.
  unfold _pick_instance_type.
  destruct (choice_In FAMILIES g) as ([fam sizes] & g1 & E1 & Hin1); [discriminate|].
  pose proof catalog_ok as Hc. rewrite forallb_forall in Hc.
  specialize (Hc _ Hin1). simpl in Hc. apply andb_true_iff in Hc as [Hc Hne].
  destruct (choice_In sizes g1) as (size & g2 & E2 & Hin2).
  { intros ->. discriminate. }
  rewrite forallb_forall in Hc. specialize (Hc _ Hin2).
  exists fam, sizes, size, g2.
  unfold bind. rewrite E1, E2. unfold ret. auto.
Qed.

(** C10: every current type the generator draws from [FAMILIES] splits at
    its dot into exactly one family and one size, the size is on the
    ladder of [_smaller_type], and the [try] body returns, so the
    [except ValueError] handler that defaults to ["small"] is not run. *)
Theorem picked_type_is_on_ladder (g : rng) :
  exists fam sizes size g',
    _pick_instance_type g = Ok (fam ++ "." ++ size, g')
    /\ In (fam, sizes) FAMILIES /\ In size sizes
    /\ split_on "." (fam ++ "." ++ size) = [fam; size]
    /\ (exists i, list_index size order = Ok i)
    /\ (exists new_size,
          ladder_step size = Ok new_size
          /\ try_except (ladder_step size) is_ValueError (Ok "small") = Ok new_size).
Proof.
  destruct (pick_in_catalog g) as (fam & sizes & size & g' & E & Hin1 & Hin2 & Hc).
  unfold catalog_entry_ok in Hc.
  repeat (apply andb_true_iff in Hc as [Hc ?]).
  exists fam, sizes, size, g'. repeat split; auto.
  - now apply split_on_join.
  - destruct (list_index size order) as [i|]; [eauto|discriminate].
  - destruct (ladder_step size) as [s|]; [|discriminate].
    exists s. split; reflexivity.
Qed.

End SmallerType.

Lemma picked_type_run :
  exists fam sizes size g',
    @_pick_instance_type lcg_random 50 = Ok (fam ++ "." ++ size, g')
    /\ In (fam, sizes) FAMILIES /\ In size sizes
    /\ split_on "." (fam ++ "." ++ size) = [fam; size]
    /\ (exists i, list_index size order = Ok i)
    /\ (exists new_size,
          ladder_step size = Ok new_size
          /\ try_except (ladder_step size) is_ValueError (Ok "small") = Ok new_size).
Proof. exact (@picked_type_is_on_ladder lcg_random 50). Defined.

(** C1, as stated, fails: the generator can draw [t3.micro], and the
    target offered for it is again a [micro], position 0 of the ladder,
    below [small]. *)
Lemma smaller_type_offers_micro :
  exists g1 g2,
    @_pick_instance_type lcg_random 50 = Ok ("t3.micro", g1)
    /\ @_smaller_type lcg_random "t3.micro" g1 = Ok ("t3.micro", g2)
    /\ size_rank "t3.micro" = Ok 0
    /\ size_rank "t3.small" = Ok 1.
Proof. do 2 eexists. repeat split; vm_compute; reflexivity. Qed.

Lemma smaller_type_witness :
  no_dot "t3" = true /\ no_dot "micro" = true /\
  exists fam' size' g',
    @_smaller_type lcg_random ("t3" ++ "." ++ "micro") 5 = Ok (fam' ++ "." ++ size', g')
    /\ (fam' = "t3" \/ fam' = "m7g" \/ fam' = "t4g")
    /\ match list_index "micro" order with
       | Ok i => list_index size' order = Ok (Z.max i 1 - 1) /\ 0 <= Z.max i 1 - 1
       | Raise _ => size' = "small"
       end.
Proof.
  split; [reflexivity|]. split; [reflexivity|].
  apply (@smaller_type_steps_down_to_micro lcg_random "t3" "micro" 5); reflexivity.
Defined.

(** ** Signs of rounded results *)










(** ** Savings Aggregator *)

Section AggregatorFacts.
Context {B : PyBuiltins}.

Lemma for_each_amounts (amount : pyval -> result pyval) (recs amts : list pyval)
      (total : float) :
  Forall2 (fun r a => amount r = Ok a) recs amts ->
  for_each (fun total r => (amt <- amount r ;; Ok (add_amount total amt))%res) recs total
  = Ok (fold_left add_amount amts total).
Proof.
  intros H. revert total. induction H as [|r a recs amts Hr _ IH]; intros total; simpl.
  - reflexivity.
  - rewrite Hr. simpl. apply IH.
Qed.




End AggregatorFacts.



(** ** Rounding to 53 bits, on integers *)

Lemma digits2_pos_bounds (p : positive) :
  2 ^ (Zpos (digits2_pos p) - 1) <= Zpos p < 2 ^ Zpos (digits2_pos p).
Proof.
  induction p as [p IH|p IH|]; simpl digits2_pos.
  - rewrite Pos2Z.inj_succ.
    replace (Z.succ (Zpos (digits2_pos p)) - 1) with (Z.succ (Zpos (digits2_pos p) - 1)) by lia.
    rewrite !Z.pow_succ_r by lia. lia.
  - rewrite Pos2Z.inj_succ.
    replace (Z.succ (Zpos (digits2_pos p)) - 1) with (Z.succ (Zpos (digits2_pos p) - 1)) by lia.
    rewrite !Z.pow_succ_r by lia. lia.
  - simpl. lia.
Qed.

(** The number of binary digits is determined by the power-of-two bracket. *)
Lemma digits2_unique (p : positive) (d : Z) :
  2 ^ (d - 1) <= Zpos p < 2 ^ d -> Zpos (digits2_pos p) = d.
Proof.
  intros [Hl Hu]. pose proof (digits2_pos_bounds p) as [Hl' Hu'].
  assert (0 < d).
  { destruct (Z_lt_le_dec 0 d); [assumption|].
    assert (2 ^ d <= 2 ^ 0) by (apply Z.pow_le_mono_r; lia). simpl in *. lia. }
  destruct (Z_lt_le_dec (Zpos (digits2_pos p)) d) as [Hlt|Hge].
  - assert (2 ^ Zpos (digits2_pos p) <= 2 ^ (d - 1)) by (apply Z.pow_le_mono_r; lia). lia.
  - destruct (Z_lt_le_dec d (Zpos (digits2_pos p))) as [Hlt|Hge']; [|lia].
    assert (2 ^ d <= 2 ^ (Zpos (digits2_pos p) - 1)) by (apply Z.pow_le_mono_r; lia). lia.
Qed.

Lemma shr_1_div2 (mrs : shr_record) :
  0 <= shr_m mrs ->
  shr_m (shr_1 mrs) = shr_m mrs / 2
  /\ shr_s (shr_1 mrs) = orb (shr_r mrs) (shr_s mrs)
  /\ (shr_r (shr_1 mrs) = true -> shr_m mrs mod 2 = 1).
Proof.
  destruct mrs as [m r s]. simpl. intros H.
  destruct m as [|p|p]; [simpl; repeat split; discriminate| |lia].
  destruct p as [p|p|]; simpl shr_m; simpl shr_s; simpl shr_r.
  - repeat split.
    + apply Z.div_unique with (r := 1); lia.
    + intros _. symmetry. apply Z.mod_unique with (q := Zpos p); lia.
  - repeat split; try discriminate.
    apply Z.div_unique with (r := 0); lia.
  - repeat split.
Qed.

Lemma shr_inv_step (M k : Z) (mrs : shr_record) :
  0 <= M -> 0 <= k -> shr_inv M k mrs -> shr_inv M (k + 1) (shr_1 mrs).
Proof.
  intros HM Hk [Hm Hf].
  assert (H0 : 0 <= shr_m mrs) by (rewrite Hm; apply Z.div_pos; lia).
  destruct (shr_1_div2 mrs H0) as (Hm' & Hs' & Hr').
  assert (Hp : 0 < 2 ^ k) by (apply Z.pow_pos_nonneg; lia).
  assert (Hpow : 2 ^ (k + 1) = 2 ^ k * 2) by (rewrite Z.pow_add_r by lia; reflexivity).
  split.
  - rewrite Hm', Hm, Hpow. rewrite Z.div_div by lia. reflexivity.
  - intros Hflag Hz.
    assert (Hdiv : M = 2 ^ (k + 1) * (M / 2 ^ (k + 1))).
    { pose proof (Z.div_mod M (2 ^ (k + 1)) ltac:(lia)). lia. }
    set (q := M / 2 ^ (k + 1)) in *.
    assert (Hq : M / 2 ^ k = 2 * q).
    { rewrite Hdiv, Hpow. symmetry. apply Z.div_unique with (r := 0); lia. }
    assert (Hmod : M mod 2 ^ k = 0).
    { rewrite Hdiv, Hpow. symmetry. apply Z.mod_unique with (q := 2 * q); lia. }
    apply orb_true_iff in Hflag as [Hr|Hs].
    + specialize (Hr' Hr). rewrite Hm, Hq in Hr'.
      rewrite Z.mul_comm, Z.mod_mul in Hr' by lia. discriminate.
    + rewrite Hs' in Hs. apply (Hf Hs Hmod).
Qed.

Lemma shr_inv_iter (M : Z) (p : positive) (k : Z) (mrs : shr_record) :
  0 <= M -> 0 <= k -> shr_inv M k mrs -> shr_inv M (k + Zpos p) (iter_pos shr_1 p mrs).
Proof.
  intros HM. revert k mrs.
  induction p as [p IH|p IH|]; intros k mrs Hk H; simpl iter_pos.
  - replace (k + Zpos p~1) with (k + 1 + Zpos p + Zpos p) by lia.
    apply IH; [lia|]. apply IH; [lia|]. now apply shr_inv_step.
  - replace (k + Zpos p~0) with (k + Zpos p + Zpos p) by lia.
    apply IH; [lia|]. now apply IH.
  - now apply shr_inv_step.
Qed.

Lemma shr_exact_spec (m e n : Z) :
  0 <= m ->
  let '(mrs, e') := shr (shr_record_of_loc m loc_Exact) e n in
  e' = e + Z.max n 0
  /\ shr_m mrs = m / 2 ^ Z.max n 0
  /\ (loc_of_shr_record mrs <> loc_Exact -> m mod 2 ^ Z.max n 0 <> 0).
Proof.
  intros Hm. unfold shr. simpl shr_record_of_loc.
  destruct n as [|p|p].
  - simpl. repeat split; [lia|now rewrite Z.div_1_r|congruence].
  - assert (H : shr_inv m (0 + Zpos p)
                          (iter_pos shr_1 p {| shr_m := m; shr_r := false; shr_s := false |})).
    { apply shr_inv_iter; [assumption|lia|]. split; simpl.
      - now rewrite Z.div_1_r.
      - discriminate. }
    destruct H as [H1 H2]. rewrite Z.add_0_l in *.
    rewrite Z.max_l by lia.
    repeat split; [exact H1|].
    intros Hloc. apply H2.
    destruct (iter_pos shr_1 p _) as [m' [] []]; simpl in *; congruence.
  - simpl. repeat split; [lia|now rewrite Z.div_1_r|congruence].
Qed.

Lemma round_nearest_even_cases (m : Z) (l : location) :
  round_nearest_even m l = m
  \/ (round_nearest_even m l = m + 1 /\ l <> loc_Exact).
Proof.
  destruct l as [|[]]; simpl; auto.
  - destruct (Z.even m); [auto|right; split; [reflexivity|discriminate]].
  - right; split; [reflexivity|discriminate].
Qed.

Lemma fexp_normal (d e : Z) :
  -1074 <= d + e - 53 -> fexp 53 1024 (d + e) = d + e - 53.
Proof. intros H. unfold fexp, emin. lia. Qed.

(** Rounding an exact positive number [mx * 2^ex] in the normal range:
    the result is a finite float between any two bounds of the input that
    lie on the grid the rounding works on. *)
Lemma binary_round_aux_bounds (mx : positive) (ex LO HI : Z) :
  let n := Z.max (Zpos (digits2_pos mx) - 53) 0 in
  -1074 <= Zpos (digits2_pos mx) + ex - 53 ->
  ex + n + 1 <= 971 ->
  LO <= Zpos mx <= HI ->
  (2 ^ n | LO) -> (2 ^ n | HI) ->
  exists m e,
    binary_round_aux 53 1024 false (Zpos mx) ex loc_Exact = S754_finite false m e
    /\ ex <= e <= ex + n + 1
    /\ LO <= Zpos m * 2 ^ (e - ex) <= HI.
Proof.
  intros n Hnorm Hover Hb [lo HLO] [hi HHI].
  pose proof (digits2_pos_bounds mx) as Hd.
  set (d := Zpos (digits2_pos mx)) in *.
  assert (Hn0 : 0 <= n) by (unfold n; lia).
  assert (HT : 0 < 2 ^ n) by (apply Z.pow_pos_nonneg; lia).
  unfold binary_round_aux, shr_fexp. simpl Zdigits2. fold d.
  rewrite (fexp_normal d ex Hnorm).
  pose proof (shr_exact_spec (Zpos mx) ex (d + ex - 53 - ex) ltac:(lia)) as H1.
  destruct (shr (shr_record_of_loc (Zpos mx) loc_Exact) ex (d + ex - 53 - ex)) as [mrs e1].
  replace (Z.max (d + ex - 53 - ex) 0) with n in H1 by (unfold n; lia).
  destruct H1 as (He1 & Hm1 & Hloc).
  set (m1 := shr_m mrs) in *.
  set (m2 := round_nearest_even m1 (loc_of_shr_record mrs)).
  (* the rounded mantissa stays between the bounds, in units of 2^n *)
  assert (Hm1b : lo <= m1 /\ (m1 <= hi) /\ (Zpos mx mod 2 ^ n <> 0 -> m1 < hi)).
  { pose proof (Z.div_mod (Zpos mx) (2 ^ n) ltac:(lia)) as Hdm.
    pose proof (Z.mod_pos_bound (Zpos mx) (2 ^ n) HT) as Hmb.
    rewrite <- Hm1 in Hdm. subst LO HI. repeat split; nia. }
  assert (Hm2 : lo <= m2 <= hi /\ m1 <= m2 <= m1 + 1
                /\ (m2 = m1 \/ Zpos mx mod 2 ^ n <> 0)).
  { unfold m2. destruct (round_nearest_even_cases m1 (loc_of_shr_record mrs)) as [->|[-> Hl]].
    - repeat split; auto; lia.
    - specialize (Hloc Hl). repeat split; auto; lia. }
  (* size of the first quotient *)
  assert (Hm1r : (d <= 53 /\ n = 0 /\ m1 = Zpos mx)
                 \/ (53 < d /\ n = d - 53 /\ 2 ^ 52 <= m1 < 2 ^ 53)).
  { destruct (Z_le_gt_dec d 53) as [Hle|Hgt].
    - left. assert (n = 0) by (unfold n; lia). repeat split; auto.
      rewrite Hm1. replace n with 0 by lia. now rewrite Z.div_1_r.
    - right. assert (Hn : n = d - 53) by (unfold n; lia). repeat split; auto; [lia| |].
      + rewrite Hm1. apply Z.div_le_lower_bound; [lia|].
        rewrite <- Z.pow_add_r by lia. replace (n + 52) with (d - 1) by lia. lia.
      + rewrite Hm1. apply Z.div_lt_upper_bound; [lia|].
        rewrite <- Z.pow_add_r by lia. replace (n + 53) with d by lia. lia. }
  assert (Hm2pos : 0 < m2).
  { destruct Hm1r as [(_ & _ & E)|(_ & _ & E)]; lia. }
  destruct m2 as [|q|q] eqn:Eq2; try lia.
  pose proof (shr_exact_spec (Zpos q) e1 (fexp 53 1024 (Zdigits2 (Zpos q) + e1) - e1)
                ltac:(lia)) as H2.
  destruct (shr (shr_record_of_loc (Zpos q) loc_Exact) e1
                (fexp 53 1024 (Zdigits2 (Zpos q) + e1) - e1)) as [mrs2 e2].
  destruct H2 as (He2 & Hm3 & _). simpl Zdigits2 in *.
  pose proof (digits2_pos_bounds q) as Hdq.
  set (dq := Zpos (digits2_pos q)) in *.
  (* the second shift is by zero or one binary digit *)
  assert (Hs : (Z.max (fexp 53 1024 (dq + e1) - e1) 0 = 0)
               \/ (Z.max (fexp 53 1024 (dq + e1) - e1) 0 = 1
                   /\ Zpos q = 2 ^ 53 /\ 53 < d)).
  { destruct Hm1r as [(Hle & Hn & E)|(Hgt & Hn & E)].
    - left. assert (dq = d).
      { unfold dq. replace q with mx; [reflexivity|].
        assert (Zpos q = Zpos mx); [|congruence].
        destruct Hm2 as (_ & _ & [Hx|Hx]); [lia|].
        rewrite Hn, Z.mod_1_r in Hx. congruence. }
      rewrite fexp_normal by lia. lia.
    - destruct (Z.eq_dec (Zpos q) (2 ^ 53)) as [E53|N53].
      + right. assert (dq = 54).
        { unfold dq. apply digits2_unique. rewrite E53. simpl. lia. }
        rewrite fexp_normal by lia. repeat split; auto; lia.
      + left. assert (dq = 53).
        { unfold dq. apply digits2_unique. simpl Z.sub. lia. }
        rewrite fexp_normal by lia. lia. }
  destruct Hs as [Hs|(Hs & E53 & Hgt)]; rewrite Hs in *.
  - rewrite Z.div_1_r in Hm3. rewrite Hm3.
    replace (e2 <=? 1024 - 53) with true by (symmetry; apply Z.leb_le; lia).
    exists q, e2. split; [reflexivity|]. split; [lia|].
    replace (e2 - ex) with n by lia. subst LO HI. nia.
  - assert (Hq3 : shr_m mrs2 = 2 ^ 52).
    { rewrite Hm3, E53. reflexivity. }
    rewrite Hq3. simpl (2 ^ 52).
    replace (e2 <=? 1024 - 53) with true by (symmetry; apply Z.leb_le; lia).
    eexists _, e2. split; [reflexivity|]. split; [lia|].
    replace (e2 - ex) with (n + 1) by lia.
    rewrite Z.pow_add_r by lia. change (2 ^ 1) with 2.
    assert (Zpos q * 2 ^ n = 4503599627370496 * (2 ^ n * 2)) by (rewrite E53; simpl (2 ^ 53); lia).
    subst LO HI. nia.
Qed.

Lemma pow2_divide (n N : Z) : 0 <= n <= N -> (2 ^ n | 2 ^ N).
Proof.
  intros H. exists (2 ^ (N - n)). rewrite <- Z.pow_add_r by lia. f_equal. lia.
Qed.

Lemma digits_le_of_lt (mx : positive) (D : Z) :
  0 <= D -> Zpos mx < 2 ^ D -> Zpos (digits2_pos mx) <= D.
Proof.
  intros HD H. pose proof (digits2_pos_bounds mx) as [Hl _].
  destruct (Z_le_gt_dec (Zpos (digits2_pos mx)) D) as [|Hgt]; [assumption|].
  assert (2 ^ D <= 2 ^ (Zpos (digits2_pos mx) - 1)) by (apply Z.pow_le_mono_r; lia). lia.
Qed.

(** The same for a number known to be below [2^(53+N)]: bounds on the
    grid [2^N] survive the rounding. *)
Lemma binary_round_aux_le (mx : positive) (ex N LO HI : Z) :
  0 <= N -> -1022 <= ex -> ex + N + 1 <= 971 ->
  Zpos mx < 2 ^ (53 + N) ->
  LO <= Zpos mx <= HI ->
  (2 ^ N | LO) -> (2 ^ N | HI) ->
  exists m e,
    binary_round_aux 53 1024 false (Zpos mx) ex loc_Exact = S754_finite false m e
    /\ ex <= e <= ex + N + 1
    /\ LO <= Zpos m * 2 ^ (e - ex) <= HI.
Proof.
  intros HN Hex Hover Hlt Hb HLO HHI.
  pose proof (digits_le_of_lt mx (53 + N) ltac:(lia) Hlt) as Hd.
  assert (Hn : 0 <= Z.max (Zpos (digits2_pos mx) - 53) 0 <= N) by lia.
  destruct (binary_round_aux_bounds mx ex LO HI) as (m & e & E & He & Hv); try lia.
  - eapply Z.divide_trans; [apply pow2_divide; exact Hn|exact HLO].
  - eapply Z.divide_trans; [apply pow2_divide; exact Hn|exact HHI].
  - exists m, e. repeat split; try assumption; lia.
Qed.

Lemma shl_align_spec (mx : positive) (ex ex' : Z) :
  let '(mz, ez) := shl_align mx ex ex' in
  ez = Z.min ex ex' /\ Zpos mz = Zpos mx * 2 ^ (ex - ez).
Proof.
  unfold shl_align. destruct (ex' - ex) as [|d|d] eqn:E.
  - split; [lia|]. replace (ex - ex) with 0 by lia. simpl. lia.
  - split; [lia|]. replace (ex - ex) with 0 by lia. simpl. lia.
  - split; [lia|]. replace (ex - ex') with (Zpos d) by lia.
    change (Pos.iter xO mx d) with (shift_pos d mx).
    rewrite shift_pos_correct. change (Z.pow_pos 2 d) with (2 ^ Zpos d). lia.
Qed.

(** [binary_round] first aligns to the target exponent, which scales the
    mantissa by at most [2^52]; values are compared at scale [2^53]. *)
Lemma binary_round_le (mx : positive) (ex N LO HI : Z) :
  0 <= N -> -969 <= ex -> ex + N + 1 <= 971 ->
  Zpos mx < 2 ^ (53 + N) ->
  LO <= Zpos mx <= HI ->
  (2 ^ N | LO) -> (2 ^ N | HI) ->
  exists m e,
    binary_round 53 1024 false mx ex = S754_finite false m e
    /\ ex - 53 < e <= ex + N + 1
    /\ LO * 2 ^ 53 <= Zpos m * 2 ^ (e - ex + 53) <= HI * 2 ^ 53.
Proof.
  intros HN Hex Hover Hlt Hb HLO HHI.
  unfold binary_round.
  pose proof (digits2_pos_bounds mx) as Hd.
  set (d := Zpos (digits2_pos mx)) in *.
  assert (Hd1 : 1 <= d) by (unfold d; lia).
  rewrite (fexp_normal d ex) by lia.
  pose proof (shl_align_spec mx ex (d + ex - 53)) as Hs.
  destruct (shl_align mx ex (d + ex - 53)) as [mz ez].
  destruct Hs as [Hez Hmz].
  destruct (Z_lt_le_dec d 53) as [Hsmall|Hbig].
  - (* fewer than 53 digits: the mantissa is padded, nothing is rounded *)
    assert (Ez : ez = d + ex - 53) by lia.
    assert (Hp : 0 < 2 ^ (ex - ez)) by (apply Z.pow_pos_nonneg; lia).
    destruct (binary_round_aux_le mz ez 0 (Zpos mz) (Zpos mz)) as (m & e & E & He & Hv);
      try lia.
    + rewrite Hmz, Z.add_0_r.
      replace 53 with (d + (ex - ez)) by lia. rewrite Z.pow_add_r by lia.
      apply Z.mul_lt_mono_pos_r; lia.
    + apply Z.divide_1_l.
    + apply Z.divide_1_l.
    + exists m, e. split; [exact E|]. split; [lia|].
      assert (Hme : Zpos m * 2 ^ (e - ez) = Zpos mx * 2 ^ (ex - ez)) by lia.
      assert (Hpow : 2 ^ (e - ex + 53) = 2 ^ (e - ez) * 2 ^ (53 - (ex - ez))).
      { rewrite <- Z.pow_add_r by lia. f_equal. lia. }
      assert (H53 : 2 ^ 53 = 2 ^ (ex - ez) * 2 ^ (53 - (ex - ez))).
      { rewrite <- Z.pow_add_r by lia. f_equal. lia. }
      assert (Hq : 0 < 2 ^ (53 - (ex - ez))) by (apply Z.pow_pos_nonneg; lia).
      assert (Hval : Zpos m * 2 ^ (e - ex + 53) = Zpos mx * 2 ^ 53).
      { rewrite Hpow, H53, !Z.mul_assoc. f_equal. exact Hme. }
      rewrite Hval.
      split; apply Z.mul_le_mono_nonneg_r; try (apply Z.pow_nonneg; lia).
      all: lia.
  - assert (Ez : ez = ex) by lia. clear Hez. subst ez.
    assert (Emz : mz = mx).
    { replace (ex - ex) with 0 in Hmz by lia.
      rewrite Z.pow_0_r, Z.mul_1_r in Hmz. congruence. }
    subst mz.
    destruct (binary_round_aux_le mx ex N LO HI) as (m & e & E & He & Hv); try lia;
      try assumption.
    exists m, e. split; [exact E|]. split; [lia|].
    rewrite Z.pow_add_r, Z.mul_assoc by lia.
    split; apply Z.mul_le_mono_nonneg_r; try (apply Z.pow_nonneg; lia); lia.
Qed.

(** ** The floats the generator draws *)

Lemma pow2_pos (n : Z) : 0 <= n -> 0 < 2 ^ n.
Proof. intros. apply Z.pow_pos_nonneg; lia. Qed.

(** [random()] is zero or a positive float of value [k * 2^-53]. *)
Lemma random_float (k : Z) :
  0 <= k < 2 ^ 53 ->
  (k = 0 /\ F64.of_scaled k (-53) = S754_zero false)
  \/ exists m e,
      F64.of_scaled k (-53) = S754_finite false m e
      /\ -106 < e <= -52
      /\ Zpos m * 2 ^ (e + 106) = k * 2 ^ 53.
Proof.
  intros Hk. unfold F64.of_scaled, binary_normalize, F64.prec, F64.emax.
  destruct k as [|kp|kp]; [left; split; reflexivity| |lia].
  right.
  destruct (binary_round_le kp (-53) 0 (Zpos kp) (Zpos kp)) as (m & e & E & He & Hv);
    try lia; try apply Z.divide_1_l.
  exists m, e. split; [exact E|]. split; [lia|].
  replace (e - -53 + 53) with (e + 106) in Hv by lia. lia.
Qed.

Lemma mul_cancel_pow (a b q : Z) :
  0 <= q -> a * 2 ^ q <= b * 2 ^ q -> a <= b.
Proof.
  intros Hq H. pose proof (pow2_pos q Hq).
  apply Z.mul_le_mono_pos_r with (p := 2 ^ q); assumption.
Qed.

Lemma uniform_3_120_float (k : Z) :
  0 <= k < 2 ^ 53 ->
  between 3 120
    (F64.add (F64.of_Z 3)
       (F64.mul (F64.sub (F64.of_Z 120) (F64.of_Z 3)) (F64.of_scaled k (-53)))).
Proof.
  intros Hk.
  change (F64.sub (F64.of_Z 120) (F64.of_Z 3))
    with (S754_finite false 8233143068786688 (-46)).
  change (F64.of_Z 3) with (S754_finite false 6755399441055744 (-51)).
  destruct (random_float k Hk) as [[-> ->]|(mr & er & -> & Her & Hvr)].
  { (* 3.0 + 117.0 * 0.0 *)
    exists 6755399441055744%positive, (-51). repeat split; simpl; lia. }
  (* y = 117.0 * r *)
  assert (Hmr : Zpos mr < 2 ^ (- er)).
  { apply Z.mul_lt_mono_pos_r with (p := 2 ^ (er + 106)); [apply pow2_pos; lia|].
    rewrite <- Z.pow_add_r by lia. replace (- er + (er + 106)) with 106 by lia.
    rewrite Hvr. change (2 ^ 106) with (2 ^ 53 * 2 ^ 53).
    apply Z.mul_lt_mono_pos_r; [apply pow2_pos|]; lia. }
  pose proof (pow2_pos (- er) ltac:(lia)) as Hper.
  unfold F64.mul, SFmul, F64.prec, F64.emax. simpl xorb.
  destruct (binary_round_aux_le (8233143068786688 * mr) (-46 + er) (- er)
              0 (8233143068786688 * 2 ^ (- er)))
    as (my & ey & Ey & Hey & Hvy); try lia.
  { rewrite Pos2Z.inj_mul, Z.pow_add_r by lia.
    apply Z.mul_lt_mono_nonneg; lia. }
  { apply Z.divide_0_r. }
  { apply Z.divide_factor_r. }
  rewrite Ey.
  assert (Hmy : Zpos my <= 117 * 2 ^ (- ey)).
  { apply mul_cancel_pow with (q := ey - (-46 + er)); [lia|].
    rewrite <- Z.mul_assoc, <- Z.pow_add_r by lia.
    replace (- ey + (ey - (-46 + er))) with (46 + - er) by lia.
    rewrite Z.pow_add_r by lia. change (2 ^ 46) with 70368744177664. lia. }
  (* u = 3.0 + y *)
  unfold F64.add, SFadd, cond_Zopp, F64.prec, F64.emax.
  set (ez := Z.min (-51) ey).
  pose proof (shl_align_spec 6755399441055744 (-51) ez) as Ha.
  pose proof (shl_align_spec my ey ez) as Hy.
  destruct (shl_align 6755399441055744 (-51) ez) as [ma ea].
  destruct (shl_align my ey ez) as [my' ey'].
  simpl fst. destruct Ha as [Hea Ha]. destruct Hy as [Hey' Hy].
  assert (Hez : -152 < ez <= -51) by (unfold ez; lia).
  replace ea with ez in Ha by lia. replace ey' with ez in Hy by lia.
  clear Hea Hey' ea ey'.
  pose proof (pow2_pos (- ez) ltac:(lia)) as Hpez.
  assert (Ea : Zpos ma = 3 * 2 ^ (- ez)).
  { rewrite Ha. replace (- ez) with (51 + (-51 - ez)) by lia.
    rewrite Z.pow_add_r by lia. change (2 ^ 51) with 2251799813685248. lia. }
  assert (Hy' : Zpos my' <= 117 * 2 ^ (- ez)).
  { rewrite Hy. replace (- ez) with (- ey + (ey - ez)) by lia.
    rewrite Z.pow_add_r, Z.mul_assoc by lia.
    apply Z.mul_le_mono_nonneg_r; [apply Z.pow_nonneg; lia|exact Hmy]. }
  change (Zpos ma + Zpos my') with (Zpos (ma + my')).
  unfold binary_normalize.
  destruct (binary_round_le (ma + my') ez (-46 - ez) (3 * 2 ^ (- ez)) (120 * 2 ^ (- ez)))
    as (mu & eu & Eu & Heu & Hvu); try lia.
  { rewrite Pos2Z.inj_add. replace (53 + (-46 - ez)) with (7 + - ez) by lia.
    rewrite Z.pow_add_r by lia. change (2 ^ 7) with 128. lia. }
  { exists (3 * 2 ^ 46). rewrite <- Z.mul_assoc, <- Z.pow_add_r by lia.
    do 2 f_equal. lia. }
  { exists (120 * 2 ^ 46). rewrite <- Z.mul_assoc, <- Z.pow_add_r by lia.
    do 2 f_equal. lia. }
  exists mu, eu. split; [exact Eu|]. split; [lia|].
  assert (Hpow : 2 ^ (- ez) * 2 ^ 53 = 2 ^ (- eu) * 2 ^ (eu - ez + 53)).
  { rewrite <- !Z.pow_add_r by lia. f_equal. lia. }
  rewrite <- !Z.mul_assoc, Hpow, !Z.mul_assoc in Hvu.
  destruct Hvu as [Hl Hu].
  split; eapply mul_cancel_pow with (q := eu - ez + 53); try lia; eassumption.
Qed.

Lemma choices_index_float (k : Z) :
  0 <= k < 2 ^ 53 ->
  exists i, py_floor (F64.mul (F64.of_scaled k (-53)) (F64.of_Z 16)) = Ok i
            /\ 0 <= i < 16.
Proof.
  intros Hk.
  change (F64.of_Z 16) with (S754_finite false 4503599627370496 (-48)).
  destruct (random_float k Hk) as [[-> ->]|(mr & er & -> & Her & Hvr)].
  { exists 0. split; [reflexivity|lia]. }
  unfold F64.mul, SFmul, F64.prec, F64.emax. simpl xorb.
  pose proof (pow2_pos (er + 106) ltac:(lia)) as Hp1.
  pose proof (pow2_pos (- 1 - er) ltac:(lia)) as Hp2.
  (* the product is k * 2^(-1-er) at exponent er - 48 *)
  assert (Emx : Zpos (mr * 4503599627370496) = k * 2 ^ (- 1 - er)).
  { rewrite Pos2Z.inj_mul.
    apply Z.mul_reg_r with (p := 2 ^ (er + 106)); [lia|].
    rewrite <- (Z.mul_assoc k), <- Z.pow_add_r by lia.
    replace (- 1 - er + (er + 106)) with 105 by lia.
    change (2 ^ 105) with (2 ^ 53 * 4503599627370496).
    rewrite Z.mul_assoc, <- Hvr. ring. }
  destruct (binary_round_aux_le (mr * 4503599627370496) (er + -48) (- 1 - er)
              (k * 2 ^ (- 1 - er)) (k * 2 ^ (- 1 - er)))
    as (m & e & E & He & Hv); try lia.
  { rewrite Emx, Z.pow_add_r by lia. apply Z.mul_lt_mono_pos_r; lia. }
  { apply Z.divide_factor_r. }
  { apply Z.divide_factor_r. }
  rewrite E. unfold py_floor.
  replace (0 <=? e) with false by (symmetry; apply Z.leb_gt; lia).
  eexists. split; [reflexivity|].
  pose proof (pow2_pos (- e) ltac:(lia)) as Hpe.
  split; [apply Z.div_pos; lia|].
  apply Z.div_lt_upper_bound; [lia|].
  (* m * 2^(e - ex) = k * 2^N < 2^(53 + N) *)
  apply Z.mul_lt_mono_pos_r with (p := 2 ^ (e - (er + -48))); [apply pow2_pos; lia|].
  replace (Zpos m * 2 ^ (e - (er + -48))) with (k * 2 ^ (- 1 - er)) by lia.
  assert (Hrhs : 2 ^ (- e) * 16 * 2 ^ (e - (er + -48)) = 2 ^ 53 * 2 ^ (- 1 - er)).
  { replace (2 ^ (- e) * 16 * 2 ^ (e - (er + -48)))
      with (16 * (2 ^ (- e) * 2 ^ (e - (er + -48)))) by ring.
    rewrite <- Z.pow_add_r by lia.
    replace (- e + (e - (er + -48))) with (49 + (- 1 - er)) by lia.
    rewrite Z.pow_add_r by lia. change (2 ^ 53) with (16 * 2 ^ 49). ring. }
  rewrite Hrhs. apply Z.mul_lt_mono_pos_r; lia.
Qed.

Lemma all_from_spec (f : Z -> bool) (n : nat) :
  forall lo, all_from f lo n = true ->
  forall c, lo <= c < lo + Z.of_nat n -> f c = true.
Proof.
  induction n as [|n IH]; intros lo H c Hc; [lia|].
  simpl in H. apply andb_true_iff in H as [H0 H1].
  destruct (Z.eq_dec c lo) as [->|Hne]; [exact H0|].
  apply (IH (lo + 1) H1). lia.
Qed.

Lemma cents_table : all_from cents_checked 300 (Z.to_nat 11701) = true.
Proof. vm_compute. reflexivity. Qed.

Lemma cents_between (m : positive) (e : Z) :
  e < 0 -> 3 * 2 ^ (- e) <= Zpos m <= 120 * 2 ^ (- e) ->
  300 <= cents m e <= 12000.
Proof.
  intros He [Hl Hu]. unfold cents.
  replace (0 <=? e) with false by (symmetry; apply Z.leb_gt; lia).
  pose proof (pow2_pos (- e) ltac:(lia)) as HD.
  set (D := 2 ^ (- e)) in *.
  unfold div_half_even.
  pose proof (Z.div_mod (100 * Zpos m) D ltac:(lia)) as Hdm.
  pose proof (Z.mod_pos_bound (100 * Zpos m) D HD) as Hmb.
  set (q := 100 * Zpos m / D) in *. set (r := (100 * Zpos m) mod D) in *.
  assert (Hq : 300 <= q) by (apply Z.div_le_lower_bound; lia).
  assert (Hq' : q < 12000 \/ (q = 12000 /\ r = 0)) by nia.
  destruct (2 * r ?= D) eqn:C.
  - apply Z.compare_eq in C. destruct (Z.even q); lia.
  - lia.
  - apply Z.compare_gt_iff in C. lia.
Qed.

(** ** Synthetic generator *)

Section GeneratorFacts.
Context {B : PyBuiltins} {R : PyRandom}.

Lemma succeeds_ret {A : Type} (a : A) (P : A -> Prop) : P a -> succeeds (ret a) P.
Proof. intros H g. exists a, g. now split. Qed.

Lemma succeeds_bind {A C : Type} (m : Rand A) (k : A -> Rand C)
      (P : A -> Prop) (Q : C -> Prop) :
  succeeds m P -> (forall a, P a -> succeeds (k a) Q) -> succeeds (bind m k) Q.
Proof.
  intros Hm Hk g. destruct (Hm g) as (a & g1 & E & Ha).
  destruct (Hk a Ha g1) as (c & g2 & E2 & Hc).
  exists c, g2. unfold bind. rewrite E. now split.
Qed.

Lemma succeeds_weaken {A : Type} (m : Rand A) (P Q : A -> Prop) :
  succeeds m P -> (forall a, P a -> Q a) -> succeeds m Q.
Proof.
  intros Hm HPQ g. destruct (Hm g) as (a & g' & E & Ha). exists a, g'. auto.
Qed.

Lemma succeeds_lift {A : Type} (r : result A) (a : A) (P : A -> Prop) :
  r = Ok a -> P a -> succeeds (lift r) P.
Proof. intros -> H g. exists a, g. now split. Qed.

(** One step of a computation, by the lemma about what it runs first. *)
Ltac draw H := eapply succeeds_bind; [apply H|].

Lemma succeeds_random :
  succeeds random (fun r => exists k, 0 <= k < 2 ^ 53 /\ r = F64.of_scaled k (-53)).
Proof.
  intros g. unfold random. pose proof (rng_bits53_range g) as H.
  destruct (rng_bits53 g) as [k g']. simpl in H. exists (F64.of_scaled k (-53)), g'.
  split; [reflexivity|]. now exists k.
Qed.

Lemma succeeds_randbelow (n : Z) :
  0 < n -> succeeds (randbelow n) (fun i => 0 <= i < n).
Proof.
  intros Hn g. unfold randbelow. pose proof (rng_randbelow_range n g Hn) as H.
  destruct (rng_randbelow n g) as [i g']. simpl in H. exists i, g'. now split.
Qed.

Lemma succeeds_randint (a b : Z) :
  a <= b -> succeeds (randint a b) (fun i => a <= i <= b).
Proof.
  intros Hab. unfold randint.
  replace (0 <? b + 1 - a) with true by (symmetry; apply Z.ltb_lt; lia).
  eapply succeeds_bind; [apply succeeds_randbelow; lia|].
  intros i Hi. cbv beta in Hi. apply succeeds_ret. lia.
Qed.

Lemma succeeds_uniform_3_120 :
  succeeds (uniform (F64.of_Z 3) (F64.of_Z 120)) (between 3 120).
Proof.
  unfold uniform. draw succeeds_random.
  intros r (k & Hk & ->). apply succeeds_ret. now apply uniform_3_120_float.
Qed.

Lemma succeeds_uniform (a b : float) : succeeds (uniform a b) (fun _ => True).
Proof.
  unfold uniform. draw succeeds_random.
  intros r _. now apply succeeds_ret.
Qed.

Lemma succeeds_choices_hex (k : nat) :
  succeeds (choices (chars_of "0123456789abcdef") k) (fun _ => True).
Proof.
  induction k as [|k IH]; simpl choices; [now apply succeeds_ret|].
  draw succeeds_random.
  intros r (n & Hn & ->).
  destruct (choices_index_float n Hn) as (i & Ei & Hi).
  eapply succeeds_bind.
  { apply (succeeds_lift _ i (fun j => 0 <= j < 16)); [exact Ei|exact Hi]. }
  intros j Hj. cbv beta in Hj.
  destruct (list_item_In (chars_of "0123456789abcdef") j) as (c & Ec & _);
    [simpl; lia|].
  eapply succeeds_bind.
  { apply (succeeds_lift _ c (fun _ => True)); [exact Ec|exact I]. }
  intros c' _. eapply succeeds_bind; [exact IH|].
  intros rest _. now apply succeeds_ret.
Qed.

Lemma succeeds_rand_instance_id : succeeds _rand_instance_id (fun _ => True).
Proof.
  unfold _rand_instance_id. draw succeeds_choices_hex.
  intros cs _. now apply succeeds_ret.
Qed.

Lemma succeeds_pick_instance_type :
  succeeds _pick_instance_type
           (fun t => exists fam size,
                t = fam ++ "." ++ size /\ no_dot fam = true /\ no_dot size = true).
Proof.
  intros g. destruct (pick_in_catalog g) as (fam & sizes & size & g' & E & _ & _ & Hc).
  exists (fam ++ "." ++ size), g'. split; [exact E|].
  exists fam, size. split; [reflexivity|].
  unfold catalog_entry_ok in Hc. repeat (apply andb_true_iff in Hc as [Hc ?]).
  now split.
Qed.

Lemma succeeds_smaller_type (fam size : string) :
  no_dot fam = true -> no_dot size = true ->
  succeeds (_smaller_type (fam ++ "." ++ size)) (fun _ => True).
Proof.
  intros Hf Hs g.
  destruct (ladder_try size) as (size' & Htry & _).
  destruct (smaller_type_run fam size size' g Hf Hs Htry) as (fam' & g' & E & _).
  eauto.
Qed.

(** [round(u, 2)] of a draw between 3 and 120 is the float nearest to a
    whole number of cents between 300 and 12000. *)
Lemma round2_between (u : float) :
  between 3 120 u ->
  exists c, 300 <= c <= 12000 /\ round2 u = of_cents false c
            /\ cents_checked c = true.
Proof.
  intros (m & e & -> & He & Hb). unfold round2.
  replace (0 <=? e) with false by (symmetry; apply Z.leb_gt; lia).
  pose proof (cents_between m e He Hb) as Hc.
  exists (cents m e). split; [lia|]. split; [reflexivity|].
  apply (all_from_spec cents_checked _ 300 cents_table).
  rewrite Z2Nat.id; lia.
Qed.

(** A float that keeps [c] as its hundredths is left as it is by
    [round(x, 2)]. *)
Lemma round2_of_cents (c : Z) :
  cents_checked c = true -> round2 (of_cents false c) = of_cents false c.
Proof.
  unfold cents_checked. cbv zeta. intros H.
  repeat (apply andb_true_iff in H as [H _]).
  destruct (of_cents false c) as [| | |[|] m e] eqn:E; try discriminate.
  apply andb_true_iff in H as [He Hc].
  apply Z.ltb_lt in He. apply Z.eqb_eq in Hc.
  unfold round2.
  replace (0 <=? e) with false by (symmetry; apply Z.leb_gt; lia).
  now rewrite Hc.
Qed.

(** One turn of the loop appends one record and adds its amount to the
    total: the draw between 3.0 and 120.0, rounded to two decimals. *)
Lemma succeeds_synthetic_rec (recs : list pyval) (total : float) :
  succeeds (synthetic_rec (recs, total))
           (fun st => exists r s, st = ((recs ++ [r])%list, F64.add total s)
                                  /\ rounded_amount r s).
Proof.
  unfold synthetic_rec.
  draw succeeds_pick_instance_type.
  intros t (fam & size & -> & Hf & Hs).
  eapply succeeds_bind; [now apply succeeds_smaller_type|].
  intros target _.
  draw succeeds_random.
  intros r _.
  draw succeeds_uniform_3_120.
  intros u Hu.
  destruct (round2_between u Hu) as (c & Hc & Er & Hck).
  pose proof (round2_of_cents c Hck) as Hfix.
  unfold cents_checked in Hck. cbv zeta in Hck.
  apply andb_true_iff in Hck as [Hck Hfmt]. apply andb_true_iff in Hck as [Hck Hhi].
  apply andb_true_iff in Hck as [_ Hlo].
  apply String.eqb_eq in Hfmt.
  assert (Hamt : forall r0,
             ce_amount r0 = Ok (PStr (format_2f (round2 u))) ->
             rounded_amount r0 (round2 u)).
  { intros r0 E0. exists u, c. rewrite Er in *. repeat split; auto; lia. }
  destruct (String.eqb _ "Modify").
  - draw succeeds_rand_instance_id. intros id _.
    eapply succeeds_bind; [apply succeeds_randint; lia|]. intros k _.
    apply succeeds_ret. eexists _, (round2 u). split; [reflexivity|].
    apply Hamt. reflexivity.
  - draw succeeds_rand_instance_id. intros id _.
    eapply succeeds_bind; [apply succeeds_randint; lia|]. intros k _.
    apply succeeds_ret. eexists _, (round2 u). split; [reflexivity|].
    apply Hamt. reflexivity.
Qed.

(** The loop appends [n] records and adds their amounts to the total in
    the order of the records. *)
Lemma succeeds_repeat_rec (n : nat) :
  forall recs total,
    succeeds (repeat_rec n (recs, total))
             (fun st => exists new amounts,
                  st = ((recs ++ new)%list, fold_left F64.add amounts total)
                  /\ List.length new = n
                  /\ Forall2 rounded_amount new amounts).
Proof.
  induction n as [|n IH]; intros recs total; simpl repeat_rec.
  - apply succeeds_ret. exists [], []. simpl. rewrite app_nil_r. auto.
  - draw succeeds_synthetic_rec.
    intros st (r & s & -> & Hr).
    eapply succeeds_weaken; [apply IH|].
    intros st (new & amounts & -> & Hlen & Hall).
    exists (r :: new), (s :: amounts). rewrite <- app_assoc. simpl.
    repeat split; auto.
Qed.

Lemma hex_value_of_digit (c : ascii) :
  is_hex_digit c = true -> exists d, hex_value c = Some d.
Proof.
  unfold is_hex_digit, hex_value. cbv zeta. intros H.
  destruct ((48 <=? _) && (_ <=? 57))%bool; [eauto|].
  simpl in H. rewrite H. eauto.
Qed.

Lemma hex_digits_total (s : string) :
  all_chars is_hex_digit s = true -> forall acc, exists n, hex_digits s acc = Some n.
Proof.
  induction s as [|c s IH]; simpl; intros H acc; [eauto|].
  apply andb_true_iff in H as [Hc Hs].
  destruct (hex_value_of_digit c Hc) as [d ->]. now apply IH.
Qed.

Lemma all_chars_substring (p : ascii -> bool) (s : string) :
  all_chars p s = true -> forall n m, all_chars p (substring n m s) = true.
Proof.
  induction s as [|c s IH]; intros H n m.
  - destruct n, m; reflexivity.
  - simpl in H. apply andb_true_iff in H as [Hc Hs].
    destruct n as [|n]; simpl.
    + destruct m as [|m]; simpl; [reflexivity|]. now rewrite Hc, IH.
    + now apply IH.
Qed.

(** The first sixteen digits of a hex digest always read as an integer. *)
Lemma daily_seed_ok (now : datetime) : exists seed, _daily_seed now = Ok seed.
Proof.
  unfold _daily_seed, int_base16.
  pose proof (sha256_hexdigest_length (strftime_Ymd now)) as Hlen.
  pose proof (sha256_hexdigest_hex (strftime_Ymd now)) as Hhex.
  destruct (hex_digits_total _ (all_chars_substring _ _ Hhex 0%nat 16%nat) 0) as [n Hn].
  rewrite Hn.
  destruct (sha256_hexdigest (strftime_Ymd now)) as [|c h]; [discriminate|].
  simpl. eauto.
Qed.

(** The generator never raises. *)
Lemma gen_synthetic_recs_returns (now : datetime) (g : rng) :
  exists summary recs g', _gen_synthetic_recs now g = Ok (summary, recs, g').
Proof.
  unfold _gen_synthetic_recs.
  destruct (daily_seed_ok now) as [seed ->].
  match goal with |- context [?m (rng_seed seed)] =>
    assert (H : succeeds m (fun _ => True))
  end.
  { eapply succeeds_bind; [apply (succeeds_randint 2 5); lia|].
    intros n _.
    draw succeeds_repeat_rec.
    intros [recs total] _.
    draw succeeds_uniform.
    intros p _. now apply succeeds_ret. }
  destruct (H (rng_seed seed)) as ([summary recs] & g' & E & _). eauto.
Qed.

(** C6: every run of the generator returns between 2 and 5 records.  The
    monthly savings the code keeps for each record are the draw between
    3.0 and 120.0 after [round(..., 2)]: the float nearest to a whole
    number of cents between 3.00 and 120.00, which rounding to two
    decimals leaves as it is; the record prints it with exactly two
    decimals, and the total of the summary is the float sum of these
    rounded amounts, in the order of the records. *)
Theorem synthetic_count_and_amounts (now : datetime) (g : rng) :
  exists summary recs g' amounts,
    _gen_synthetic_recs now g = Ok (summary, recs, g')
    /\ 2 <= Z.of_nat (List.length recs) <= 5
    /\ Forall2 rounded_amount recs amounts
    /\ py_get summary "TotalEstimatedMonthlySavingsAmount" PNone
       = Ok (PStr (format_2f (fold_left F64.add amounts F64.zero))).
Proof.
  unfold _gen_synthetic_recs.
  destruct (daily_seed_ok now) as [seed ->].
  match goal with |- context [?m (rng_seed seed)] =>
    assert (H : succeeds m (fun sr =>
      exists amounts,
        2 <= Z.of_nat (List.length (snd sr)) <= 5
        /\ Forall2 rounded_amount (snd sr) amounts
        /\ py_get (fst sr) "TotalEstimatedMonthlySavingsAmount" PNone
           = Ok (PStr (format_2f (fold_left F64.add amounts F64.zero)))))
  end.
  { eapply succeeds_bind; [apply (succeeds_randint 2 5); lia|].
    intros n Hn. cbv beta in Hn.
    draw succeeds_repeat_rec.
    intros st (new & amounts & -> & Hlen & Hall).
    draw succeeds_uniform.
    intros p _. apply succeeds_ret. exists amounts. simpl.
    split; [lia|]. split; [exact Hall|reflexivity]. }
  destruct (H (rng_seed seed)) as ([summary recs] & g' & E & amounts & Hlen & Hall & Ht).
  exists summary, recs, g', amounts. split; [exact E|]. now repeat split.
Qed.

(** X1, the determinism half of C3: two runs whose clock readings fall on
    the same calendar date return the same summary, the same records and
    the same final generator state, whatever the time of day and whatever
    state the generator was left in. *)
Lemma synthetic_same_date (now1 now2 : datetime) (g1 g2 : rng) :
  year now1 = year now2 -> month now1 = month now2 -> day now1 = day now2 ->
  _gen_synthetic_recs now1 g1 = _gen_synthetic_recs now2 g2.
Proof.
  intros Hy Hm Hd. unfold _gen_synthetic_recs, _daily_seed, strftime_Ymd.
  rewrite Hy, Hm, Hd. reflexivity.
Qed.

End GeneratorFacts.

Lemma synthetic_count_run :
  exists summary recs g' amounts,
    @_gen_synthetic_recs simple_builtins lcg_random noon 0 = Ok (summary, recs, g')
    /\ 2 <= Z.of_nat (List.length recs) <= 5
    /\ Forall2 rounded_amount recs amounts
    /\ py_get summary "TotalEstimatedMonthlySavingsAmount" PNone
       = Ok (PStr (format_2f (fold_left F64.add amounts F64.zero))).
Proof. exact (@synthetic_count_and_amounts simple_builtins lcg_random noon 0). Defined.

(** ** Compute-Optimizer fetcher *)

(** C8 (amended): when the pages were fetched and the enrollment-status
    call fails with a botocore [ClientError], the fetch still returns and
    its summary carries the status ["Unknown"]; any other exception of
    that call is not caught and is raised by the fetch. *)
Theorem enrollment_status_failure (w : World) (fuel : nat) (recs : list pyval) (e : exn) :
  co_pages w fuel PNone [] = Some (Ok recs) ->
  co_get_enrollment_status w = Raise e ->
  _fetch_co_rightsizing w fuel =
  Some (if is_ClientError e
        then Ok (PDict [("compute_optimizer_enrollment_status", PStr "Unknown")], recs)
        else Raise e).
Proof.
  intros Hp He. unfold _fetch_co_rightsizing, co_status. rewrite Hp, He. simpl.
  destruct (is_ClientError e); reflexivity.
Qed.

Lemma enrollment_status_failure_witness :
  let w := with_enrollment quiet_world (Raise (ClientError "AccessDeniedException")) in
  _fetch_co_rightsizing w 1 =
  Some (Ok (PDict [("compute_optimizer_enrollment_status", PStr "Unknown")], [])).
Proof.
  cbv zeta.
  apply (enrollment_status_failure
           (with_enrollment quiet_world (Raise (ClientError "AccessDeniedException")))
           1 [] (ClientError "AccessDeniedException")); reflexivity.
Defined.

(** C8, as stated, fails: the status call cannot reach its endpoint, which
    is no [ClientError], and the fetch raises instead of returning
    ["Unknown"]. *)
Lemma enrollment_status_failure_propagates :
  _fetch_co_rightsizing
    (with_enrollment quiet_world (Raise (BotoCoreError "EndpointConnectionError"))) 1
  = Some (Raise (BotoCoreError "EndpointConnectionError")).
Proof. reflexivity. Qed.

(** ** Fallback orchestrator *)

Section Orchestrator.
Context {B : PyBuiltins} {R : PyRandom}.

Lemma synthesize_spec (w : World) (g : rng) (running : bool) :
  _any_running_instances w = Ok running ->
  synthesize w g =
  match _gen_synthetic_recs (now_seed w) g with
  | Ok (summary, recs, _) => Ok ("synthetic", summary, recs)
  | Raise e => Raise e
  end.
Proof.
  intros H. unfold synthesize. rewrite H. simpl. now destruct running.
Qed.

Lemma payload_of_make (w : World) (fuel : nat) (g : rng) (p : pyval) :
  payload_of w fuel g = Some (Ok p) ->
  exists source summary recs,
    choose_source w fuel g = Some (Ok (source, summary, recs))
    /\ p = make_payload w source summary recs.
Proof.
  unfold payload_of.
  destruct (choose_source w fuel g) as [[[[source summary] recs]|e]|]; try discriminate.
  intros H. injection H as <-. eauto.
Qed.

Lemma payload_fields (w : World) (source : string) (summary : pyval) (recs : list pyval) :
  let p := make_payload w source summary recs in
  py_get p "source" PNone = Ok (PStr source)
  /\ py_get p "recommendation_target" PNone
     = Ok (if String.eqb source "cost-explorer" then PStr RECOMMENDATION_TARGET else PNone)
  /\ py_get p "benefits_considered" PNone
     = Ok (if String.eqb source "cost-explorer" then PBool BENEFITS_CONSIDERED else PNone).
Proof. repeat split. Qed.

Lemma gated_fails (fetched : result (pyval * list pyval))
      (aggregate : list pyval -> result float) (msg : string) :
  attempt_fails fetched aggregate -> exists e, gated fetched aggregate msg = Raise e.
Proof.
  intros [[e ->]|[(summary & recs & e & -> & Ha)|(summary & recs & total & -> & Ha & Hl)]];
    unfold gated; simpl.
  - eauto.
  - rewrite Ha. simpl. eauto.
  - rewrite Ha. simpl. rewrite Hl. eauto.
Qed.

(** C5: when the cost-explorer fetch returns and its aggregate equals the
    threshold exactly, the orchestrator ends with the source
    ["cost-explorer"]; the gate of step 1 lets the fetch through exactly
    when the aggregate is not strictly below the threshold. *)
Theorem threshold_boundary_is_sufficient
        (w : World) (fuel : nat) (g : rng) (summary : pyval) (recs : list pyval)
        (total : float) :
  _fetch_ce_rightsizing w fuel = Some (Ok (summary, recs)) ->
  _sum_ce_savings recs = Ok total ->
  (total = MIN_SAVINGS ->
   choose_source w fuel g = Some (Ok ("cost-explorer", summary, recs)))
  /\ (choose_source w fuel g = Some (Ok ("cost-explorer", summary, recs))
      <-> F64.ltb total MIN_SAVINGS = false).
Proof.
  intros Hf Hs.
  assert (Hge : F64.ltb total MIN_SAVINGS = false ->
                choose_source w fuel g = Some (Ok ("cost-explorer", summary, recs))).
  { intros Hl. unfold choose_source, gated. rewrite Hf. simpl. rewrite Hs. simpl.
    now rewrite Hl. }
  split; [intros ->; apply Hge; reflexivity|].
  split; [|exact Hge].
  destruct (F64.ltb total MIN_SAVINGS) eqn:Hl; [|reflexivity].
  unfold choose_source, gated. rewrite Hf. simpl. rewrite Hs. simpl. rewrite Hl.
  destruct (_fetch_co_rightsizing w fuel) as [co|]; [|discriminate].
  match goal with |- context [match ?x with Ok _ => _ | Raise _ => _ end] =>
    destruct x as [[s r]|] end.
  - discriminate.
  - unfold synthesize. destruct (_any_running_instances w) as [b|]; [|discriminate].
    simpl. destruct (negb b);
      destruct (_gen_synthetic_recs (now_seed w) g) as [[[s r] g']|]; discriminate.
Qed.

(** C4 (amended): when both real fetch attempts fail, by raising or by an
    aggregate below the threshold, and the liveness probe returns, the
    orchestrator assembles an envelope with the source ["synthetic"] and
    [None] in [recommendation_target] and [benefits_considered]; when the
    probe raises instead, the invocation raises the same exception, no
    envelope is assembled and nothing is stored.  No envelope assembled
    after two failed attempts has another source, and in every invocation
    the two fields are populated only when the source is
    ["cost-explorer"]. *)
Theorem both_fetches_fail_synthetic
        (w : World) (fuel : nat) (g : rng) (ce co : result (pyval * list pyval)) :
  _fetch_ce_rightsizing w fuel = Some ce -> attempt_fails ce _sum_ce_savings ->
  _fetch_co_rightsizing w fuel = Some co -> attempt_fails co _sum_co_savings ->
  (forall running, _any_running_instances w = Ok running ->
     exists p, payload_of w fuel g = Some (Ok p)
       /\ py_get p "source" PNone = Ok (PStr "synthetic")
       /\ py_get p "recommendation_target" PNone = Ok PNone
       /\ py_get p "benefits_considered" PNone = Ok PNone)
  /\ (forall e, _any_running_instances w = Raise e ->
        payload_of w fuel g = Some (Raise e)
        /\ lambda_handler w fuel g = Some ([], Raise e))
  /\ (forall p, payload_of w fuel g = Some (Ok p) ->
        py_get p "source" PNone = Ok (PStr "synthetic")
        /\ py_get p "recommendation_target" PNone = Ok PNone
        /\ py_get p "benefits_considered" PNone = Ok PNone)
  /\ (forall (w' : World) (fuel' : nat) (g' : rng) (p : pyval),
        payload_of w' fuel' g' = Some (Ok p) ->
        py_get p "recommendation_target" PNone <> Ok PNone
        \/ py_get p "benefits_considered" PNone <> Ok PNone ->
        py_get p "source" PNone = Ok (PStr "cost-explorer")).
Proof.
  intros Hce Hcef Hco Hcof.
  destruct (gated_fails ce _sum_ce_savings "CE savings below threshold" Hcef) as [e1 E1].
  destruct (gated_fails co _sum_co_savings "CO savings below threshold" Hcof) as [e2 E2].
  assert (Hc : choose_source w fuel g = Some (synthesize w g)).
  { unfold choose_source. now rewrite Hce, E1, Hco, E2. }
  assert (Hany : forall p, payload_of w fuel g = Some (Ok p) ->
             py_get p "source" PNone = Ok (PStr "synthetic")
             /\ py_get p "recommendation_target" PNone = Ok PNone
             /\ py_get p "benefits_considered" PNone = Ok PNone).
  { intros p Hp.
    destruct (payload_of_make w fuel g p Hp) as (source & summary & recs & Hs & ->).
    rewrite Hc in Hs. injection Hs as Hs.
    assert (source = "synthetic") as ->; [|repeat split].
    unfold synthesize in Hs.
    destruct (_any_running_instances w) as [running|e]; [|discriminate].
    simpl in Hs.
    destruct (negb running);
      destruct (_gen_synthetic_recs (now_seed w) g) as [[[s r] g0]|e];
      congruence. }
  split; [|split; [|split]].
  - intros running Hrun.
    assert (Hp : exists p, payload_of w fuel g = Some (Ok p)).
    { unfold payload_of. rewrite Hc.
      rewrite (synthesize_spec w g running Hrun).
      destruct (gen_synthetic_recs_returns (now_seed w) g) as (summary & recs & g' & ->).
      eauto. }
    destruct Hp as [p Hp]. exists p. split; [exact Hp|]. exact (Hany p Hp).
  - intros e He.
    assert (Hs : synthesize w g = Raise e) by (unfold synthesize; now rewrite He).
    unfold payload_of, lambda_handler. rewrite Hc, Hs. now split.
  - exact Hany.
  - intros w' fuel' g' p Hp Hne.
    destruct (payload_of_make w' fuel' g' p Hp) as (source & summary & recs & _ & ->).
    destruct (payload_fields w' source summary recs) as (Hs & Ht & Hb).
    rewrite Hs. rewrite Ht, Hb in Hne.
    destruct (String.eqb source "cost-explorer") eqn:E.
    + apply String.eqb_eq in E. now subst.
    + destruct Hne as [Hne|Hne]; now elim Hne.
Qed.

End Orchestrator.

Lemma threshold_boundary_witness :
  @choose_source simple_builtins lcg_random boundary_world 1 0
  = Some (Ok ("cost-explorer",
              PDict [("TotalRecommendationCount", PStr "1")],
              [ce_record "ModifyRecommendationDetail" (PStr "0.01")])).
Proof.
  refine (proj1 (@threshold_boundary_is_sufficient simple_builtins lcg_random
                   boundary_world 1 0 _ _ MIN_SAVINGS _ _) eq_refl);
    vm_compute; reflexivity.
Defined.

Lemma both_fetches_fail_witness :
  exists p,
    @payload_of simple_builtins lcg_random quiet_world 1 0 = Some (Ok p)
    /\ py_get p "source" PNone = Ok (PStr "synthetic")
    /\ py_get p "recommendation_target" PNone = Ok PNone
    /\ py_get p "benefits_considered" PNone = Ok PNone.
Proof.
  assert (Hzero : forall agg : list pyval -> result float,
             agg [] = Ok F64.zero ->
             forall s, attempt_fails (Ok (s, [])) agg).
  { intros agg H s. right; right. exists s, [], F64.zero. repeat split. exact H. }
  pose proof (@both_fetches_fail_synthetic simple_builtins lcg_random quiet_world 1 0
                (Ok (PDict [], []))
                (Ok (PDict [("compute_optimizer_enrollment_status", PStr "Active")], []))
                eq_refl (Hzero _ eq_refl _) eq_refl (Hzero _ eq_refl _)) as (Hex & _).
  exact (Hex false eq_refl).
Defined.

(** Both attempts fail for want of savings, the credentials of the probe
    are missing: [describe_instances] raises an exception that is no
    [ClientError], the probe lets it through, and the invocation ends
    with it; no envelope is assembled, with no source at all. *)
Lemma both_fetches_fail_probe_raises :
  let w := with_ec2 quiet_world (Raise (BotoCoreError "NoCredentialsError")) in
  (exists ce, _fetch_ce_rightsizing w 1 = Some ce
              /\ attempt_fails ce (@_sum_ce_savings simple_builtins))
  /\ (exists co, _fetch_co_rightsizing w 1 = Some co
                 /\ attempt_fails co (@_sum_co_savings simple_builtins))
  /\ @payload_of simple_builtins lcg_random w 1 0
     = Some (Raise (BotoCoreError "NoCredentialsError"))
  /\ @lambda_handler simple_builtins lcg_random w 1 0
     = Some ([], Raise (BotoCoreError "NoCredentialsError")).
Proof.
  assert (Hzero : forall agg : list pyval -> result float,
             agg [] = Ok F64.zero ->
             forall s, attempt_fails (Ok (s, [])) agg).
  { intros agg H s. right; right. exists s, [], F64.zero. repeat split. exact H. }
  cbv zeta. split; [|split; [|split]].
  - eexists. split; [reflexivity|]. now apply Hzero.
  - eexists. split; [reflexivity|]. now apply Hzero.
  - reflexivity.
  - reflexivity.
Qed.

(** ** Report envelope and liveness probe *)

Section Report.
Context {B : PyBuiltins} {R : PyRandom}.

(** The calls [publish] gets through: none, the dated upload, both
    uploads, or both and the invalidation; every upload carries the one
    serialization of the payload. *)
Lemma publish_log (w : World) (source : string) (p : pyval) (items : nat)
      (log : list event) (ret : result pyval) :
  publish w source p items = (log, ret) ->
  (log = [] /\ exists e, ret = Raise e)
  \/ exists body,
      json_dumps p = Ok body
      /\ ((log = [S3Put (dated_key w) body] /\ exists e, ret = Raise e)
          \/ (log = [S3Put (dated_key w) body; S3Put latest_key body]
              /\ exists e, ret = Raise e)
          \/ (log = [S3Put (dated_key w) body; S3Put latest_key body;
                     CFInvalidate ("/" ++ latest_key) ("rightsizing-" ++ uuid4 w)]
              /\ exists v, ret = Ok v)).
Proof.
  unfold publish, _put_json.
  destruct (json_dumps p) as [body|e].
  2:{ intros H. injection H as <- <-. left. eauto. }
  destruct (s3_put_object w (dated_key w) body) as [e|].
  { intros H. injection H as <- <-. left. eauto. }
  destruct (s3_put_object w latest_key body) as [e|].
  { intros H. injection H as <- <-. right. exists body. split; [reflexivity|].
    left. eauto. }
  simpl app.
  destruct (cf_create_invalidation w _ _) as [e|].
  { intros H. injection H as <- <-. right. exists body. split; [reflexivity|].
    right; left. eauto. }
  intros H. injection H as <- <-. right. exists body. split; [reflexivity|].
  right; right. eauto.
Qed.

(** C7 (amended): in every invocation that assembles an envelope, its
    [count] is the length of its [recommendations], and every upload of
    the invocation carries the same body, the serialization of that
    envelope.  An invocation that returns has written it to the dated key
    and to the latest key, and both keys are written whenever the
    envelope serializes and the storage accepts the two uploads.  When
    the serialization or the dated upload raises, nothing is written;
    when the upload to the latest key raises, only the dated key is; in
    each case the invocation raises that exception. *)
Theorem report_envelope_invariant (w : World) (fuel : nat) (g : rng) :
  (forall p, payload_of w fuel g = Some (Ok p) ->
     exists recs,
       py_get p "recommendations" PNone = Ok (PList recs)
       /\ py_get p "count" PNone = Ok (PInt (Z.of_nat (List.length recs))))
  /\ (forall log ret, lambda_handler w fuel g = Some (log, ret) ->
        log = [] \/
        exists p body,
          payload_of w fuel g = Some (Ok p) /\ json_dumps p = Ok body
          /\ (forall key b, In (S3Put key b) log -> b = body)
          /\ In (S3Put (dated_key w) body) log
          /\ ((exists v, ret = Ok v) -> In (S3Put latest_key body) log))
  /\ (forall p body,
        payload_of w fuel g = Some (Ok p) -> json_dumps p = Ok body ->
        s3_put_object w (dated_key w) body = None ->
        s3_put_object w latest_key body = None ->
        exists log ret,
          lambda_handler w fuel g = Some (log, ret)
          /\ In (S3Put (dated_key w) body) log /\ In (S3Put latest_key body) log)
  /\ (forall p e,
        payload_of w fuel g = Some (Ok p) -> json_dumps p = Raise e ->
        lambda_handler w fuel g = Some ([], Raise e))
  /\ (forall p body e,
        payload_of w fuel g = Some (Ok p) -> json_dumps p = Ok body ->
        s3_put_object w (dated_key w) body = Some e ->
        lambda_handler w fuel g = Some ([], Raise e))
  /\ (forall p body e,
        payload_of w fuel g = Some (Ok p) -> json_dumps p = Ok body ->
        s3_put_object w (dated_key w) body = None ->
        s3_put_object w latest_key body = Some e ->
        lambda_handler w fuel g = Some ([S3Put (dated_key w) body], Raise e)).
Proof.
  split; [|split; [|split; [|split; [|split]]]].
  - intros p Hp. destruct (payload_of_make _ _ _ _ Hp) as (source & summary & recs & _ & ->).
    exists recs. split; reflexivity.
  - intros log ret. unfold lambda_handler, payload_of.
    destruct (choose_source w fuel g) as [[[[source summary] recs]|e]|]; try discriminate.
    2:{ intros H. injection H as <- <-. now left. }
    intros H. injection H as H.
    destruct (publish_log _ _ _ _ _ _ H) as [[-> _]|(body & Hb & Hlog)]; [now left|].
    right. exists (make_payload w source summary recs), body.
    split; [reflexivity|]. split; [exact Hb|].
    destruct Hlog as [[-> [e ->]]|[[-> [e ->]]|[-> [v ->]]]].
    + split; [|split].
      * intros key b [Hin|[]]. congruence.
      * now left.
      * intros [v Hv]. discriminate.
    + split; [|split].
      * intros key b [Hin|[Hin|[]]]; congruence.
      * now left.
      * intros _. right. now left.
    + split; [|split].
      * intros key b [Hin|[Hin|[Hin|[]]]]; congruence.
      * now left.
      * intros _. right. now left.
  - intros p body Hp Hb H1 H2. unfold lambda_handler.
    destruct (payload_of_make _ _ _ _ Hp) as (source & summary & recs & Hc & ->).
    rewrite Hc. unfold publish, _put_json.
    rewrite Hb, H1, H2. simpl app.
    destruct (cf_create_invalidation w _ _); do 2 eexists;
      (split; [reflexivity|]); simpl; auto.
  - intros p e Hp Hb. unfold lambda_handler.
    destruct (payload_of_make _ _ _ _ Hp) as (source & summary & recs & Hc & ->).
    rewrite Hc. unfold publish, _put_json. now rewrite Hb.
  - intros p body e Hp Hb H1. unfold lambda_handler.
    destruct (payload_of_make _ _ _ _ Hp) as (source & summary & recs & Hc & ->).
    rewrite Hc. unfold publish, _put_json. now rewrite Hb, H1.
  - intros p body e Hp Hb H1 H2. unfold lambda_handler.
    destruct (payload_of_make _ _ _ _ Hp) as (source & summary & recs & Hc & ->).
    rewrite Hc. unfold publish, _put_json. now rewrite Hb, H1, H2.
Qed.

(** C9: whatever [describe_instances] answers, as long as the probe
    returns a boolean, the synthetic step is the run of the generator
    tagged ["synthetic"], and the synthetic step, the chosen source with
    its summary and records, and the whole invocation are the same for
    both answers: the boolean does not reach the output. *)
Theorem liveness_probe_is_ignored (w : World) (r1 r2 : result pyval) (b1 b2 : bool)
        (fuel : nat) (g : rng) :
  _any_running_instances (with_ec2 w r1) = Ok b1 ->
  _any_running_instances (with_ec2 w r2) = Ok b2 ->
  synthesize (with_ec2 w r1) g
  = match _gen_synthetic_recs (now_seed w) g with
    | Ok (summary, recs, _) => Ok ("synthetic", summary, recs)
    | Raise e => Raise e
    end
  /\ synthesize (with_ec2 w r1) g = synthesize (with_ec2 w r2) g
  /\ choose_source (with_ec2 w r1) fuel g = choose_source (with_ec2 w r2) fuel g
  /\ lambda_handler (with_ec2 w r1) fuel g = lambda_handler (with_ec2 w r2) fuel g.
Proof.
  intros H1 H2.
  split; [exact (synthesize_spec _ _ _ H1)|].
  assert (Hs : synthesize (with_ec2 w r1) g = synthesize (with_ec2 w r2) g).
  { rewrite (synthesize_spec _ _ _ H1), (synthesize_spec _ _ _ H2). reflexivity. }
  assert (Hc : choose_source (with_ec2 w r1) fuel g = choose_source (with_ec2 w r2) fuel g).
  { unfold choose_source.
    change (_fetch_ce_rightsizing (with_ec2 w r1) fuel) with (_fetch_ce_rightsizing w fuel).
    change (_fetch_ce_rightsizing (with_ec2 w r2) fuel) with (_fetch_ce_rightsizing w fuel).
    change (_fetch_co_rightsizing (with_ec2 w r1) fuel) with (_fetch_co_rightsizing w fuel).
    change (_fetch_co_rightsizing (with_ec2 w r2) fuel) with (_fetch_co_rightsizing w fuel).
    rewrite Hs. reflexivity. }
  split; [exact Hs|]. split; [exact Hc|].
  unfold lambda_handler. rewrite Hc. reflexivity.
Qed.

End Report.

Lemma report_envelope_witness :
  exists log v body,
    @lambda_handler simple_builtins lcg_random quiet_world 1 0 = Some (log, Ok v)
    /\ In (S3Put (dated_key quiet_world) body) log
    /\ In (S3Put latest_key body) log
    /\ (forall key b, In (S3Put key b) log -> b = body).
Proof.
  destruct (@lambda_handler simple_builtins lcg_random quiet_world 1 0)
    as [[log [v|e]]|] eqn:E; try (vm_compute in E; discriminate).
  destruct (proj1 (proj2 (@report_envelope_invariant simple_builtins lcg_random
                            quiet_world 1 0)) log (Ok v) E)
    as [Hnil|(p & body & _ & _ & Hsame & Hdated & Hlatest)].
  - subst log. vm_compute in E. discriminate.
  - exists log, v, body. repeat split; eauto.
Defined.

(** The storage refuses to overwrite the latest object: the envelope is
    assembled, with a [count] equal to the number of its records, and
    written to the dated key, but not to the latest key. *)
Lemma latest_upload_refused :
  exists p recs body,
    @payload_of simple_builtins lcg_random latest_refused 1 0 = Some (Ok p)
    /\ py_get p "recommendations" PNone = Ok (PList recs)
    /\ py_get p "count" PNone = Ok (PInt (Z.of_nat (List.length recs)))
    /\ @json_dumps simple_builtins p = Ok body
    /\ @lambda_handler simple_builtins lcg_random latest_refused 1 0
       = Some ([S3Put (dated_key latest_refused) body],
               Raise (ClientError "AccessDenied")).
Proof.
  do 3 eexists.
  split; [|split; [|split; [|split]]]; vm_compute; reflexivity.
Qed.

Lemma liveness_probe_witness :
  _any_running_instances (with_ec2 quiet_world (Ok busy_reservations)) = Ok true
  /\ _any_running_instances (with_ec2 quiet_world (Raise (ClientError "UnauthorizedOperation")))
     = Ok false
  /\ @lambda_handler simple_builtins lcg_random
       (with_ec2 quiet_world (Ok busy_reservations)) 1 0
     = @lambda_handler simple_builtins lcg_random
         (with_ec2 quiet_world (Raise (ClientError "UnauthorizedOperation"))) 1 0.
Proof.
  split; [reflexivity|]. split; [reflexivity|].
  apply (@liveness_probe_is_ignored simple_builtins lcg_random quiet_world
           (Ok busy_reservations) (Raise (ClientError "UnauthorizedOperation"))
           true false 1 0); reflexivity.
Defined.

(** A failure of [describe_instances] that is no [ClientError] is not
    caught by the probe, and from the synthetic step it ends the
    invocation. *)
Example probe_failure_ends_invocation :
  @lambda_handler simple_builtins lcg_random
    (with_ec2 quiet_world (Raise (BotoCoreError "NoCredentialsError"))) 1 0
  = Some ([], Raise (BotoCoreError "NoCredentialsError")).
Proof. reflexivity. Qed.

(** Two concrete runs on the same date, at different times of day and
    from different generator states. *)
Lemma synthetic_same_date_run :
  @_gen_synthetic_recs simple_builtins lcg_random noon 7
  = @_gen_synthetic_recs simple_builtins lcg_random
      {| year := 2024; month := 3; day := 7;
         hour := 23; minute := 59; second := 59; microsecond := 999999 |} 12345.
Proof.
  apply (@synthetic_same_date simple_builtins lcg_random noon
           {| year := 2024; month := 3; day := 7;
              hour := 23; minute := 59; second := 59; microsecond := 999999 |}
           7 12345); reflexivity.
Defined.

(** * Further properties of the code *)

(** ** The seed, instance ids and instance types *)

Lemma hex_value_range (c : ascii) (d : Z) : hex_value c = Some d -> 0 <= d < 16.
Proof.
  unfold hex_value. cbv zeta.
  destruct ((48 <=? _) && (_ <=? 57))%bool eqn:E1.
  { intros H. injection H as <-. apply andb_true_iff in E1 as [H1 H2].
    apply Z.leb_le in H1, H2. lia. }
  destruct ((97 <=? _) && (_ <=? 102))%bool eqn:E2.
  { intros H. injection H as <-. apply andb_true_iff in E2 as [H1 H2].
    apply Z.leb_le in H1, H2. lia. }
  destruct ((65 <=? _) && (_ <=? 70))%bool eqn:E3; [|discriminate].
  intros H. injection H as <-. apply andb_true_iff in E3 as [H1 H2].
  apply Z.leb_le in H1, H2. lia.
Qed.

Lemma hex_digits_bound (s : string) :
  forall acc n, hex_digits s acc = Some n -> 0 <= acc ->
    acc * 16 ^ Z.of_nat (String.length s) <= n
    < (acc + 1) * 16 ^ Z.of_nat (String.length s).
Proof.
  induction s as [|c s IH]; intros acc n H Hacc.
  - simpl in H. injection H as <-. simpl. lia.
  - cbn [hex_digits] in H. destruct (hex_value c) as [d|] eqn:Ed; [|discriminate].
    pose proof (hex_value_range c d Ed) as Hd.
    specialize (IH _ _ H ltac:(lia)).
    change (String.length (String c s)) with (S (String.length s)).
    rewrite Nat2Z.inj_succ, Z.pow_succ_r by lia.
    assert (0 < 16 ^ Z.of_nat (String.length s)) by (apply Z.pow_pos_nonneg; lia).
    nia.
Qed.

Lemma substring_length_le (s : string) :
  forall n m, (String.length (substring n m s) <= m)%nat.
Proof.
  induction s as [|c s IH]; intros n m.
  - destruct n, m; simpl; lia.
  - destruct n as [|n]; simpl.
    + destruct m as [|m]; simpl; [lia|]. specialize (IH 0%nat m). lia.
    + apply IH.
Qed.

Lemma append_length (a b : string) :
  String.length (a ++ b) = (String.length a + String.length b)%nat.
Proof. induction a; simpl; congruence. Qed.

Lemma hex_digits_app (a b : string) :
  forall acc, hex_digits (a ++ b) acc
              = match hex_digits a acc with
                | Some n => hex_digits b n
                | None => None
                end.
Proof.
  induction a as [|c a IH]; intros acc; [reflexivity|].
  cbn [append hex_digits]. destruct (hex_value c); [apply IH|reflexivity].
Qed.

Lemma substring_all (s : string) : substring 0 (String.length s) s = s.
Proof. induction s as [|c s IH]; [reflexivity|]. simpl. now rewrite IH. Qed.

Lemma substring_split (s : string) :
  forall n, (n <= String.length s)%nat ->
    substring 0 n s ++ substring n (String.length s - n) s = s.
Proof.
  induction s as [|c s IH]; intros n Hn.
  - destruct n; [reflexivity|simpl in Hn; lia].
  - destruct n as [|n].
    + change (substring 0 0 (String c s)) with EmptyString.
      rewrite Nat.sub_0_r. apply substring_all.
    + simpl in Hn. simpl. rewrite IH by lia. reflexivity.
Qed.

Section SeedFacts.
Context {B : PyBuiltins}.

(** X2: the daily seed is always computed, and it is the first 64 bits of
    the SHA-256 digest of the date [YYYY-MM-DD]: the digest, read as a
    number of 256 bits, shifted right by 192 bits, which is the value of
    its first sixteen hexadecimal digits; so it is an unsigned 64-bit
    integer. *)
Theorem daily_seed_is_64_bit (now : datetime) :
  exists seed digest,
    _daily_seed now = Ok seed /\ 0 <= seed < 2 ^ 64
    /\ int_base16 (sha256_hexdigest (strftime_Ymd now)) = Ok digest
    /\ 0 <= digest < 2 ^ 256
    /\ seed = Z.shiftr digest 192.
Proof.
  destruct (daily_seed_ok now) as [seed E].
  unfold _daily_seed, int_base16 in E. cbv zeta in E.
  pose proof (sha256_hexdigest_length (strftime_Ymd now)) as Hlen.
  set (h := sha256_hexdigest (strftime_Ymd now)) in *.
  set (h1 := substring 0 16 h) in *. set (h2 := substring 16 (String.length h - 16) h).
  assert (Hh : (h1 ++ h2)%string = h) by (apply substring_split; lia).
  assert (H1 : hex_digits h1 0 = Some seed).
  { destruct h1; [discriminate|]. destruct (hex_digits _ 0); congruence. }
  pose proof (substring_length_le h 0 16) as L1. fold h1 in L1.
  pose proof (substring_length_le h 16 (String.length h - 16)) as L2. fold h2 in L2.
  assert (L : (String.length h1 + String.length h2 = 64)%nat).
  { rewrite <- Hlen, <- Hh. symmetry. apply append_length. }
  assert (L1' : String.length h1 = 16%nat) by lia.
  assert (L2' : String.length h2 = 48%nat) by lia.
  pose proof (hex_digits_bound h1 0 seed H1 ltac:(lia)) as B1.
  rewrite L1' in B1.
  assert (Hex : exists digest, hex_digits h2 seed = Some digest).
  { apply hex_digits_total. unfold h2. apply all_chars_substring.
    apply sha256_hexdigest_hex. }
  destruct Hex as [digest H2].
  pose proof (hex_digits_bound h2 seed digest H2 ltac:(lia)) as B2.
  rewrite L2' in B2.
  assert (Hd : hex_digits h 0 = Some digest).
  { rewrite <- Hh, hex_digits_app, H1. exact H2. }
  change (16 ^ Z.of_nat 16) with (2 ^ 64) in B1.
  change (16 ^ Z.of_nat 48) with (2 ^ 192) in B2.
  exists seed, digest.
  split.
  { unfold _daily_seed, int_base16. cbv zeta. fold h. fold h1. rewrite H1.
    destruct h1; [discriminate|reflexivity]. }
  split; [lia|]. split.
  { unfold int_base16. rewrite Hd. destruct h; [discriminate|reflexivity]. }
  assert (P : 0 < 2 ^ 192) by (apply Z.pow_pos_nonneg; lia).
  split.
  { change (2 ^ 256) with (2 ^ 64 * 2 ^ 192). nia. }
  rewrite Z.shiftr_div_pow2 by lia.
  apply Z.div_unique with (r := digest - seed * 2 ^ 192); lia.
Qed.

End SeedFacts.

Lemma concat_hex (cs : list string) :
  Forall (fun c => In c (chars_of "0123456789abcdef")) cs ->
  String.length (String.concat "" cs) = List.length cs
  /\ all_chars is_hex_digit (String.concat "" cs) = true.
Proof.
  induction 1 as [|c cs Hc _ [IHl IHh]]; [split; reflexivity|].
  assert (Hone : exists a, c = String a EmptyString /\ is_hex_digit a = true).
  { simpl in Hc. repeat (destruct Hc as [<-|Hc]; [eexists; split; reflexivity|]).
    contradiction. }
  destruct Hone as (a & -> & Ha).
  destruct cs as [|c' cs]; [simpl; now rewrite Ha|].
  change (String.concat "" (String a "" :: c' :: cs))
    with (String a (String.concat "" (c' :: cs))).
  split.
  - change (S (String.length (String.concat "" (c' :: cs))) = S (List.length (c' :: cs))).
    now rewrite IHl.
  - change (is_hex_digit a && all_chars is_hex_digit (String.concat "" (c' :: cs)) = true).
    now rewrite Ha, IHh.
Qed.

Section IdFacts.
Context {R : PyRandom}.

Ltac draw H := eapply succeeds_bind; [apply H|].

Lemma succeeds_choices_members (k : nat) :
  succeeds (choices (chars_of "0123456789abcdef") k)
           (fun cs => List.length cs = k
                      /\ Forall (fun c => In c (chars_of "0123456789abcdef")) cs).
Proof.
  induction k as [|k IH]; simpl choices; [apply succeeds_ret; now split|].
  draw succeeds_random.
  intros r (n & Hn & ->).
  destruct (choices_index_float n Hn) as (i & Ei & Hi).
  eapply succeeds_bind.
  { apply (succeeds_lift _ i (fun j => j = i)); [exact Ei|reflexivity]. }
  intros j ->.
  destruct (list_item_In (chars_of "0123456789abcdef") i) as (c & Ec & Hin);
    [simpl; lia|].
  eapply succeeds_bind.
  { apply (succeeds_lift _ c (fun c' => c' = c)); [exact Ec|reflexivity]. }
  intros c' ->. eapply succeeds_bind; [exact IH|].
  intros rest [Hlen Hall]. apply succeeds_ret. split; [simpl; now rewrite Hlen|].
  now constructor.
Qed.

Lemma succeeds_instance_id :
  succeeds _rand_instance_id
           (fun s => exists id, s = "i-" ++ id /\ String.length id = 17%nat
                                /\ all_chars is_hex_digit id = true).
Proof.
  intros g. destruct (succeeds_choices_members 17 g) as (cs & g' & E & Hlen & Hall).
  destruct (concat_hex cs Hall) as [Hl Hh].
  exists ("i-" ++ String.concat "" cs), g'. unfold _rand_instance_id, bind. rewrite E.
  split; [reflexivity|]. exists (String.concat "" cs). split; [reflexivity|].
  split; [congruence|exact Hh].
Qed.

(** X3: an instance id is always produced, and it is [i-] followed by
    seventeen lower-case hexadecimal digits. *)
Theorem rand_instance_id_format (g : rng) :
  exists digits g',
    _rand_instance_id g = Ok ("i-" ++ digits, g')
    /\ String.length digits = 17%nat
    /\ all_chars is_hex_digit digits = true.
Proof.
  destruct (succeeds_instance_id g) as (s & g' & E & id & -> & Hlen & Hhex).
  exists id, g'. auto.
Qed.

End IdFacts.

Lemma split_on_length (c : ascii) (s : string) :
  List.length (split_on c s) = S (occurrences c s).
Proof.
  induction s as [|a s IH]; [reflexivity|].
  simpl. destruct (Ascii.eqb a c); simpl.
  - now rewrite IH.
  - destruct (split_on c s); simpl in *; [discriminate|exact IH].
Qed.

Lemma no_dot_occurrences (s : string) :
  occurrences "." s = O -> no_dot s = true.
Proof.
  unfold no_dot. induction s as [|a s IH]; [reflexivity|].
  simpl. destruct (Ascii.eqb a "."); [discriminate|]. exact IH.
Qed.

Lemma split_one_dot (s : string) :
  occurrences "." s = 1%nat ->
  exists a b, s = a ++ "." ++ b /\ no_dot a = true /\ no_dot b = true.
Proof.
  induction s as [|c s IH]; [discriminate|].
  simpl. destruct (Ascii.eqb c ".") eqn:E.
  - intros H. apply Ascii.eqb_eq in E. subst c.
    exists "", s. repeat split. apply no_dot_occurrences. lia.
  - intros H. destruct (IH H) as (a & b & -> & Ha & Hb).
    exists (String c a), b. repeat split; [|exact Hb].
    unfold no_dot in *. simpl. now rewrite E, Ha.
Qed.

Lemma unpack2_Raise (parts : list string) :
  List.length parts <> 2%nat -> unpack2 parts = Raise ValueError.
Proof.
  destruct parts as [|a [|b [|c parts]]]; simpl; intros H; try reflexivity. lia.
Qed.

Lemma prefix_m6i_not_t3 (fam : string) :
  String.prefix "m6i" fam = true -> String.prefix "t3" fam = false.
Proof.
  destruct fam as [|a fam]; [discriminate|]. cbn [String.prefix].
  destruct (Ascii.ascii_dec "m" a) as [<-|Hn]; [intros _; reflexivity|discriminate].
Qed.

Section SmallerTypeFacts.
Context {R : PyRandom}.

(** X4: the type is split and unpacked before the [try]: on a type that
    does not hold exactly one dot, [_smaller_type] raises [ValueError];
    on a type with exactly one dot it returns. *)
Theorem smaller_type_needs_one_dot (of_type : string) (g : rng) :
  (occurrences "." of_type <> 1%nat -> _smaller_type of_type g = Raise ValueError)
  /\ (occurrences "." of_type = 1%nat ->
      exists target g', _smaller_type of_type g = Ok (target, g')).
Proof.
  split.
  - intros H. unfold _smaller_type, bind, lift.
    rewrite unpack2_Raise; [reflexivity|]. rewrite split_on_length. lia.
  - intros H. destruct (split_one_dot of_type H) as (fam & size & -> & Hf & Hs).
    destruct (ladder_try size) as (new_size & Htry & _).
    destruct (smaller_type_run fam size new_size g Hf Hs Htry) as (fam' & g' & E & _).
    eauto.
Qed.

(** X5: at most one number is drawn to decide the family: an [m6i] family
    is offered as [m7g], and a [t3] family as [t4g], exactly when the draw
    is below 0.5; any other family is kept, and then no number is drawn
    and the generator state is left as it was. *)
Theorem smaller_type_family (fam size : string) (g : rng) :
  no_dot fam = true -> no_dot size = true ->
  exists new_size,
    try_except (ladder_step size) is_ValueError (Ok "small") = Ok new_size
    /\ _smaller_type (fam ++ "." ++ size) g
       = let (k, g') := rng_bits53 g in
         let below_half := F64.ltb (F64.of_scaled k (-53)) (F64.of_scaled 1 (-1)) in
         if String.prefix "m6i" fam
         then Ok ((if below_half then "m7g" else fam) ++ "." ++ new_size, g')
         else if String.prefix "t3" fam
         then Ok ((if below_half then "t4g" else fam) ++ "." ++ new_size, g')
         else Ok (fam ++ "." ++ new_size, g).
Proof.
  intros Hf Hs. destruct (ladder_try size) as (new_size & Htry & _).
  exists new_size. split; [exact Htry|].
  unfold _smaller_type.
  unfold bind at 1. rewrite (split_on_join _ _ Hf Hs). simpl lift at 1. cbv beta iota.
  unfold bind at 1. rewrite Htry. simpl lift. cbv beta iota.
  unfold bind, random, ret.
  destruct (String.prefix "m6i" fam) eqn:E6.
  - destruct (rng_bits53 g) as [k g'].
    destruct (F64.ltb _ _); [reflexivity|].
    now rewrite (prefix_m6i_not_t3 fam E6).
  - destruct (String.prefix "t3" fam).
    + destruct (rng_bits53 g) as [k g']. reflexivity.
    + destruct (rng_bits53 g) as [k g']. reflexivity.
Qed.

End SmallerTypeFacts.

(** ** Decimal numerals, dates and keys *)

Lemma string_of_uint_length (d : Decimal.uint) :
  String.length (NilEmpty.string_of_uint d) = Decimal.nb_digits d.
Proof. induction d; simpl; congruence. Qed.

Lemma of_uint_acc_lower (l : Decimal.uint) :
  forall acc, (Zpos acc * 10 ^ Z.of_nat (Decimal.nb_digits l)
               <= Zpos (Pos.of_uint_acc l acc)).
Proof.
  induction l; intros acc; cbn [Pos.of_uint_acc Decimal.nb_digits];
    [simpl; lia|..];
    rewrite Nat2Z.inj_succ, Z.pow_succ_r by lia;
    (etransitivity; [|apply IHl]);
    pose proof (Z.pow_pos_nonneg 10 (Z.of_nat (Decimal.nb_digits l)) ltac:(lia) ltac:(lia));
    nia.
Qed.

Lemma to_uint_digits (n : N) (k : nat) :
  (1 <= k)%nat -> Z.of_N n < 10 ^ Z.of_nat k ->
  (Decimal.nb_digits (N.to_uint n) <= k)%nat.
Proof.
  intros Hk Hn.
  pose proof (DecimalN.Unsigned.of_to n) as Hof.
  pose proof (DecimalN.Unsigned.to_of (N.to_uint n)) as Hnorm.
  rewrite Hof in Hnorm.
  set (d := N.to_uint n) in *.
  unfold Decimal.unorm in Hnorm.
  destruct (Decimal.nzhead d) eqn:Hz;
    try (rewrite Hnorm; simpl; lia);
    (assert (Hd : d = Decimal.nzhead d) by (rewrite Hz; exact Hnorm));
    rewrite Hz in Hd;
    try (exfalso; eapply DecimalFacts.nzhead_nonzero; exact Hz);
    rewrite Hd in Hof |- *; unfold N.of_uint in Hof; cbn [Pos.of_uint] in Hof;
    cbn [Decimal.nb_digits];
    match type of Hof with N.pos (Pos.of_uint_acc ?l ?a) = _ =>
      pose proof (of_uint_acc_lower l a) as Hlow end;
    rewrite <- Hof in Hn; cbn [Z.of_N] in Hn;
    (assert (Hlt : 10 ^ Z.of_nat (Decimal.nb_digits u) < 10 ^ Z.of_nat k)
       by (pose proof (Z.pow_pos_nonneg 10 (Z.of_nat (Decimal.nb_digits u))
                         ltac:(lia) ltac:(lia)); nia));
    apply Z.pow_lt_mono_r_iff in Hlt; lia.
Qed.

Lemma dec_string (n : Z) : dec n = NilEmpty.string_of_uint (N.to_uint (Z.to_N n)).
Proof.
  unfold dec, NilZero.string_of_uint.
  destruct (N.to_uint (Z.to_N n)) eqn:E; try reflexivity.
  exfalso. destruct (Z.to_N n); [discriminate|].
  simpl in E. eapply DecimalPos.Unsigned.to_uint_nonnil; exact E.
Qed.

Lemma dec_length (n : Z) (k : nat) :
  (1 <= k)%nat -> 0 <= n < 10 ^ Z.of_nat k ->
  (1 <= String.length (dec n) <= k)%nat.
Proof.
  intros Hk Hn. rewrite dec_string, string_of_uint_length. split.
  - destruct (N.to_uint (Z.to_N n)) eqn:E; simpl; try lia.
    exfalso. destruct (Z.to_N n); [discriminate|].
    simpl in E. eapply DecimalPos.Unsigned.to_uint_nonnil; exact E.
  - apply to_uint_digits; [exact Hk|]. rewrite Z2N.id; lia.
Qed.

Lemma zeros_length (k : nat) : String.length (zeros k) = k.
Proof. induction k; simpl; congruence. Qed.

Lemma pad_length (w : nat) (n : Z) :
  (1 <= w)%nat -> 0 <= n < 10 ^ Z.of_nat w -> String.length (pad w n) = w.
Proof.
  intros Hw Hn. unfold pad. rewrite append_length, zeros_length.
  pose proof (dec_length n w Hw Hn). lia.
Qed.

Lemma zeros_string (k : nat) (d : Decimal.uint) :
  zeros k ++ NilEmpty.string_of_uint d = NilEmpty.string_of_uint (Nat.iter k Decimal.D0 d).
Proof. induction k; simpl; congruence. Qed.

Lemma of_uint_zeros (k : nat) (d : Decimal.uint) :
  N.of_uint (Nat.iter k Decimal.D0 d) = N.of_uint d.
Proof. induction k; simpl; auto. Qed.

(** Padding with zeros loses nothing: the number can be read back. *)
Lemma pad_inj (w w' : nat) (n m : Z) :
  0 <= n -> 0 <= m -> pad w n = pad w' m -> n = m.
Proof.
  intros Hn Hm H. unfold pad in H. rewrite !dec_string in H.
  rewrite !zeros_string in H.
  assert (Hu : Some (Nat.iter (w - String.length (NilEmpty.string_of_uint (N.to_uint (Z.to_N n))))
                       Decimal.D0 (N.to_uint (Z.to_N n)))
               = Some (Nat.iter (w' - String.length (NilEmpty.string_of_uint (N.to_uint (Z.to_N m))))
                         Decimal.D0 (N.to_uint (Z.to_N m)))).
  { rewrite <- !NilEmpty.usu. now rewrite H. }
  injection Hu as Hu. apply (f_equal N.of_uint) in Hu.
  rewrite !of_uint_zeros, !DecimalN.Unsigned.of_to in Hu. lia.
Qed.

Lemma append_cancel (a a' b b' : string) :
  String.length a = String.length a' -> a ++ b = a' ++ b' -> a = a' /\ b = b'.
Proof.
  revert a'. induction a as [|c a IH]; intros [|c' a'] Hl H; simpl in *; try discriminate.
  - now split.
  - injection H as -> H. destruct (IH a' ltac:(lia) H) as [-> ->]. now split.
Qed.

Lemma clock_reading_ranges (dt : datetime) :
  clock_reading dt = true ->
  1000 <= year dt <= 9999 /\ 1 <= month dt <= 12 /\ 1 <= day dt <= 31
  /\ 0 <= hour dt <= 23 /\ 0 <= minute dt <= 59 /\ 0 <= second dt <= 59
  /\ 0 <= microsecond dt <= 999999.
Proof.
  unfold clock_reading. intros H.
  repeat (apply andb_true_iff in H as [H ?]).
  repeat match goal with H : (_ <=? _) = true |- _ => apply Z.leb_le in H end.
  lia.
Qed.

Lemma strftime_length (dt : datetime) :
  clock_reading dt = true -> String.length (strftime_Ymd dt) = 10%nat.
Proof.
  intros H. apply clock_reading_ranges in H.
  unfold strftime_Ymd. rewrite !append_length.
  rewrite (pad_length 4), !(pad_length 2); simpl; lia.
Qed.

Lemma strftime_inj (dt1 dt2 : datetime) :
  clock_reading dt1 = true -> clock_reading dt2 = true ->
  strftime_Ymd dt1 = strftime_Ymd dt2 ->
  year dt1 = year dt2 /\ month dt1 = month dt2 /\ day dt1 = day dt2.
Proof.
  intros H1 H2 H. apply clock_reading_ranges in H1, H2.
  unfold strftime_Ymd in H.
  apply append_cancel in H as [Hy H]; [|rewrite !(pad_length 4); simpl; lia].
  apply (append_cancel "-" "-") in H as [_ H]; [|reflexivity].
  apply append_cancel in H as [Hm H]; [|rewrite !(pad_length 2); simpl; lia].
  apply (append_cancel "-" "-") in H as [_ H]; [|reflexivity].
  apply pad_inj in Hy, Hm, H; lia.
Qed.

(** X21: there is one dated object per UTC date: two invocations write
    the same dated key exactly when their clocks show the same date; the
    key is the prefix, a slash, the ten characters of the date and
    [.json], forty characters in all, and it is never the latest key. *)
Theorem dated_key_per_date (w1 w2 : World) :
  clock_reading (now_keys w1) = true -> clock_reading (now_keys w2) = true ->
  (dated_key w1 = dated_key w2
   <-> (year (now_keys w1) = year (now_keys w2)
        /\ month (now_keys w1) = month (now_keys w2)
        /\ day (now_keys w1) = day (now_keys w2)))
  /\ dated_key w1 <> latest_key
  /\ String.length (dated_key w1) = 40%nat
  /\ dated_key w1 = "projects/ec2-rightsizing/" ++ strftime_Ymd (now_keys w1) ++ ".json".
Proof.
  intros H1 H2.
  pose proof (strftime_length _ H1) as L1. pose proof (strftime_length _ H2) as L2.
  assert (E : forall w, dated_key w = "projects/ec2-rightsizing/" ++ strftime_Ymd (now_keys w) ++ ".json")
    by reflexivity.
  split; [|split; [|split]].
  - split.
    + rewrite !E. intros H.
      apply (append_cancel "projects/ec2-rightsizing/" "projects/ec2-rightsizing/") in H
        as [_ H]; [|reflexivity].
      apply append_cancel in H as [H _]; [|congruence].
      now apply strftime_inj.
    + intros (Hy & Hm & Hd). rewrite !E. unfold strftime_Ymd. now rewrite Hy, Hm, Hd.
  - rewrite E. intros H.
    apply (f_equal String.length) in H. rewrite !append_length, L1 in H. discriminate.
  - rewrite E, !append_length, L1. reflexivity.
  - apply E.
Qed.

(** ** Sums of rounded amounts *)

(** A number with at least 53 binary digits rounds to a normal float: the
    mantissa has exactly 53 digits. *)
Lemma binary_round_aux_normal (mx : positive) (ex : Z) :
  let n := Z.max (Zpos (digits2_pos mx) - 53) 0 in
  53 <= Zpos (digits2_pos mx) ->
  -1074 <= Zpos (digits2_pos mx) + ex - 53 ->
  ex + n + 1 <= 971 ->
  forall m e,
    binary_round_aux 53 1024 false (Zpos mx) ex loc_Exact = S754_finite false m e ->
    2 ^ 52 <= Zpos m < 2 ^ 53.
Proof.
  intros n Hd53 Hnorm Hover m e.
  pose proof (digits2_pos_bounds mx) as Hd.
  set (d := Zpos (digits2_pos mx)) in *.
  assert (Hn0 : 0 <= n) by (unfold n; lia).
  assert (Hn : n = d - 53) by (unfold n; lia).
  assert (HT : 0 < 2 ^ n) by (apply Z.pow_pos_nonneg; lia).
  unfold binary_round_aux, shr_fexp. simpl Zdigits2. fold d.
  rewrite (fexp_normal d ex Hnorm).
  pose proof (shr_exact_spec (Zpos mx) ex (d + ex - 53 - ex) ltac:(lia)) as H1.
  destruct (shr (shr_record_of_loc (Zpos mx) loc_Exact) ex (d + ex - 53 - ex)) as [mrs e1].
  replace (Z.max (d + ex - 53 - ex) 0) with n in H1 by (unfold n; lia).
  destruct H1 as (He1 & Hm1 & Hloc).
  set (m1 := shr_m mrs) in *.
  set (m2 := round_nearest_even m1 (loc_of_shr_record mrs)).
  assert (Hm1r : 2 ^ 52 <= m1 < 2 ^ 53).
  { split.
    - rewrite Hm1. apply Z.div_le_lower_bound; [lia|].
      rewrite <- Z.pow_add_r by lia. replace (n + 52) with (d - 1) by lia. lia.
    - rewrite Hm1. apply Z.div_lt_upper_bound; [lia|].
      rewrite <- Z.pow_add_r by lia. replace (n + 53) with d by lia. lia. }
  assert (Hm2 : m1 <= m2 <= m1 + 1).
  { unfold m2. destruct (round_nearest_even_cases m1 (loc_of_shr_record mrs)) as [->|[-> _]];
      lia. }
  assert (Hm2pos : 0 < m2) by lia.
  destruct m2 as [|q|q] eqn:Eq2; try lia.
  pose proof (shr_exact_spec (Zpos q) e1 (fexp 53 1024 (Zdigits2 (Zpos q) + e1) - e1)
                ltac:(lia)) as H2.
  destruct (shr (shr_record_of_loc (Zpos q) loc_Exact) e1
                (fexp 53 1024 (Zdigits2 (Zpos q) + e1) - e1)) as [mrs2 e2].
  destruct H2 as (He2 & Hm3 & _). simpl Zdigits2 in *.
  pose proof (digits2_pos_bounds q) as Hdq.
  set (dq := Zpos (digits2_pos q)) in *.
  destruct (Z.eq_dec (Zpos q) (2 ^ 53)) as [E53|N53].
  - assert (dq = 54).
    { unfold dq. apply digits2_unique. rewrite E53. simpl. lia. }
    rewrite fexp_normal in Hm3 by lia.
    replace (Z.max (dq + e1 - 53 - e1) 0) with 1 in Hm3 by lia.
    assert (Hq3 : shr_m mrs2 = 2 ^ 52) by (rewrite Hm3, E53; reflexivity).
    rewrite Hq3. simpl (2 ^ 52).
    destruct (e2 <=? 1024 - 53); [|discriminate].
    intros Hres. injection Hres as <- _. simpl. lia.
  - assert (dq = 53).
    { unfold dq. apply digits2_unique. simpl Z.sub. lia. }
    rewrite fexp_normal in Hm3 by lia.
    replace (Z.max (dq + e1 - 53 - e1) 0) with 0 in Hm3 by lia.
    rewrite Z.pow_0_r, Z.div_1_r in Hm3. rewrite Hm3.
    destruct (e2 <=? 1024 - 53); [|discriminate].
    intros Hres. injection Hres as <- _. lia.
Qed.

(** [binary_round] pads to 53 digits before it rounds, so its result is
    always normal in this range. *)
Lemma binary_round_normal (mx : positive) (ex : Z) :
  -969 <= ex -> Zpos (digits2_pos mx) + ex <= 1000 ->
  forall m e,
    binary_round 53 1024 false mx ex = S754_finite false m e ->
    2 ^ 52 <= Zpos m < 2 ^ 53.
Proof.
  intros Hex Hover m e. unfold binary_round.
  pose proof (digits2_pos_bounds mx) as Hd.
  set (d := Zpos (digits2_pos mx)) in *.
  assert (Hd1 : 1 <= d) by (unfold d; lia).
  rewrite (fexp_normal d ex) by lia.
  pose proof (shl_align_spec mx ex (d + ex - 53)) as Hs.
  destruct (shl_align mx ex (d + ex - 53)) as [mz ez].
  destruct Hs as [Hez Hmz].
  destruct (Z_lt_le_dec d 53) as [Hsmall|Hbig].
  - assert (Ez : ez = d + ex - 53) by lia.
    assert (Hdz : Zpos (digits2_pos mz) = 53).
    { apply digits2_unique. rewrite Hmz.
      replace (ex - ez) with (53 - d) by lia.
      assert (Hp : 0 < 2 ^ (53 - d)) by (apply Z.pow_pos_nonneg; lia).
      replace (2 ^ (53 - 1)) with (2 ^ (d - 1) * 2 ^ (53 - d))
        by (rewrite <- Z.pow_add_r by lia; f_equal; lia).
      replace (2 ^ 53) with (2 ^ d * 2 ^ (53 - d))
        by (rewrite <- Z.pow_add_r by lia; f_equal; lia).
      split; [apply Z.mul_le_mono_nonneg_r|apply Z.mul_lt_mono_pos_r]; lia. }
    apply binary_round_aux_normal; rewrite Hdz; lia.
  - assert (Ez : ez = ex) by lia. clear Hez. subst ez.
    assert (Emz : mz = mx).
    { replace (ex - ex) with 0 in Hmz by lia.
      rewrite Z.pow_0_r, Z.mul_1_r in Hmz. congruence. }
    subst mz. apply binary_round_aux_normal; fold d; lia.
Qed.

Lemma pow2_lt_inv (a b : Z) : 0 <= b -> 2 ^ a < 2 ^ b -> a < b.
Proof.
  intros Hb H. destruct (Z_lt_le_dec a b) as [|Hge]; [assumption|].
  assert (2 ^ b <= 2 ^ a) by (apply Z.pow_le_mono_r; lia). lia.
Qed.

Lemma add_within (L1 H1 L2 H2 : Z) (t x : float) :
  within L1 H1 t -> within L2 H2 x ->
  2 ^ 44 <= L1 + L2 -> H1 + H2 < 2 ^ 53 ->
  within (L1 + L2) (H1 + H2) (F64.add t x).
Proof.
  intros (m1 & e1 & -> & Hn1 & He1 & Hv1) (m2 & e2 & -> & Hn2 & He2 & Hv2) HL HH.
  unfold F64.add, SFadd, cond_Zopp, F64.prec, F64.emax.
  set (ez := Z.min e1 e2).
  pose proof (shl_align_spec m1 e1 ez) as Ha.
  pose proof (shl_align_spec m2 e2 ez) as Hb.
  destruct (shl_align m1 e1 ez) as [ma ea].
  destruct (shl_align m2 e2 ez) as [mb eb].
  simpl fst. destruct Ha as [Hea Ha]. destruct Hb as [Heb Hb].
  assert (Hez : -51 <= ez <= -43) by (unfold ez; lia).
  replace ea with ez in Ha by (unfold ez; lia).
  replace eb with ez in Hb by (unfold ez; lia).
  clear Hea Heb ea eb.
  assert (Hez1 : 0 <= e1 - ez) by (unfold ez; lia).
  assert (Hez2 : 0 <= e2 - ez) by (unfold ez; lia).
  clearbody ez.
  set (N := - 43 - ez).
  assert (HN : 0 <= N) by (unfold N; lia).
  pose proof (pow2_pos N HN) as HpN.
  pose proof (pow2_pos (e1 - ez) Hez1) as Hp1.
  pose proof (pow2_pos (e2 - ez) Hez2) as Hp2.
  assert (E1 : 2 ^ N = 2 ^ (- 43 - e1) * 2 ^ (e1 - ez)).
  { rewrite <- Z.pow_add_r by lia. f_equal. unfold N. lia. }
  assert (E2 : 2 ^ N = 2 ^ (- 43 - e2) * 2 ^ (e2 - ez)).
  { rewrite <- Z.pow_add_r by lia. f_equal. unfold N. lia. }
  assert (Hma : L1 * 2 ^ N <= Zpos ma <= H1 * 2 ^ N).
  { rewrite Ha, E1, !Z.mul_assoc.
    split; apply Z.mul_le_mono_nonneg_r; lia. }
  assert (Hmb : L2 * 2 ^ N <= Zpos mb <= H2 * 2 ^ N).
  { rewrite Hb, E2, !Z.mul_assoc.
    split; apply Z.mul_le_mono_nonneg_r; lia. }
  change (Zpos ma + Zpos mb) with (Zpos (ma + mb)).
  unfold binary_normalize.
  assert (Hlt : Zpos (ma + mb) < 2 ^ (53 + N)).
  { rewrite Pos2Z.inj_add, Z.pow_add_r by lia. nia. }
  destruct (binary_round_le (ma + mb) ez N ((L1 + L2) * 2 ^ N) ((H1 + H2) * 2 ^ N))
    as (m & e & E & He & Hv); try lia.
  { apply Z.divide_factor_r. }
  { apply Z.divide_factor_r. }
  pose proof (binary_round_normal (ma + mb) ez ltac:(lia)) as Hnorm.
  specialize (Hnorm ltac:(pose proof (digits_le_of_lt (ma + mb) (53 + N) ltac:(lia) Hlt);
                          unfold N in *; lia) m e E).
  exists m, e. split; [exact E|]. split; [exact Hnorm|].
  set (q := e - ez + 53) in *.
  assert (Hq : 0 < q) by (unfold q; lia).
  pose proof (pow2_pos q ltac:(lia)) as Hpq.
  assert (Hup : e <= -43).
  { assert (2 ^ (52 + q) < 2 ^ (106 + N)).
    { rewrite !Z.pow_add_r by lia.
      assert ((H1 + H2) * 2 ^ N * 2 ^ 53 < 2 ^ 53 * 2 ^ N * 2 ^ 53).
      { apply Z.mul_lt_mono_pos_r; [lia|]. apply Z.mul_lt_mono_pos_r; lia. }
      change (2 ^ 106) with (2 ^ 53 * 2 ^ 53).
      apply Z.le_lt_trans with (Zpos m * 2 ^ q);
        [apply Z.mul_le_mono_nonneg_r; lia|lia]. }
    apply pow2_lt_inv in H; [|lia]. unfold q, N in H. lia. }
  assert (Hlo : -51 <= e).
  { assert (2 ^ (97 + N) < 2 ^ (53 + q)).
    { rewrite !Z.pow_add_r by lia.
      assert (2 ^ 44 * 2 ^ N * 2 ^ 53 <= (L1 + L2) * 2 ^ N * 2 ^ 53).
      { apply Z.mul_le_mono_nonneg_r; [lia|]. apply Z.mul_le_mono_nonneg_r; lia. }
      change (2 ^ 97) with (2 ^ 44 * 2 ^ 53).
      apply Z.le_lt_trans with (Zpos m * 2 ^ q);
        [lia|apply Z.mul_lt_mono_pos_r; lia]. }
    apply pow2_lt_inv in H; [|lia]. unfold q, N in H. lia. }
  split; [lia|].
  assert (Epow : 2 ^ N * 2 ^ 53 = 2 ^ (- 43 - e) * 2 ^ q).
  { rewrite <- !Z.pow_add_r by lia. f_equal. unfold N, q. lia. }
  rewrite <- !Z.mul_assoc, Epow, !Z.mul_assoc in Hv.
  destruct Hv as [Hl Hu].
  split; eapply mul_cancel_pow with (q := q); try lia; eassumption.
Qed.

Lemma cents_tight_table : all_from cents_tight 300 (Z.to_nat 11701) = true.
Proof. vm_cast_no_check (@eq_refl bool true). Qed.

Lemma of_cents_within (c : Z) :
  300 <= c <= 12000 ->
  within (c * 2 ^ 43 / 100) (c * 2 ^ 43 / 100 + 1) (of_cents false c).
Proof.
  intros Hc.
  assert (Ht : cents_tight c = true).
  { apply (all_from_spec cents_tight _ 300 cents_tight_table). rewrite Z2Nat.id; lia. }
  unfold cents_tight in Ht.
  destruct (of_cents false c) as [| | |s m e]; try discriminate.
  destruct s; [discriminate|].
  repeat (apply andb_true_iff in Ht as [Ht ?]).
  repeat match goal with
         | H : (_ <=? _) = true |- _ => apply Z.leb_le in H
         | H : (_ <? _) = true |- _ => apply Z.ltb_lt in H
         end.
  exists m, e. repeat split; assumption.
Qed.

Lemma of_cents_near (c : Z) : 300 <= c <= 12000 -> near c 1 (of_cents false c).
Proof.
  intros Hc. exists (c * 2 ^ 43 / 100), (c * 2 ^ 43 / 100 + 1).
  split; [now apply of_cents_within|].
  pose proof (Z.div_mod (c * 2 ^ 43) 100 ltac:(lia)) as Hdm.
  pose proof (Z.mod_pos_bound (c * 2 ^ 43) 100 ltac:(lia)) as Hmb.
  lia.
Qed.

Lemma add_near (C k c : Z) (t : float) :
  1 <= k <= 7 -> 300 * k <= C <= 12000 * k -> 300 <= c <= 12000 ->
  near C k t -> near (C + c) (k + 1) (F64.add t (of_cents false c)).
Proof.
  intros Hk HC Hc (L & H & Hw & HL & HH).
  destruct (of_cents_near c Hc) as (L' & H' & Hw' & HL' & HH').
  exists (L + L'), (H + H'). split; [|lia].
  change (2 ^ 43) with 8796093022208 in *.
  apply add_within; try assumption.
  - change (2 ^ 44) with 17592186044416. lia.
  - change (2 ^ 53) with 9007199254740992. lia.
Qed.

Lemma div_half_even_nearest (N D C : Z) :
  0 < D -> 2 * Z.abs (N - C * D) < D -> div_half_even N D = C.
Proof.
  intros HD Hn. unfold div_half_even.
  pose proof (Z.div_mod N D ltac:(lia)) as Hdm.
  pose proof (Z.mod_pos_bound N D HD) as Hmb.
  set (q := N / D) in *. set (r := N mod D) in *.
  assert (Hq : q = C \/ q = C - 1) by nia.
  destruct Hq as [Hq|Hq].
  - assert (2 * r < D) by nia.
    replace (2 * r ?= D) with Lt by (symmetry; apply Z.compare_lt_iff; lia). exact Hq.
  - assert (D < 2 * r) by nia.
    replace (2 * r ?= D) with Gt by (symmetry; apply Z.compare_gt_iff; lia). lia.
Qed.

(** A float within [k * 2^-43] of [C / 100] prints as [C / 100]. *)
Lemma format_near (C k : Z) (t : float) :
  0 <= k <= 8 -> near C k t -> format_2f t = cents_numeral C.
Proof.
  intros Hk (L & H & (m & e & -> & Hn & He & Hv) & HL & HH).
  unfold format_2f, cents_numeral. simpl.
  assert (Ec : cents m e = C); [|now rewrite Ec].
  unfold cents. replace (0 <=? e) with false by (symmetry; apply Z.leb_gt; lia).
  apply div_half_even_nearest; [apply pow2_pos; lia|].
  pose proof (pow2_pos (- 43 - e) ltac:(lia)) as Hp.
  replace (2 ^ (- e)) with (2 ^ 43 * 2 ^ (- 43 - e))
    by (rewrite <- Z.pow_add_r by lia; f_equal; lia).
  change (2 ^ 43) with 8796093022208 in *.
  set (P := 2 ^ (- 43 - e)) in *.
  assert (100 * L * P <= 100 * Zpos m <= 100 * H * P) by nia.
  assert ((C * 8796093022208 - 100 * k) * P <= 100 * L * P) by nia.
  assert (100 * H * P <= (C * 8796093022208 + 100 * k) * P) by nia.
  nia.
Qed.

Lemma fold_add_near (cs : list Z) :
  forall (C k : Z) (t : float),
    1 <= k -> k + Z.of_nat (List.length cs) <= 8 ->
    300 * k <= C <= 12000 * k ->
    Forall (fun c => 300 <= c <= 12000) cs ->
    near C k t ->
    near (C + sum_cents cs) (k + Z.of_nat (List.length cs))
         (fold_left F64.add (map (of_cents false) cs) t).
Proof.
  induction cs as [|c cs IH]; intros C k t Hk Hlen HC Hall Hn.
  - simpl. now rewrite !Z.add_0_r.
  - inversion Hall as [|? ? Hc Hrest]; subst.
    change (List.length (c :: cs)) with (S (List.length cs)) in *.
    rewrite Nat2Z.inj_succ in *.
    cbn [fold_left map]. change (sum_cents (c :: cs)) with (c + sum_cents cs).
    replace (C + (c + sum_cents cs)) with (C + c + sum_cents cs) by lia.
    replace (k + Z.succ (Z.of_nat (List.length cs)))
      with (k + 1 + Z.of_nat (List.length cs)) by lia.
    apply IH; try lia; [assumption|].
    apply add_near; try lia; assumption.
Qed.

(** The float sum of up to eight amounts between 3.00 and 120.00 is
    within a few units of [2^-43] of their exact sum. *)
Lemma total_near (c : Z) (cs : list Z) :
  (List.length (c :: cs) <= 8)%nat ->
  Forall (fun c => 300 <= c <= 12000) (c :: cs) ->
  near (sum_cents (c :: cs)) (Z.of_nat (List.length (c :: cs)))
       (fold_left F64.add (map (of_cents false) (c :: cs)) F64.zero).
Proof.
  intros Hlen Hall.
  inversion Hall as [|? ? Hc Hrest]; subst.
  cbn [fold_left map]. change (sum_cents (c :: cs)) with (c + sum_cents cs).
  pose proof (of_cents_near c Hc) as Hn.
  assert (E : F64.add F64.zero (of_cents false c) = of_cents false c).
  { destruct Hn as (L & H & (m & e & -> & _) & _). reflexivity. }
  rewrite E.
  change (List.length (c :: cs)) with (S (List.length cs)) in *.
  rewrite Nat2Z.inj_succ.
  replace (Z.succ (Z.of_nat (List.length cs))) with (1 + Z.of_nat (List.length cs)) by lia.
  apply fold_add_near; try lia; assumption.
Qed.

(** So it prints as their exact decimal sum. *)
Lemma total_prints_exact (cs : list Z) :
  (List.length cs <= 8)%nat ->
  Forall (fun c => 300 <= c <= 12000) cs ->
  format_2f (fold_left F64.add (map (of_cents false) cs) F64.zero)
  = cents_numeral (sum_cents cs).
Proof.
  intros Hlen Hall. destruct cs as [|c cs]; [reflexivity|].
  apply (format_near _ (Z.of_nat (List.length (c :: cs)))); [lia|].
  now apply total_near.
Qed.

(** Such a sum is not below the threshold of one cent. *)
Lemma near_not_below_threshold (C k : Z) (t : float) :
  near C k t -> F64.ltb t MIN_SAVINGS = false.
Proof.
  intros (L & H & (m & e & -> & _ & He & _) & _).
  change MIN_SAVINGS with (S754_finite false 5764607523034235 (-59)).
  unfold F64.ltb, SFltb, SFcompare.
  replace (e ?= -59) with Gt by (symmetry; apply Z.compare_gt_iff; lia).
  reflexivity.
Qed.

Lemma sum_cents_range (cs : list Z) :
  Forall (fun c => 300 <= c <= 12000) cs ->
  300 * Z.of_nat (List.length cs) <= sum_cents cs <= 12000 * Z.of_nat (List.length cs).
Proof.
  induction 1 as [|c cs Hc _ IH]; [simpl; lia|].
  change (sum_cents (c :: cs)) with (c + sum_cents cs).
  change (List.length (c :: cs)) with (S (List.length cs)). lia.
Qed.

(** [a + w * random()] for small integers [a] and [w] lies between [a]
    and [a + w]: both roundings keep the bounds. *)
Lemma uniform_float_between (A W : Z) (ma mw : positive) (pa pw k : Z) :
  0 < A -> 0 < W -> A + W < 2 ^ 10 ->
  43 <= pa <= 52 -> 1 <= pw <= 52 ->
  Zpos ma = A * 2 ^ pa -> Zpos mw = W * 2 ^ pw -> Zpos mw < 2 ^ 53 ->
  0 <= k < 2 ^ 53 ->
  between A (A + W)
    (F64.add (S754_finite false ma (- pa))
       (F64.mul (S754_finite false mw (- pw)) (F64.of_scaled k (-53)))).
Proof.
  intros HA HW HAW Hpa Hpw Ema Emw Hmw Hk.
  pose proof (pow2_pos pa ltac:(lia)) as Hppa.
  pose proof (pow2_pos pw ltac:(lia)) as Hppw.
  destruct (random_float k Hk) as [[-> ->]|(mr & er & -> & Her & Hvr)].
  { exists ma, (- pa). split; [reflexivity|]. split; [lia|].
    replace (- - pa) with pa by lia. nia. }
  assert (Hmr : Zpos mr < 2 ^ (- er)).
  { apply Z.mul_lt_mono_pos_r with (p := 2 ^ (er + 106)); [apply pow2_pos; lia|].
    rewrite <- Z.pow_add_r by lia. replace (- er + (er + 106)) with 106 by lia.
    rewrite Hvr. change (2 ^ 106) with (2 ^ 53 * 2 ^ 53).
    apply Z.mul_lt_mono_pos_r; [apply pow2_pos|]; lia. }
  pose proof (pow2_pos (- er) ltac:(lia)) as Hper.
  unfold F64.mul, SFmul, F64.prec, F64.emax. simpl xorb.
  destruct (binary_round_aux_le (mw * mr) (- pw + er) (- er)
              0 (Zpos mw * 2 ^ (- er)))
    as (my & ey & Ey & Hey & Hvy); try lia.
  { rewrite Pos2Z.inj_mul, Z.pow_add_r by lia.
    apply Z.mul_lt_mono_nonneg; lia. }
  { rewrite Pos2Z.inj_mul. split; [lia|]. apply Z.mul_le_mono_nonneg_l; lia. }
  { apply Z.divide_0_r. }
  { apply Z.divide_factor_r. }
  rewrite Ey.
  assert (Hmy : Zpos my <= W * 2 ^ (- ey)).
  { apply mul_cancel_pow with (q := ey - (- pw + er)); [lia|].
    rewrite <- Z.mul_assoc, <- Z.pow_add_r by lia.
    replace (- ey + (ey - (- pw + er))) with (pw + - er) by lia.
    rewrite Z.pow_add_r, Z.mul_assoc, <- Emw by lia. lia. }
  unfold F64.add, SFadd, cond_Zopp, F64.prec, F64.emax.
  set (ez := Z.min (- pa) ey).
  pose proof (shl_align_spec ma (- pa) ez) as Ha.
  pose proof (shl_align_spec my ey ez) as Hy.
  destruct (shl_align ma (- pa) ez) as [ma' ea].
  destruct (shl_align my ey ez) as [my' ey'].
  simpl fst. destruct Ha as [Hea Ha]. destruct Hy as [Hey' Hy].
  assert (Hez : -160 < ez <= - pa) by (unfold ez; lia).
  replace ea with ez in Ha by lia. replace ey' with ez in Hy by lia.
  clear Hea Hey' ea ey'.
  pose proof (pow2_pos (- ez) ltac:(lia)) as Hpez.
  assert (Ea : Zpos ma' = A * 2 ^ (- ez)).
  { rewrite Ha, Ema. replace (- ez) with (pa + (- pa - ez)) by lia.
    rewrite (Z.pow_add_r 2 pa) by lia. ring. }
  assert (Hy' : Zpos my' <= W * 2 ^ (- ez)).
  { rewrite Hy. replace (- ez) with (- ey + (ey - ez)) by lia.
    rewrite Z.pow_add_r, Z.mul_assoc by lia.
    apply Z.mul_le_mono_nonneg_r; [apply Z.pow_nonneg; lia|exact Hmy]. }
  change (Zpos ma' + Zpos my') with (Zpos (ma' + my')).
  unfold binary_normalize.
  destruct (binary_round_le (ma' + my') ez (-43 - ez) (A * 2 ^ (- ez)) ((A + W) * 2 ^ (- ez)))
    as (mu & eu & Eu & Heu & Hvu); try lia.
  { rewrite Pos2Z.inj_add. replace (53 + (-43 - ez)) with (10 + - ez) by lia.
    rewrite Z.pow_add_r by lia. nia. }
  { exists (A * 2 ^ 43). rewrite <- Z.mul_assoc, <- Z.pow_add_r by lia.
    do 2 f_equal. lia. }
  { exists ((A + W) * 2 ^ 43). rewrite <- Z.mul_assoc, <- Z.pow_add_r by lia.
    do 2 f_equal. lia. }
  exists mu, eu. split; [exact Eu|]. split; [lia|].
  assert (Hpow : 2 ^ (- ez) * 2 ^ 53 = 2 ^ (- eu) * 2 ^ (eu - ez + 53)).
  { rewrite <- !Z.pow_add_r by lia. f_equal. lia. }
  rewrite <- !Z.mul_assoc, Hpow, !Z.mul_assoc in Hvu.
  destruct Hvu as [Hl Hu].
  split; eapply mul_cancel_pow with (q := eu - ez + 53); try lia; eassumption.
Qed.

Lemma uniform_5_55_float (k : Z) :
  0 <= k < 2 ^ 53 ->
  between 5 55
    (F64.add (F64.of_Z 5)
       (F64.mul (F64.sub (F64.of_Z 55) (F64.of_Z 5)) (F64.of_scaled k (-53)))).
Proof.
  intros Hk.
  change (F64.sub (F64.of_Z 55) (F64.of_Z 5))
    with (S754_finite false 7036874417766400 (- 47)).
  change (F64.of_Z 5) with (S754_finite false 5629499534213120 (- 50)).
  apply (uniform_float_between 5 50 5629499534213120 7036874417766400 50 47 k);
    try lia; reflexivity.
Qed.

Lemma cents_bracket (lo hi : Z) (m : positive) (e : Z) :
  e < 0 -> lo * 2 ^ (- e) <= Zpos m <= hi * 2 ^ (- e) ->
  100 * lo <= cents m e <= 100 * hi.
Proof.
  intros He [Hl Hu]. unfold cents.
  replace (0 <=? e) with false by (symmetry; apply Z.leb_gt; lia).
  pose proof (pow2_pos (- e) ltac:(lia)) as HD.
  set (D := 2 ^ (- e)) in *.
  unfold div_half_even.
  pose proof (Z.div_mod (100 * Zpos m) D ltac:(lia)) as Hdm.
  pose proof (Z.mod_pos_bound (100 * Zpos m) D HD) as Hmb.
  set (q := 100 * Zpos m / D) in *. set (r := (100 * Zpos m) mod D) in *.
  assert (Hq : 100 * lo <= q) by (apply Z.div_le_lower_bound; lia).
  assert (Hq' : q < 100 * hi \/ (q = 100 * hi /\ r = 0)) by nia.
  destruct (2 * r ?= D) eqn:C.
  - apply Z.compare_eq in C. destruct (Z.even q); lia.
  - lia.
  - apply Z.compare_gt_iff in C. lia.
Qed.

Lemma round2_bracket (lo hi : Z) (p : float) :
  between lo hi p ->
  exists q, 100 * lo <= q <= 100 * hi /\ round2 p = of_cents false q.
Proof.
  intros (m & e & -> & He & Hb). unfold round2.
  replace (0 <=? e) with false by (symmetry; apply Z.leb_gt; lia).
  exists (cents m e). split; [now apply cents_bracket|reflexivity].
Qed.

Lemma Forall2_length_Z {A C : Type} (P : A -> C -> Prop) (l : list A) (l' : list C) :
  Forall2 P l l' -> List.length l = List.length l'.
Proof. induction 1; simpl; congruence. Qed.

(** ** What the generator returns *)

Section Shape.
Context {B : PyBuiltins} {R : PyRandom}.

Ltac draw H := eapply succeeds_bind; [apply H|].

Lemma succeeds_pick_catalog :
  succeeds _pick_instance_type
           (fun t => exists fam sizes size,
                t = fam ++ "." ++ size /\ In (fam, sizes) FAMILIES /\ In size sizes
                /\ catalog_entry_ok fam size = true).
Proof.
  intros g. destruct (pick_in_catalog g) as (fam & sizes & size & g' & E & H1 & H2 & Hc).
  exists (fam ++ "." ++ size), g'. split; [exact E|]. exists fam, sizes, size. auto.
Qed.

Lemma succeeds_smaller_target (fam size : string) :
  catalog_entry_ok fam size = true ->
  succeeds (_smaller_type (fam ++ "." ++ size)) (target_of fam size).
Proof.
  intros Hc g. unfold catalog_entry_ok in Hc.
  repeat (apply andb_true_iff in Hc as [Hc ?]).
  destruct (ladder_try size) as (size' & Htry & Hrank).
  destruct (smaller_type_run fam size size' g) as (fam' & g' & E & Hfam); auto.
  exists (fam' ++ "." ++ size'), g'. split; [exact E|].
  destruct (list_index size order) as [i|] eqn:Ei; [|discriminate].
  exists fam', size', i. destruct Hrank as [_ Hrank]. auto.
Qed.

Lemma succeeds_synthetic_rec_shape (recs : list pyval) (total : float) :
  succeeds (synthetic_rec (recs, total))
           (fun st => exists r c,
                st = ((recs ++ [r])%list, F64.add total (of_cents false c))
                /\ 300 <= c <= 12000
                /\ synthetic_record r c
                /\ ce_amount r = Ok (PStr (cents_numeral c))).
Proof.
  unfold synthetic_rec.
  draw succeeds_pick_catalog.
  intros t (fam & sizes & size & -> & Hin1 & Hin2 & Hc).
  eapply succeeds_bind; [now apply succeeds_smaller_target|].
  intros target Htarget.
  draw succeeds_random.
  intros r _.
  draw succeeds_uniform_3_120.
  intros u Hu.
  destruct (round2_between u Hu) as (c & Hcr & Er & Hck).
  unfold cents_checked in Hck. cbv zeta in Hck.
  apply andb_true_iff in Hck as [Hck Hfmt]. apply String.eqb_eq in Hfmt.
  rewrite Er. unfold money. rewrite Hfmt. fold (usd c).
  destruct (F64.ltb (F64.of_scaled 1 (-2)) r); cbn [String.eqb Ascii.eqb Bool.eqb].
  - draw succeeds_instance_id. intros s (id & -> & Hlen & Hhex).
    eapply succeeds_bind; [apply succeeds_randint; lia|]. intros k Hk. cbv beta in Hk.
    apply succeeds_ret. eexists _, c. split; [reflexivity|]. split; [exact Hcr|].
    split; [|reflexivity].
    exists true, id, k, fam, size, sizes, target. repeat split; auto; lia.
  - draw succeeds_instance_id. intros s (id & -> & Hlen & Hhex).
    eapply succeeds_bind; [apply succeeds_randint; lia|]. intros k Hk. cbv beta in Hk.
    apply succeeds_ret. eexists _, c. split; [reflexivity|]. split; [exact Hcr|].
    split; [|reflexivity].
    exists false, id, k, fam, size, sizes, target. repeat split; auto; lia.
Qed.

Lemma succeeds_repeat_rec_shape (n : nat) :
  forall recs total,
    succeeds (repeat_rec n (recs, total))
             (fun st => exists new cs,
                  st = ((recs ++ new)%list,
                        fold_left F64.add (map (of_cents false) cs) total)
                  /\ List.length cs = n
                  /\ Forall (fun c => 300 <= c <= 12000) cs
                  /\ Forall2 synthetic_record new cs
                  /\ Forall2 (fun r c => ce_amount r = Ok (PStr (cents_numeral c))) new cs).
Proof.
  induction n as [|n IH]; intros recs total; simpl repeat_rec.
  - apply succeeds_ret. exists [], []. simpl. rewrite app_nil_r. repeat split; constructor.
  - draw succeeds_synthetic_rec_shape.
    intros st (r & c & -> & Hc & Hr & Ha).
    eapply succeeds_weaken; [apply IH|].
    intros st (new & cs & -> & Hlen & Hall & Hshape & Hamt).
    exists (r :: new), (c :: cs). rewrite <- app_assoc. simpl.
    repeat split; auto.
Qed.

Lemma succeeds_uniform_5_55 :
  succeeds (uniform (F64.of_Z 5) (F64.of_Z 55)) (between 5 55).
Proof.
  unfold uniform. draw succeeds_random.
  intros r (k & Hk & ->). apply succeeds_ret. now apply uniform_5_55_float.
Qed.

(** What a run of the generator returns, in one statement. *)
Lemma gen_synthetic_recs_inv (now : datetime) (g : rng) :
  exists recs g' cs p,
    _gen_synthetic_recs now g
    = Ok (PDict [("TotalEstimatedMonthlySavingsAmount",
                  PStr (format_2f (fold_left F64.add (map (of_cents false) cs) F64.zero)));
                 ("TotalEstimatedMonthlySavingsCurrency", PStr "USD");
                 ("EstimatedSavingsPercentage", PStr (str_of_float (round2 p)))],
          recs, g')
    /\ 2 <= Z.of_nat (List.length cs) <= 5
    /\ Forall (fun c => 300 <= c <= 12000) cs
    /\ Forall2 synthetic_record recs cs
    /\ Forall2 (fun r c => ce_amount r = Ok (PStr (cents_numeral c))) recs cs
    /\ between 5 55 p.
Proof.
  unfold _gen_synthetic_recs.
  destruct (daily_seed_ok now) as [seed ->].
  match goal with |- context [?m (rng_seed seed)] =>
    assert (H : succeeds m (fun sr =>
      exists cs p,
        fst sr = PDict [("TotalEstimatedMonthlySavingsAmount",
                         PStr (format_2f (fold_left F64.add (map (of_cents false) cs) F64.zero)));
                        ("TotalEstimatedMonthlySavingsCurrency", PStr "USD");
                        ("EstimatedSavingsPercentage", PStr (str_of_float (round2 p)))]
        /\ 2 <= Z.of_nat (List.length cs) <= 5
        /\ Forall (fun c => 300 <= c <= 12000) cs
        /\ Forall2 synthetic_record (snd sr) cs
        /\ Forall2 (fun r c => ce_amount r = Ok (PStr (cents_numeral c))) (snd sr) cs
        /\ between 5 55 p))
  end.
  { eapply succeeds_bind; [apply (succeeds_randint 2 5); lia|].
    intros n Hn. cbv beta in Hn.
    draw succeeds_repeat_rec_shape.
    intros st (new & cs & -> & Hlen & Hall & Hshape & Hamt).
    draw succeeds_uniform_5_55.
    intros p Hp. apply succeeds_ret.
    exists cs, p.
    simpl fst. simpl snd. split; [reflexivity|]. split; [lia|].
    repeat split; auto. }
  destruct (H (rng_seed seed)) as ([summary recs] & g' & E & cs & p & Es & Hrest).
  simpl in Es. subst summary. exists recs, g', cs, p. split; [exact E|exact Hrest].
Qed.

(** X6: every record the generator returns is well formed: the account
    id, a kind [Modify] or [Terminate] with the detail block of that kind
    and not the other, an instance id of the documented form, a name
    [app-NN] for a [Modify] and [batch-NN] for a [Terminate] with [NN]
    between 10 and 99, a current type of the catalog, an amount with two
    decimals between 3.00 and 120.00 in US dollars, and, for a [Modify],
    one target instance with the same amount and a type one step down
    the ladder. *)
Theorem synthetic_records_are_well_formed (now : datetime) (g : rng) :
  exists summary recs g',
    _gen_synthetic_recs now g = Ok (summary, recs, g')
    /\ Forall (fun r => exists c, 300 <= c <= 12000 /\ synthetic_record r c) recs.
Proof.
  destruct (gen_synthetic_recs_inv now g)
    as (recs & g' & cs & p & E & _ & Hall & Hshape & _).
  eexists _, recs, g'. split; [exact E|].
  clear E. induction Hshape as [|r c recs cs Hr _ IH]; constructor.
  - inversion Hall; subst. eauto.
  - apply IH. now inversion Hall.
Qed.

(** X7: the total of the summary is the exact decimal sum of the amounts
    of the records, although it is computed in floating point, and lies
    between 6.00 and 600.00; the currency is [USD]; the percentage is the
    print of a float nearest to a number of hundredths between 5.00 and
    55.00. *)
Theorem synthetic_summary_adds_up (now : datetime) (g : rng) :
  exists summary recs g' cs q,
    _gen_synthetic_recs now g = Ok (summary, recs, g')
    /\ Forall2 (fun r c => 300 <= c <= 12000
                           /\ ce_amount r = Ok (PStr (cents_numeral c))) recs cs
    /\ py_get summary "TotalEstimatedMonthlySavingsAmount" PNone
       = Ok (PStr (cents_numeral (sum_cents cs)))
    /\ 600 <= sum_cents cs <= 60000
    /\ py_get summary "TotalEstimatedMonthlySavingsCurrency" PNone = Ok (PStr "USD")
    /\ py_get summary "EstimatedSavingsPercentage" PNone
       = Ok (PStr (str_of_float (of_cents false q)))
    /\ 500 <= q <= 5500.
Proof.
  destruct (gen_synthetic_recs_inv now g)
    as (recs & g' & cs & p & E & Hlen & Hall & _ & Hamt & Hp).
  destruct (round2_bracket 5 55 p Hp) as (q & Hq & Eq).
  eexists _, recs, g', cs, q. split; [exact E|].
  split; [|split; [|split; [|split; [|split]]]].
  - clear E Hlen. induction Hamt as [|r c recs cs Hr _ IH]; constructor.
    + inversion Hall; subst. auto.
    + apply IH. now inversion Hall.
  - simpl. rewrite total_prints_exact; [reflexivity|lia|exact Hall].
  - pose proof (sum_cents_range cs Hall). lia.
  - reflexivity.
  - simpl. now rewrite Eq.
  - lia.
Qed.

Lemma fold_add_amount_cents (cs : list Z) :
  (forall c, 300 <= c <= 12000 -> float_of_str (cents_numeral c) = Some (of_cents false c)) ->
  Forall (fun c => 300 <= c <= 12000) cs ->
  forall total,
    fold_left add_amount (map (fun c => PStr (cents_numeral c)) cs) total
    = fold_left F64.add (map (of_cents false) cs) total.
Proof.
  intros Hparse. induction 1 as [|c cs Hc _ IH]; intros total; [reflexivity|].
  cbn [fold_left map]. rewrite <- IH. f_equal.
  unfold add_amount. simpl. now rewrite (Hparse c Hc).
Qed.

(** X8: read back by the cost-explorer aggregator, the generated records
    add up to the very float whose two decimals the summary prints, and
    that total is not below the threshold; this holds when [float] reads
    a numeral with two decimals as the float nearest to it. *)
Theorem aggregator_reads_synthetic_total (now : datetime) (g : rng) :
  (forall c, 300 <= c <= 12000 -> float_of_str (cents_numeral c) = Some (of_cents false c)) ->
  exists summary recs g' total,
    _gen_synthetic_recs now g = Ok (summary, recs, g')
    /\ _sum_ce_savings recs = Ok total
    /\ py_get summary "TotalEstimatedMonthlySavingsAmount" PNone
       = Ok (PStr (format_2f total))
    /\ F64.ltb total MIN_SAVINGS = false.
Proof.
  intros Hparse.
  destruct (gen_synthetic_recs_inv now g)
    as (recs & g' & cs & p & E & Hlen & Hall & _ & Hamt & _).
  eexists _, recs, g', _. split; [exact E|].
  assert (Hs : _sum_ce_savings recs
               = Ok (fold_left F64.add (map (of_cents false) cs) F64.zero)).
  { unfold _sum_ce_savings.
    rewrite (for_each_amounts ce_amount recs (map (fun c => PStr (cents_numeral c)) cs)).
    - now rewrite fold_add_amount_cents.
    - clear E Hlen Hall. induction Hamt; simpl; constructor; auto. }
  split; [exact Hs|]. split; [reflexivity|].
  destruct cs as [|c cs]; [simpl in Hlen; lia|].
  eapply near_not_below_threshold. apply total_near; [|exact Hall].
  apply Nat2Z.inj_le. lia.
Qed.

End Shape.

(** ** Exceptions and NaN in the aggregators *)




Section AggregatorErrors.
Context {B : PyBuiltins}.



Lemma add_amount_nan_l (a : pyval) : add_amount S754_nan a = S754_nan.
Proof.
  unfold add_amount. destruct (is_None a); [reflexivity|].
  destruct (py_float a); reflexivity.
Qed.

Lemma fold_add_amount_nan (amts : list pyval) :
  fold_left add_amount amts S754_nan = S754_nan.
Proof. induction amts as [|a amts IH]; simpl; [reflexivity|]. now rewrite add_amount_nan_l. Qed.

Lemma add_amount_nan_r (total : float) (a : pyval) :
  py_float a = Ok S754_nan -> add_amount total a = S754_nan.
Proof.
  intros H. unfold add_amount. destruct a; try discriminate; simpl is_None; cbv iota;
    rewrite H; unfold F64.add, SFadd; destruct total; reflexivity.
Qed.

Lemma fold_add_amount_Exists_nan (amts : list pyval) :
  Exists (fun a => py_float a = Ok S754_nan) amts ->
  forall total, fold_left add_amount amts total = S754_nan.
Proof.
  induction 1 as [a amts Ha|a amts _ IH]; intros total; simpl.
  - rewrite (add_amount_nan_r _ _ Ha). apply fold_add_amount_nan.
  - apply IH.
Qed.

End AggregatorErrors.

(** ** Pagination *)

Lemma py_get_dict (o : pyval) (k k' : string) (d d' v : pyval) :
  py_get o k d = Ok v -> exists v', py_get o k' d' = Ok v'.
Proof. destruct o; simpl; try discriminate. eauto. Qed.

Lemma ce_pages_step (w : World) (fuel : nat) (token : pyval) (recs : list pyval)
      (summary resp : pyval) (items : list pyval) (next : pyval) :
  ce_get_rightsizing_recommendation w (ce_args token) = Ok resp ->
  page_items "RightsizingRecommendations" resp = Ok items ->
  py_get resp "NextPageToken" PNone = Ok next ->
  ce_pages w (S fuel) token recs summary
  = if truthy next
    then ce_pages w fuel next (recs ++ items)%list (kept_summary summary resp)
    else Some (Ok (kept_summary summary resp, (recs ++ items)%list)).
Proof.
  intros Hr Hi Hn. unfold page_items in Hi. cbn [ce_pages]. rewrite Hr.
  cbn [rbind].
  destruct (py_get resp "RightsizingRecommendations" (PList [])) as [page|] eqn:Hpage;
    [|discriminate].
  cbn [rbind] in Hi |- *. rewrite Hi. cbn [rbind].
  unfold kept_summary.
  destruct (py_get_dict resp _ "Summary" _ summary _ Hn) as [s ->].
  cbn [rbind]. rewrite Hn. cbn [rbind].
  destruct (truthy next); reflexivity.
Qed.

Lemma co_pages_step (w : World) (fuel : nat) (token : pyval) (recs : list pyval)
      (resp : pyval) (items : list pyval) (next : pyval) :
  co_get_ec2_instance_recommendations w (co_args token) = Ok resp ->
  page_items "instanceRecommendations" resp = Ok items ->
  py_get resp "nextToken" PNone = Ok next ->
  co_pages w (S fuel) token recs
  = if truthy next
    then co_pages w fuel next (recs ++ items)%list
    else Some (Ok (recs ++ items)%list).
Proof.
  intros Hr Hi Hn. unfold page_items in Hi. cbn [co_pages]. rewrite Hr.
  cbn [rbind].
  destruct (py_get resp "instanceRecommendations" (PList [])) as [page|] eqn:Hpage;
    [|discriminate].
  cbn [rbind] in Hi |- *. rewrite Hi. cbn [rbind]. rewrite Hn. cbn [rbind].
  destruct (truthy next); reflexivity.
Qed.

Lemma ce_pages_conversation (w : World) (token : pyval) (resps : list pyval)
      (outcome : option exn) :
  conversation (ce_get_rightsizing_recommendation w) ce_args "NextPageToken"
               token resps outcome ->
  forall (pages : list (list pyval)) (fuel : nat) (recs : list pyval) (summary : pyval),
    Forall2 (fun resp items => page_items "RightsizingRecommendations" resp = Ok items)
            resps pages ->
    (List.length resps < fuel)%nat ->
    ce_pages w fuel token recs summary
    = Some (match outcome with
            | None => Ok (fold_left kept_summary resps summary,
                          (recs ++ List.concat pages)%list)
            | Some e => Raise e
            end).
Proof.
  induction 1 as [token resp next Hr Hn Ht
                 |token resp next rest outcome Hr Hn Ht _ IH
                 |token e Hr];
    intros pages fuel recs summary Hp Hfuel;
    (destruct fuel as [|fuel]; [simpl in Hfuel; lia|]).
  - inversion Hp as [|? items ? ? Hi Hrest]; subst. inversion Hrest; subst.
    rewrite (ce_pages_step w fuel token recs summary resp items next Hr Hi Hn), Ht.
    simpl. now rewrite app_nil_r.
  - inversion Hp as [|? items ? pages' Hi Hrest]; subst.
    rewrite (ce_pages_step w fuel token recs summary resp items next Hr Hi Hn), Ht.
    rewrite (IH pages' fuel _ _ Hrest) by (simpl in Hfuel; lia).
    destruct outcome; [reflexivity|].
    simpl. now rewrite app_assoc.
  - cbn [ce_pages]. now rewrite Hr.
Qed.


(** X11: the cost-explorer fetch requests page after page, sending each
    continuation token with the next request, and returns the records of
    all pages in order with the summary of the last response that has
    one; when a request raises, the fetch raises that exception and the
    pages already fetched are lost. *)
Theorem ce_fetch_collects_pages (w : World) (resps : list pyval)
        (pages : list (list pyval)) (outcome : option exn) (fuel : nat) :
  conversation (ce_get_rightsizing_recommendation w) ce_args "NextPageToken"
               PNone resps outcome ->
  Forall2 (fun resp items => page_items "RightsizingRecommendations" resp = Ok items)
          resps pages ->
  (List.length resps < fuel)%nat ->
  _fetch_ce_rightsizing w fuel
  = Some (match outcome with
          | None => Ok (fold_left kept_summary resps (PDict []), List.concat pages)
          | Some e => Raise e
          end).
Proof.
  intros Hc Hp Hfuel. unfold _fetch_ce_rightsizing.
  now rewrite (ce_pages_conversation w PNone resps outcome Hc pages fuel [] (PDict []) Hp Hfuel).
Qed.


(** X13: neither loop has a page limit: against a service that answers
    every request with a continuation token, the fetch makes request
    after request and never returns. *)
Theorem fetch_follows_tokens_forever (w : World) :
  ((forall args, exists resp items next,
       ce_get_rightsizing_recommendation w args = Ok resp
       /\ page_items "RightsizingRecommendations" resp = Ok items
       /\ py_get resp "NextPageToken" PNone = Ok next /\ truthy next = true) ->
   forall fuel, _fetch_ce_rightsizing w fuel = None)
  /\ ((forall args, exists resp items next,
          co_get_ec2_instance_recommendations w args = Ok resp
          /\ page_items "instanceRecommendations" resp = Ok items
          /\ py_get resp "nextToken" PNone = Ok next /\ truthy next = true) ->
      forall fuel, _fetch_co_rightsizing w fuel = None).
Proof.
  split.
  - intros H fuel. unfold _fetch_ce_rightsizing.
    assert (Hp : forall token recs summary, ce_pages w fuel token recs summary = None).
    { induction fuel as [|fuel IH]; intros token recs summary; [reflexivity|].
      destruct (H (ce_args token)) as (resp & items & next & Hr & Hi & Hn & Ht).
      rewrite (ce_pages_step w fuel token recs summary resp items next Hr Hi Hn), Ht.
      apply IH. }
    apply Hp.
  - intros H fuel. unfold _fetch_co_rightsizing.
    assert (Hp : forall token recs, co_pages w fuel token recs = None).
    { induction fuel as [|fuel IH]; intros token recs; [reflexivity|].
      destruct (H (co_args token)) as (resp & items & next & Hr & Hi & Hn & Ht).
      rewrite (co_pages_step w fuel token recs resp items next Hr Hi Hn), Ht.
      apply IH. }
    now rewrite Hp.
Qed.

(** ** Liveness probe *)

Lemma any_instances_existsb (reservations : list pyval) :
  forallb is_dict reservations = true ->
  any_instances reservations = Ok (existsb has_instances reservations).
Proof.
  induction reservations as [|res rest IH]; [reflexivity|].
  simpl. intros H. apply andb_true_iff in H as [Hd Hrest].
  destruct res; try discriminate. unfold has_instances. simpl.
  destruct (truthy _); [reflexivity|]. now apply IH.
Qed.

(** X14: on a well-formed answer the probe says whether some reservation
    lists an instance; a [ClientError] of the request counts as nothing
    running, and any other exception of the request is raised. *)
Theorem any_running_instances_spec (w : World) :
  (forall resp reservations,
      ec2_describe_instances w = Ok resp ->
      py_get resp "Reservations" (PList []) = Ok (PList reservations) ->
      forallb is_dict reservations = true ->
      _any_running_instances w = Ok (existsb has_instances reservations))
  /\ (forall e, ec2_describe_instances w = Raise e ->
        _any_running_instances w = if is_ClientError e then Ok false else Raise e).
Proof.
  split.
  - intros resp reservations Hr Hg Hd. unfold _any_running_instances.
    rewrite Hr. simpl rbind. rewrite Hg. simpl rbind.
    rewrite (any_instances_existsb _ Hd). reflexivity.
  - intros e Hr. unfold _any_running_instances. rewrite Hr. simpl.
    destruct (is_ClientError e); reflexivity.
Qed.

(** ** Source selection and the invocation *)

Lemma gated_sufficient (fetched : result (pyval * list pyval))
      (aggregate : list pyval -> result float) (msg : string) :
  if sufficient fetched aggregate
  then gated fetched aggregate msg = fetched /\ exists sr, fetched = Ok sr
  else exists e, gated fetched aggregate msg = Raise e.
Proof.
  unfold sufficient, gated. destruct fetched as [[summary recs]|e]; simpl; [|eauto].
  destruct (aggregate recs) as [total|e]; simpl; [|eauto].
  destruct (F64.ltb total MIN_SAVINGS); simpl; eauto.
Qed.

Lemma probe_Raise (w : World) (e : exn) :
  _any_running_instances w = Raise e -> is_ClientError e = false.
Proof.
  unfold _any_running_instances, try_except.
  match goal with |- match ?b with _ => _ end = _ -> _ => destruct b as [v|e0] end;
    [discriminate|].
  destruct (is_ClientError e0) eqn:E; [discriminate|]. congruence.
Qed.

Section Selection.
Context {B : PyBuiltins} {R : PyRandom}.

Lemma choose_source_cases (w : World) (fuel : nat) (g : rng)
      (ce co : result (pyval * list pyval)) :
  _fetch_ce_rightsizing w fuel = Some ce ->
  (sufficient ce _sum_ce_savings = true ->
   exists summary recs, ce = Ok (summary, recs)
     /\ choose_source w fuel g = Some (Ok ("cost-explorer", summary, recs)))
  /\ (sufficient ce _sum_ce_savings = false ->
      _fetch_co_rightsizing w fuel = Some co ->
      (sufficient co _sum_co_savings = true ->
       exists summary recs, co = Ok (summary, recs)
         /\ choose_source w fuel g = Some (Ok ("compute-optimizer", summary, recs)))
      /\ (sufficient co _sum_co_savings = false ->
          choose_source w fuel g = Some (synthesize w g))).
Proof.
  intros Hce. unfold choose_source. rewrite Hce.
  pose proof (gated_sufficient ce _sum_ce_savings "CE savings below threshold") as G1.
  split.
  - intros S1. rewrite S1 in G1. destruct G1 as [-> [[summary recs] ->]]. eauto.
  - intros S1 Hco. rewrite S1 in G1. destruct G1 as [e1 ->]. rewrite Hco.
    pose proof (gated_sufficient co _sum_co_savings "CO savings below threshold") as G2.
    split.
    + intros S2. rewrite S2 in G2. destruct G2 as [-> [[summary recs] ->]]. eauto.
    + intros S2. rewrite S2 in G2. destruct G2 as [e2 ->]. reflexivity.
Qed.

(** X15: the source a report names is the one its data came from, and
    every source before it was tried and did not pass its gate. *)
Theorem source_tag_is_truthful (w : World) (fuel : nat) (g : rng)
        (source : string) (summary : pyval) (recs : list pyval) :
  choose_source w fuel g = Some (Ok (source, summary, recs)) ->
  exists ce,
    _fetch_ce_rightsizing w fuel = Some ce
    /\ ((source = "cost-explorer" /\ ce = Ok (summary, recs)
         /\ sufficient ce _sum_ce_savings = true)
        \/ (sufficient ce _sum_ce_savings = false
            /\ exists co,
                _fetch_co_rightsizing w fuel = Some co
                /\ ((source = "compute-optimizer" /\ co = Ok (summary, recs)
                     /\ sufficient co _sum_co_savings = true)
                    \/ (source = "synthetic"
                        /\ sufficient co _sum_co_savings = false
                        /\ exists running g',
                            _any_running_instances w = Ok running
                            /\ _gen_synthetic_recs (now_seed w) g
                               = Ok (summary, recs, g'))))).
Proof.
  intros H.
  destruct (_fetch_ce_rightsizing w fuel) as [ce|] eqn:Hce;
    [|unfold choose_source in H; rewrite Hce in H; discriminate].
  exists ce. split; [reflexivity|].
  destruct (sufficient ce _sum_ce_savings) eqn:S1.
  - left.
    destruct (proj1 (choose_source_cases w fuel g ce ce Hce) S1) as (s & r & -> & E).
    rewrite E in H. injection H as <- <- <-. auto.
  - right. split; [reflexivity|].
    destruct (_fetch_co_rightsizing w fuel) as [co|] eqn:Hco.
    2:{ exfalso.
        pose proof (gated_sufficient ce _sum_ce_savings "CE savings below threshold") as G1.
        rewrite S1 in G1. destruct G1 as [e1 G1].
        unfold choose_source in H. rewrite Hce, G1, Hco in H. discriminate. }
    exists co. split; [reflexivity|].
    destruct (proj2 (choose_source_cases w fuel g ce co Hce) S1 Hco) as [C1 C2].
    destruct (sufficient co _sum_co_savings) eqn:S2.
    + left. destruct (C1 eq_refl) as (s & r & -> & E).
      rewrite E in H. injection H as <- <- <-. auto.
    + right. rewrite (C2 eq_refl) in H. injection H as H.
      unfold synthesize in H.
      destruct (_any_running_instances w) as [running|e] eqn:Hp; [|discriminate].
      simpl in H.
      assert (Hg : match _gen_synthetic_recs (now_seed w) g with
                   | Ok (summary, recs, _) => Ok ("synthetic", summary, recs)
                   | Raise e => Raise e
                   end = Ok (source, summary, recs)).
      { destruct (negb running); exact H. }
      destruct (_gen_synthetic_recs (now_seed w) g) as [[[s r] g']|e]; [|discriminate].
      injection Hg as <- <- <-. repeat split; eauto.
Qed.

Lemma synthesize_Raise (w : World) (g : rng) (e : exn) :
  synthesize w g = Raise e -> _any_running_instances w = Raise e.
Proof.
  unfold synthesize.
  destruct (_any_running_instances w) as [running|e0]; simpl; [|congruence].
  destruct (gen_synthetic_recs_returns (now_seed w) g) as (s & r & g' & ->).
  destruct (negb running); discriminate.
Qed.

(** X16: source selection absorbs every exception of the two fetchers
    and of the two aggregators; the only exception that leaves it is one
    that [describe_instances] raised and that is not a [ClientError],
    and when the probe returns a source is always selected. *)
Theorem selection_raises_only_from_probe (w : World) (fuel : nat) (g : rng) :
  (forall e, choose_source w fuel g = Some (Raise e) ->
     _any_running_instances w = Raise e /\ is_ClientError e = false)
  /\ (forall ce co running,
        _fetch_ce_rightsizing w fuel = Some ce ->
        _fetch_co_rightsizing w fuel = Some co ->
        _any_running_instances w = Ok running ->
        exists source summary recs,
          choose_source w fuel g = Some (Ok (source, summary, recs))).
Proof.
  split.
  - intros e H.
    assert (Hs : synthesize w g = Raise e).
    { unfold choose_source in H.
      destruct (_fetch_ce_rightsizing w fuel) as [ce|]; [|discriminate].
      destruct (gated ce _ _) as [[s r]|e1]; [discriminate|].
      destruct (_fetch_co_rightsizing w fuel) as [co|]; [|discriminate].
      destruct (gated co _ _) as [[s r]|e2]; [discriminate|].
      congruence. }
    pose proof (synthesize_Raise w g e Hs) as Hp.
    split; [exact Hp|]. exact (probe_Raise w e Hp).
  - intros ce co running Hce Hco Hp.
    destruct (choose_source_cases w fuel g ce co Hce) as [C1 C2].
    destruct (sufficient ce _sum_ce_savings).
    + destruct (C1 eq_refl) as (s & r & _ & E). eauto.
    + destruct (C2 eq_refl Hco) as [C3 C4].
      destruct (sufficient co _sum_co_savings).
      * destruct (C3 eq_refl) as (s & r & _ & E). eauto.
      * rewrite (C4 eq_refl), (synthesize_spec w g running Hp).
        destruct (gen_synthetic_recs_returns (now_seed w) g) as (s & r & g' & ->). eauto.
Qed.

(** X17: once a source passes its gate the later ones are not consulted:
    with a sufficient cost-explorer answer the invocation is the same
    whatever Compute Optimizer and EC2 would answer and whatever the
    generator state; with a sufficient compute-optimizer answer,
    whatever EC2 would answer and whatever the generator state. *)
Theorem later_sources_are_not_consulted (w : World) (fuel : nat) (g g' : rng) :
  (forall ce, _fetch_ce_rightsizing w fuel = Some ce ->
     sufficient ce _sum_ce_savings = true ->
     forall pages status probe,
       lambda_handler (with_co (with_enrollment (with_ec2 w probe) status) pages) fuel g'
       = lambda_handler w fuel g)
  /\ (forall ce co, _fetch_ce_rightsizing w fuel = Some ce ->
        _fetch_co_rightsizing w fuel = Some co ->
        sufficient ce _sum_ce_savings = false ->
        sufficient co _sum_co_savings = true ->
        forall probe,
          lambda_handler (with_ec2 w probe) fuel g' = lambda_handler w fuel g).
Proof.
  split.
  - intros ce Hce S1 pages status probe.
    set (w' := with_co (with_enrollment (with_ec2 w probe) status) pages).
    assert (Hce' : _fetch_ce_rightsizing w' fuel = Some ce) by exact Hce.
    destruct (proj1 (choose_source_cases w fuel g ce ce Hce) S1) as (s & r & Ec & E).
    destruct (proj1 (choose_source_cases w' fuel g' ce ce Hce') S1) as (s' & r' & Ec' & E').
    rewrite Ec in Ec'. injection Ec' as <- <-.
    unfold lambda_handler. rewrite E, E'. reflexivity.
  - intros ce co Hce Hco S1 S2 probe.
    set (w' := with_ec2 w probe).
    assert (Hce' : _fetch_ce_rightsizing w' fuel = Some ce) by exact Hce.
    assert (Hco' : _fetch_co_rightsizing w' fuel = Some co) by exact Hco.
    destruct (proj1 (proj2 (choose_source_cases w fuel g ce co Hce) S1 Hco) S2)
      as (s & r & Ec & E).
    destruct (proj1 (proj2 (choose_source_cases w' fuel g' ce co Hce') S1 Hco') S2)
      as (s' & r' & Ec' & E').
    rewrite Ec in Ec'. injection Ec' as <- <-.
    unfold lambda_handler. rewrite E, E'. reflexivity.
Qed.

Lemma choose_source_tags (w : World) (fuel : nat) (g : rng)
      (source : string) (summary : pyval) (recs : list pyval) :
  choose_source w fuel g = Some (Ok (source, summary, recs)) ->
  source = "cost-explorer" \/ source = "compute-optimizer" \/ source = "synthetic".
Proof.
  unfold choose_source.
  destruct (_fetch_ce_rightsizing w fuel) as [ce|]; [|discriminate].
  destruct (gated ce _ _) as [[s r]|e1]; [intros H; injection H as <- _ _; auto|].
  destruct (_fetch_co_rightsizing w fuel) as [co|]; [|discriminate].
  destruct (gated co _ _) as [[s r]|e2]; [intros H; injection H as <- _ _; auto|].
  unfold synthesize. destruct (_any_running_instances w) as [running|e]; [|discriminate].
  simpl. destruct (negb running);
    destruct (_gen_synthetic_recs (now_seed w) g) as [[[s r] g']|e];
    try discriminate; intros H; injection H as <- _ _; auto.
Qed.

(** X18: an invocation that returns has written exactly this, in this
    order: the report under the dated key, the same body under the latest
    key, and one invalidation of the latest path; there is no other
    upload and no other invalidation.  It returns the source, both keys
    and an item count equal to the [count] of the report. *)
Theorem returning_invocation (w : World) (fuel : nat) (g : rng)
        (log : list event) (v : pyval) :
  lambda_handler w fuel g = Some (log, Ok v) ->
  exists source summary recs body,
    choose_source w fuel g = Some (Ok (source, summary, recs))
    /\ (source = "cost-explorer" \/ source = "compute-optimizer" \/ source = "synthetic")
    /\ json_dumps (make_payload w source summary recs) = Ok body
    /\ log = [S3Put (dated_key w) body;
              S3Put "projects/ec2-rightsizing/latest.json" body;
              CFInvalidate "/projects/ec2-rightsizing/latest.json"
                           ("rightsizing-" ++ uuid4 w)]
    /\ v = PDict [("status", PStr "ok");
                  ("source", PStr source);
                  ("dated_key", PStr (dated_key w));
                  ("latest_key", PStr "projects/ec2-rightsizing/latest.json");
                  ("items", PInt (Z.of_nat (List.length recs)))]
    /\ py_get (make_payload w source summary recs) "count" PNone
       = py_get v "items" PNone.
Proof.
  unfold lambda_handler.
  destruct (choose_source w fuel g) as [[[[source summary] recs]|e]|] eqn:Hc;
    try discriminate.
  intros H. injection H as H.
  exists source, summary, recs.
  unfold publish, _put_json in H.
  destruct (json_dumps (make_payload w source summary recs)) as [body|e]; [|discriminate].
  destruct (s3_put_object w (dated_key w) body); [discriminate|].
  destruct (s3_put_object w latest_key body); [discriminate|].
  destruct (cf_create_invalidation w _ _); [discriminate|].
  injection H as <- <-. exists body.
  split; [reflexivity|]. split; [exact (choose_source_tags _ _ _ _ _ _ Hc)|].
  repeat split.
Qed.

(** X19: an invocation that raises has made no invalidation.  It has
    stored nothing, or only the dated object when the second upload
    failed, or both objects when the invalidation failed, and the
    exception is the one of the call that failed. *)
Theorem failing_invocation (w : World) (fuel : nat) (g : rng)
        (log : list event) (e : exn) :
  lambda_handler w fuel g = Some (log, Raise e) ->
  (log = [] /\ choose_source w fuel g = Some (Raise e))
  \/ exists source summary recs,
      choose_source w fuel g = Some (Ok (source, summary, recs))
      /\ ((log = [] /\ json_dumps (make_payload w source summary recs) = Raise e)
          \/ exists body,
              json_dumps (make_payload w source summary recs) = Ok body
              /\ ((log = [] /\ s3_put_object w (dated_key w) body = Some e)
                  \/ (log = [S3Put (dated_key w) body]
                      /\ s3_put_object w latest_key body = Some e)
                  \/ (log = [S3Put (dated_key w) body; S3Put latest_key body]
                      /\ cf_create_invalidation w ("/" ++ latest_key)
                           ("rightsizing-" ++ uuid4 w) = Some e))).
Proof.
  unfold lambda_handler.
  destruct (choose_source w fuel g) as [[[[source summary] recs]|e0]|] eqn:Hc;
    try discriminate.
  2:{ intros H. injection H as <- <-. now left. }
  intros H. injection H as H. right. exists source, summary, recs.
  split; [reflexivity|].
  unfold publish, _put_json in H.
  destruct (json_dumps (make_payload w source summary recs)) as [body|e1].
  2:{ injection H as <- <-. now left. }
  right. exists body. split; [reflexivity|].
  destruct (s3_put_object w (dated_key w) body) as [e1|] eqn:H1.
  { injection H as <- <-. now left. }
  destruct (s3_put_object w latest_key body) as [e2|] eqn:H2.
  { injection H as <- <-. right; left. now split. }
  destruct (cf_create_invalidation w _ _) as [e3|] eqn:H3; [|discriminate].
  injection H as <- <-. right; right. now split.
Qed.

(** X10: a NaN among the amounts makes the aggregate NaN, and a NaN
    aggregate is not below the threshold: the gate lets the
    cost-explorer answer through whatever the other records are worth. *)
Theorem nan_amount_passes_gate (w : World) (fuel : nat) (g : rng)
        (summary : pyval) (recs amts : list pyval) :
  _fetch_ce_rightsizing w fuel = Some (Ok (summary, recs)) ->
  Forall2 (fun r a => ce_amount r = Ok a) recs amts ->
  Exists (fun a => py_float a = Ok S754_nan) amts ->
  _sum_ce_savings recs = Ok S754_nan
  /\ F64.ltb S754_nan MIN_SAVINGS = false
  /\ choose_source w fuel g = Some (Ok ("cost-explorer", summary, recs)).
Proof.
  intros Hf Ha Hn.
  assert (Hs : _sum_ce_savings recs = Ok S754_nan).
  { unfold _sum_ce_savings. rewrite (for_each_amounts ce_amount recs amts _ Ha).
    now rewrite fold_add_amount_Exists_nan. }
  split; [exact Hs|]. split; [reflexivity|].
  unfold choose_source, gated. rewrite Hf. simpl. rewrite Hs. reflexivity.
Qed.

End Selection.

Section SyntheticReport.
Context {B : PyBuiltins} {R : PyRandom}.

Lemma choose_source_synthetic (w : World) (fuel : nat) (g : rng)
      (summary : pyval) (recs : list pyval) :
  choose_source w fuel g = Some (Ok ("synthetic", summary, recs)) ->
  exists g', _gen_synthetic_recs (now_seed w) g = Ok (summary, recs, g').
Proof.
  unfold choose_source.
  destruct (_fetch_ce_rightsizing w fuel) as [ce|]; [|discriminate].
  destruct (gated ce _ _) as [[s r]|e1]; [discriminate|].
  destruct (_fetch_co_rightsizing w fuel) as [co|]; [|discriminate].
  destruct (gated co _ _) as [[s r]|e2]; [discriminate|].
  unfold synthesize. destruct (_any_running_instances w) as [running|e]; [|discriminate].
  simpl. destruct (negb running);
    destruct (_gen_synthetic_recs (now_seed w) g) as [[[s r] g']|e];
    try discriminate; intros H; injection H as <- <-; eauto.
Qed.

(** X22: a report whose source is [synthetic] is consistent: it carries
    the summary and the records the generator returns for the date of
    the seed, between two and five well-formed records, a [count] equal
    to their number, and a total that is the exact decimal sum of their
    amounts. *)
Theorem synthetic_report_is_consistent (w : World) (fuel : nat) (g : rng) (p : pyval) :
  payload_of w fuel g = Some (Ok p) ->
  py_get p "source" PNone = Ok (PStr "synthetic") ->
  exists summary recs cs g',
    _gen_synthetic_recs (now_seed w) g = Ok (summary, recs, g')
    /\ py_get p "summary" PNone = Ok summary
    /\ py_get p "recommendations" PNone = Ok (PList recs)
    /\ py_get p "count" PNone = Ok (PInt (Z.of_nat (List.length recs)))
    /\ 2 <= Z.of_nat (List.length recs) <= 5
    /\ Forall2 synthetic_record recs cs
    /\ py_get summary "TotalEstimatedMonthlySavingsAmount" PNone
       = Ok (PStr (cents_numeral (sum_cents cs))).
Proof.
  intros Hp Hs.
  destruct (payload_of_make w fuel g p Hp) as (source & summary & recs & Hc & ->).
  simpl in Hs. injection Hs as ->.
  destruct (choose_source_synthetic w fuel g summary recs Hc) as [g' Eg].
  destruct (gen_synthetic_recs_inv (now_seed w) g)
    as (recs0 & g0 & cs & q & E & Hlen & Hall & Hshape & _ & _).
  rewrite E in Eg. injection Eg as <- <- <-.
  eexists _, recs0, cs, g0. split; [exact E|].
  split; [reflexivity|]. split; [reflexivity|]. split; [reflexivity|].
  split; [rewrite (Forall2_length_Z _ _ _ Hshape); exact Hlen|].
  split; [exact Hshape|].
  simpl. rewrite total_prints_exact; [reflexivity|lia|exact Hall].
Qed.

End SyntheticReport.

(** ** Runs of the further properties *)

Lemma same_float_eq (x y : float) : same_float x y = true -> x = y.
Proof.
  destruct x, y; simpl; try discriminate; intros H.
  - now apply Bool.eqb_prop in H as ->.
  - now apply Bool.eqb_prop in H as ->.
  - reflexivity.
  - apply andb_true_iff in H as [H He]. apply andb_true_iff in H as [Hs Hm].
    apply Bool.eqb_prop in Hs as ->. apply Pos.eqb_eq in Hm as ->.
    apply Z.eqb_eq in He as ->. reflexivity.
Qed.

Lemma parse_table : all_from parse_checked 300 (Z.to_nat 11701) = true.
Proof. vm_cast_no_check (@eq_refl bool true). Qed.

Lemma simple_float_parses (c : Z) :
  300 <= c <= 12000 ->
  @float_of_str simple_builtins (cents_numeral c) = Some (of_cents false c).
Proof.
  intros Hc.
  assert (H : parse_checked c = true).
  { apply (all_from_spec parse_checked _ 300 parse_table). rewrite Z2Nat.id; lia. }
  unfold parse_checked in H. simpl float_of_str.
  destruct (simple_float_of_str (cents_numeral c)) as [x|]; [|discriminate].
  now rewrite (same_float_eq _ _ H).
Qed.

(** Replaces the left-hand side of an equation by its value. *)
Ltac evaluate H :=
  match type of H with
  | ?l = _ =>
      let t := eval vm_compute in l in
      let J := fresh "J" in
      assert (J : l = t) by (vm_compute; reflexivity);
      rewrite J in H; clear J
  end.

Lemma smaller_type_needs_one_dot_run :
  @_smaller_type lcg_random "t3" 7 = Raise ValueError
  /\ @_smaller_type lcg_random "t3.micro.x" 7 = Raise ValueError
  /\ exists target g', @_smaller_type lcg_random "t3.micro" 7 = Ok (target, g').
Proof.
  split; [|split].
  - apply (proj1 (@smaller_type_needs_one_dot lcg_random "t3" 7)). discriminate.
  - apply (proj1 (@smaller_type_needs_one_dot lcg_random "t3.micro.x" 7)). discriminate.
  - apply (proj2 (@smaller_type_needs_one_dot lcg_random "t3.micro" 7)). reflexivity.
Defined.

Lemma smaller_type_family_run :
  exists new_size,
    try_except (ladder_step "large") is_ValueError (Ok "small") = Ok new_size
    /\ @_smaller_type lcg_random ("m6i" ++ "." ++ "large") 7
       = let (k, g') := @rng_bits53 lcg_random 7 in
         let below_half := F64.ltb (F64.of_scaled k (-53)) (F64.of_scaled 1 (-1)) in
         if String.prefix "m6i" "m6i"
         then Ok ((if below_half then "m7g" else "m6i") ++ "." ++ new_size, g')
         else if String.prefix "t3" "m6i"
         then Ok ((if below_half then "t4g" else "m6i") ++ "." ++ new_size, g')
         else Ok ("m6i" ++ "." ++ new_size, 7).
Proof. exact (@smaller_type_family lcg_random "m6i" "large" 7 eq_refl eq_refl). Defined.

Lemma aggregator_reads_synthetic_run :
  exists summary recs g' total,
    @_gen_synthetic_recs simple_builtins lcg_random noon 0 = Ok (summary, recs, g')
    /\ @_sum_ce_savings simple_builtins recs = Ok total
    /\ py_get summary "TotalEstimatedMonthlySavingsAmount" PNone
       = Ok (PStr (format_2f total))
    /\ F64.ltb total MIN_SAVINGS = false.
Proof.
  exact (@aggregator_reads_synthetic_total simple_builtins lcg_random noon 0
           simple_float_parses).
Defined.


Lemma nan_amount_run :
  @_sum_ce_savings simple_builtins
    [ce_record "ModifyRecommendationDetail" (PFloat S754_nan);
     ce_record "TerminateRecommendationDetail" (PStr "7.25")] = Ok S754_nan
  /\ F64.ltb S754_nan MIN_SAVINGS = false
  /\ @choose_source simple_builtins lcg_random nan_world 1 0
     = Some (Ok ("cost-explorer", PDict [],
                 [ce_record "ModifyRecommendationDetail" (PFloat S754_nan);
                  ce_record "TerminateRecommendationDetail" (PStr "7.25")])).
Proof.
  apply (@nan_amount_passes_gate simple_builtins lcg_random nan_world 1 0 (PDict [])
           [ce_record "ModifyRecommendationDetail" (PFloat S754_nan);
            ce_record "TerminateRecommendationDetail" (PStr "7.25")]
           [PFloat S754_nan; PStr "7.25"]).
  - reflexivity.
  - repeat constructor.
  - constructor. reflexivity.
Defined.

Lemma ce_fetch_two_pages :
  _fetch_ce_rightsizing (with_ce quiet_world two_pages) 3
  = Some (Ok (PDict [("TotalRecommendationCount", PStr "1")],
              [ce_record "ModifyRecommendationDetail" (PStr "12.50");
               ce_record "TerminateRecommendationDetail" (PStr "7.25")])).
Proof.
  refine (ce_fetch_collects_pages (with_ce quiet_world two_pages)
            [first_page; second_page]
            [[ce_record "ModifyRecommendationDetail" (PStr "12.50")];
             [ce_record "TerminateRecommendationDetail" (PStr "7.25")]]
            None 3 _ _ _).
  - eapply conversation_goes_on; [reflexivity|reflexivity|reflexivity|].
    eapply conversation_ends; reflexivity.
  - repeat constructor.
  - simpl. lia.
Defined.


Lemma fetch_follows_tokens_run :
  _fetch_ce_rightsizing (with_ce quiet_world (endless "NextPageToken")) 1000 = None.
Proof.
  apply (proj1 (fetch_follows_tokens_forever
                  (with_ce quiet_world (endless "NextPageToken")))).
  intros args. do 3 eexists. repeat split; reflexivity.
Defined.

Lemma any_running_instances_run :
  _any_running_instances (with_ec2 quiet_world (Ok busy_reservations)) = Ok true
  /\ _any_running_instances (with_ec2 quiet_world (Raise (ClientError "UnauthorizedOperation")))
     = Ok false
  /\ _any_running_instances (with_ec2 quiet_world (Raise (BotoCoreError "ReadTimeoutError")))
     = Raise (BotoCoreError "ReadTimeoutError").
Proof.
  split; [|split].
  - exact (proj1 (any_running_instances_spec (with_ec2 quiet_world (Ok busy_reservations)))
             busy_reservations _ eq_refl eq_refl eq_refl).
  - exact (proj2 (any_running_instances_spec
                    (with_ec2 quiet_world (Raise (ClientError "UnauthorizedOperation"))))
             _ eq_refl).
  - exact (proj2 (any_running_instances_spec
                    (with_ec2 quiet_world (Raise (BotoCoreError "ReadTimeoutError"))))
             _ eq_refl).
Defined.

Lemma source_tag_run :
  exists ce,
    _fetch_ce_rightsizing boundary_world 1 = Some ce
    /\ (("cost-explorer" = "cost-explorer"
         /\ ce = Ok (PDict [("TotalRecommendationCount", PStr "1")],
                     [ce_record "ModifyRecommendationDetail" (PStr "0.01")])
         /\ sufficient ce (@_sum_ce_savings simple_builtins) = true)
        \/ (sufficient ce (@_sum_ce_savings simple_builtins) = false
            /\ exists co,
                _fetch_co_rightsizing boundary_world 1 = Some co
                /\ (("cost-explorer" = "compute-optimizer"
                     /\ co = Ok (PDict [("TotalRecommendationCount", PStr "1")],
                                 [ce_record "ModifyRecommendationDetail" (PStr "0.01")])
                     /\ sufficient co (@_sum_co_savings simple_builtins) = true)
                    \/ ("cost-explorer" = "synthetic"
                        /\ sufficient co (@_sum_co_savings simple_builtins) = false
                        /\ exists running g',
                            _any_running_instances boundary_world = Ok running
                            /\ @_gen_synthetic_recs simple_builtins lcg_random
                                 (now_seed boundary_world) 0
                               = Ok (PDict [("TotalRecommendationCount", PStr "1")],
                                     [ce_record "ModifyRecommendationDetail" (PStr "0.01")],
                                     g'))))).
Proof.
  apply (@source_tag_is_truthful simple_builtins lcg_random boundary_world 1 0).
  vm_compute. reflexivity.
Defined.

Lemma selection_raises_run :
  (exists source summary recs,
      @choose_source simple_builtins lcg_random quiet_world 1 0
      = Some (Ok (source, summary, recs)))
  /\ _any_running_instances
       (with_ec2 quiet_world (Raise (BotoCoreError "NoCredentialsError")))
     = Raise (BotoCoreError "NoCredentialsError").
Proof.
  split.
  - exact (proj2 (@selection_raises_only_from_probe simple_builtins lcg_random
                    quiet_world 1 0)
             _ _ false eq_refl eq_refl eq_refl).
  - exact (proj1 (proj1 (@selection_raises_only_from_probe simple_builtins lcg_random
                           (with_ec2 quiet_world (Raise (BotoCoreError "NoCredentialsError")))
                           1 0)
                    (BotoCoreError "NoCredentialsError") eq_refl)).
Defined.

Lemma later_sources_run :
  @lambda_handler simple_builtins lcg_random
    (with_co (with_enrollment (with_ec2 boundary_world (Raise (BotoCoreError "ReadTimeoutError")))
                (Raise (BotoCoreError "ReadTimeoutError")))
       (fun _ => Raise (BotoCoreError "ReadTimeoutError"))) 1 99
  = @lambda_handler simple_builtins lcg_random boundary_world 1 0.
Proof.
  apply (proj1 (@later_sources_are_not_consulted simple_builtins lcg_random
                  boundary_world 1 0 99) _ eq_refl).
  vm_compute. reflexivity.
Defined.

Lemma returning_invocation_run :
  exists log v source summary recs body,
    @lambda_handler simple_builtins lcg_random boundary_world 1 0 = Some (log, Ok v)
    /\ @choose_source simple_builtins lcg_random boundary_world 1 0
       = Some (Ok (source, summary, recs))
    /\ log = [S3Put (dated_key boundary_world) body;
              S3Put "projects/ec2-rightsizing/latest.json" body;
              CFInvalidate "/projects/ec2-rightsizing/latest.json"
                           ("rightsizing-" ++ uuid4 boundary_world)]
    /\ py_get v "items" PNone = Ok (PInt 1)
    /\ py_get v "source" PNone = Ok (PStr "cost-explorer").
Proof.
  assert (E : exists log v,
             @lambda_handler simple_builtins lcg_random boundary_world 1 0
             = Some (log, Ok v))
    by (do 2 eexists; vm_compute; reflexivity).
  destruct E as (log & v & E).
  destruct (@returning_invocation simple_builtins lcg_random boundary_world 1 0 log v E)
    as (source & summary & recs & body & Hc & _ & _ & Hlog & Hv & _).
  exists log, v, source, summary, recs, body.
  split; [exact E|]. split; [exact Hc|]. split; [exact Hlog|].
  evaluate Hc. injection Hc as <- <- <-. subst v. split; reflexivity.
Defined.

Lemma failing_invocation_run :
  let w := with_cdn quiet_world (fun _ _ => Some (ClientError "AccessDenied")) in
  exists body,
    @lambda_handler simple_builtins lcg_random w 1 0
    = Some ([S3Put (dated_key w) body; S3Put latest_key body],
            Raise (ClientError "AccessDenied")).
Proof.
  cbv zeta.
  set (w := with_cdn quiet_world (fun _ _ => Some (ClientError "AccessDenied"))).
  assert (E : exists log e,
             @lambda_handler simple_builtins lcg_random w 1 0 = Some (log, Raise e))
    by (do 2 eexists; vm_compute; reflexivity).
  destruct E as (log & e & E). rewrite E.
  destruct (@failing_invocation simple_builtins lcg_random w 1 0 log e E)
    as [[_ Hc]|(source & summary & recs & Hc & H)].
  - evaluate Hc. discriminate.
  - evaluate Hc. injection Hc as <- <- <-.
    destruct H as [[_ Hj]|(body & Hj & H)]; [evaluate Hj; discriminate Hj|].
    destruct H as [[_ H]|[[_ H]|[-> H]]]; try discriminate H.
    exists body. injection H as <-. reflexivity.
Defined.

Lemma dated_key_run :
  (dated_key quiet_world = dated_key boundary_world
   <-> (year (now_keys quiet_world) = year (now_keys boundary_world)
        /\ month (now_keys quiet_world) = month (now_keys boundary_world)
        /\ day (now_keys quiet_world) = day (now_keys boundary_world)))
  /\ dated_key quiet_world <> latest_key
  /\ String.length (dated_key quiet_world) = 40%nat
  /\ dated_key quiet_world
     = "projects/ec2-rightsizing/" ++ strftime_Ymd (now_keys quiet_world) ++ ".json".
Proof. exact (dated_key_per_date quiet_world boundary_world eq_refl eq_refl). Defined.

Lemma synthetic_report_run :
  exists p summary recs cs g',
    @payload_of simple_builtins lcg_random quiet_world 1 0 = Some (Ok p)
    /\ @_gen_synthetic_recs simple_builtins lcg_random (now_seed quiet_world) 0
       = Ok (summary, recs, g')
    /\ py_get p "summary" PNone = Ok summary
    /\ py_get p "recommendations" PNone = Ok (PList recs)
    /\ py_get p "count" PNone = Ok (PInt (Z.of_nat (List.length recs)))
    /\ 2 <= Z.of_nat (List.length recs) <= 5
    /\ Forall2 synthetic_record recs cs
    /\ py_get summary "TotalEstimatedMonthlySavingsAmount" PNone
       = Ok (PStr (cents_numeral (sum_cents cs))).
Proof.
  assert (E : exists p, @payload_of simple_builtins lcg_random quiet_world 1 0 = Some (Ok p)
                        /\ py_get p "source" PNone = Ok (PStr "synthetic"))
    by (eexists; split; vm_compute; reflexivity).
  destruct E as (p & Hp & Hs). exists p.
  destruct (@synthetic_report_is_consistent simple_builtins lcg_random quiet_world 1 0 p Hp Hs)
    as (summary & recs & cs & g' & H).
  exists summary, recs, cs, g'. split; [exact Hp|exact H].
Defined.
